(** * gotsunami: pacing, metrics collection, response validation, orchestration

    A shallow embedding of the load-generation core of gotsunami
    (internal/engine, internal/metrics, internal/validation,
    internal/protocols/http, internal/utils) and the properties of its
    specification that can be settled on it.

    Conventions.
    - [int], [int64] and [time.Duration] values are integers of [Z] kept in
      the signed 64-bit range by [Go.wrap64]; a [time.Duration] counts
      nanoseconds.
    - [float64] values are Rocq's primitive binary64 floats, so that
      [float64(x) / y] is computed exactly as the Go program computes it.
    - [error] values are modelled by their [Error()] text; a nil error is
      [None].
    - Go maps are [gmap]s; byte slices and strings are [string]s. *)

From stdpp Require Import gmap strings list fin_maps sorting.
From Stdlib Require Import ZArith Floats Uint63 Lia.

Open Scope Z_scope.

(* Decimal literals such as 0.2 denote the nearest binary64 value, as they
   do in the Go source. *)
Set Warnings "-inexact-float".

(** ** Go primitives *)

Module Go.

Definition MinInt64 : Z := - 2 ^ 63.
Definition MaxInt64 : Z := 2 ^ 63 - 1.

(** Two's-complement wrap-around of signed 64-bit arithmetic. *)
Definition wrap64 (z : Z) : Z := (z + 2 ^ 63) mod 2 ^ 64 - 2 ^ 63.

Definition add64 (a b : Z) : Z := wrap64 (a + b).
Definition sub64 (a b : Z) : Z := wrap64 (a - b).
Definition mul64 (a b : Z) : Z := wrap64 (a * b).
(** Integer division truncates toward zero; the divisor is non-zero at
    every use below. *)
Definition quot64 (a b : Z) : Z := wrap64 (Z.quot a b).

Definition Nanosecond : Z := 1.
Definition Microsecond : Z := 1000.
Definition Millisecond : Z := 1000000.
Definition Second : Z := 1000000000.

(** [float64(z)] for an int64 [z]: round to nearest, ties to even. *)
Definition float64_of_nonneg (z : Z) : float :=
  if z <? 2 ^ 63 then PrimFloat.of_uint63 (Uint63.of_Z z)
  else 0x1p+63%float.

Definition float64_of_int64 (z : Z) : float :=
  if z <? 0 then PrimFloat.opp (float64_of_nonneg (- z))
  else float64_of_nonneg z.

(** The language leaves the result of converting a float that no int64
    represents (NaN, an infinity, a magnitude of 2^63 or more) to the
    implementation.  On amd64, the target of the Makefile's builds, the
    conversion yields the "integer indefinite" value [MinInt64]; on
    arm64 it saturates and maps NaN to 0. *)
Inductive Arch : Type := amd64 | arm64.

Definition int64_unrepresentable (a : Arch) (nan negative : bool) : Z :=
  match a with
  | amd64 => MinInt64
  | arm64 => if nan then 0 else if negative then MinInt64 else MaxInt64
  end.

(** [int64(f)]: the fraction is discarded (truncation toward zero). *)
Definition int64_of_float64 (a : Arch) (f : float) : Z :=
  match Prim2SF f with
  | S754_zero _ => 0
  | S754_finite s m e =>
      let v := if 0 <=? e then Z.pos m * 2 ^ e else Z.pos m / 2 ^ (- e) in
      let r := if s then - v else v in
      if (MinInt64 <=? r) && (r <=? MaxInt64) then r
      else int64_unrepresentable a false s
  | S754_infinity s => int64_unrepresentable a false s
  | S754_nan => int64_unrepresentable a true false
  end.

(** Instants of the monotonic clock, in nanoseconds.  [time.Time.Add]
    shifts an instant; [time.Since]/[time.Time.Sub] saturate at the
    bounds of [time.Duration]. *)
Definition time_Add (t d : Z) : Z := t + d.
Definition time_Sub (t u : Z) : Z := Z.max MinInt64 (Z.min MaxInt64 (t - u)).

(** [strings.Contains(s, substr)] *)
Fixpoint strings_Contains (s substr : string) : bool :=
  String.prefix substr s
  || match s with
     | EmptyString => false
     | String _ s' => strings_Contains s' substr
     end.

(** [strings.Join(elems, sep)] *)
Fixpoint strings_Join (elems : list string) (sep : string) : string :=
  match elems with
  | [] => ""
  | [e] => e
  | e :: rest => e +:+ sep +:+ strings_Join rest sep
  end.

(** Library routines whose results the program only inspects: parsing
    of durations, regular expressions, JSON path queries and the text
    that [fmt] produces for numbers. *)
Class Lib : Type := {
  (** [time.ParseDuration]; [None] is a parse error. *)
  time_ParseDuration : string -> option Z;
  (** [regexp.MatchString pattern s]; [None] is a pattern that does not
      compile. *)
  regexp_MatchString : string -> string -> option bool;
  (** [gjson.GetBytes(body, path).Exists()] *)
  gjson_Exists : string -> string -> bool;
  (** [%d] of an integer, [%v] of a slice of integers and of a
      [time.Duration]. *)
  fmt_d : Z -> string;
  fmt_v_ints : list Z -> string;
  fmt_v_duration : Z -> string
}.

End Go.

(** ** internal/config *)

Module Config.

(** The fields of [LoadTestConfig] that the engine and its workers read. *)
Record LoadTestConfig : Type := {
  VirtualUsers : Z;
  Duration : Z;
  RampUp : Z;
  RampDown : Z;
  Delay : Z;
  MaxRequests : Z;
  Pattern : string;
  Workers : Z
}.

Record ValidationConfig : Type := {
  StatusCodes : list Z;
  ResponseTimeMax : string;
  BodyContains : list string;
  BodyNotContains : list string;
  BodyRegex : string;
  BodyJSONPath : string;
  (** [Headers] is a Go map; the list gives its entries in the order the
      runtime happens to range over them. *)
  Headers : list (string * string);
  MinResponseSize : Z;
  MaxResponseSize : Z
}.

(** The fields of [Scenario] from which requests are built.  [Body] is
    the [%v] text of the configured body, [None] when it is nil. *)
Record Scenario : Type := {
  Method : string;
  URL : string;
  BaseURL : string;
  ScenarioHeaders : gmap string string;
  QueryParams : list (string * string);
  Body : option string;
  Timeout : string;
  Validation : option ValidationConfig
}.

Definition GetTimeout `{Go.Lib} (s : Scenario) : Z :=
  if String.eqb (Timeout s) "" then 30 * Go.Second
  else match Go.time_ParseDuration (Timeout s) with
       | None => 30 * Go.Second
       | Some duration => duration
       end.

Definition GetValidationConfig (s : Scenario) : ValidationConfig :=
  match Validation s with
  | None =>
      {| StatusCodes := [200]; ResponseTimeMax := ""; BodyContains := [];
         BodyNotContains := []; BodyRegex := ""; BodyJSONPath := "";
         Headers := []; MinResponseSize := 0; MaxResponseSize := 0 |}
  | Some v => v
  end.

End Config.

(** ** internal/protocols *)

Module Protocols.

Record Request : Type := {
  Method : string;
  URL : string;
  ReqHeaders : gmap string string;
  ReqBody : string;
  Timeout : Z;
  (** A Go map whose values are printed with [%v]; the list gives the
      entries, already printed, in the order the runtime ranges over
      them. *)
  QueryParams : list (string * string)
}.

Record Response : Type := {
  StatusCode : Z;
  Headers : gmap string string;
  Body : string;
  ResponseTime : Z;
  ContentLength : Z;
  Error : option string
}.

End Protocols.

(** ** internal/metrics: the collector *)

Module Metrics.

Import Go.

Record ValidationResults : Type := {
  TotalValidations : Z;
  PassedValidations : Z;
  FailedValidations : Z;
  ValidationErrors : gmap string Z
}.

(** [startTime] and [endTime] are [None] while they hold the zero
    [time.Time]. *)
Record Collector : Type := {
  totalRequests : Z;
  successfulRequests : Z;
  failedRequests : Z;
  totalBytes : Z;
  latencies : list Z;
  minLatency : Z;
  maxLatency : Z;
  totalLatency : Z;
  statusCodes : gmap Z Z;
  errors : gmap string Z;
  startTime : option Z;
  endTime : option Z;
  validationResults : ValidationResults
}.

Definition NewCollector : Collector :=
  {| totalRequests := 0; successfulRequests := 0; failedRequests := 0;
     totalBytes := 0;
     latencies := []; minLatency := 0; maxLatency := 0; totalLatency := 0;
     statusCodes := ∅; errors := ∅;
     startTime := None; endTime := None;
     validationResults :=
       {| TotalValidations := 0; PassedValidations := 0;
          FailedValidations := 0; ValidationErrors := ∅ |} |}.

(** [m[k]++] on a map of int64 counters: an absent key reads as 0. *)
Definition incr `{Countable K} (k : K) (m : gmap K Z) : gmap K Z :=
  <[k := add64 (default 0 (m !! k)) 1]> m.

Definition Start (now : Z) (c : Collector) : Collector :=
  {| totalRequests := totalRequests c;
     successfulRequests := successfulRequests c;
     failedRequests := failedRequests c; totalBytes := totalBytes c;
     latencies := latencies c; minLatency := minLatency c;
     maxLatency := maxLatency c; totalLatency := totalLatency c;
     statusCodes := statusCodes c; errors := errors c;
     startTime := Some now; endTime := endTime c;
     validationResults := validationResults c |}.

Definition Stop (now : Z) (c : Collector) : Collector :=
  {| totalRequests := totalRequests c;
     successfulRequests := successfulRequests c;
     failedRequests := failedRequests c; totalBytes := totalBytes c;
     latencies := latencies c; minLatency := minLatency c;
     maxLatency := maxLatency c; totalLatency := totalLatency c;
     statusCodes := statusCodes c; errors := errors c;
     startTime := startTime c; endTime := Some now;
     validationResults := validationResults c |}.

(** [atomic.AddInt64(&c.totalRequests, 1)] followed by
    [atomic.AddInt64(&c.totalBytes, n)]. *)
Definition addTotals (n : Z) (c : Collector) : Collector :=
  {| totalRequests := add64 (totalRequests c) 1;
     successfulRequests := successfulRequests c;
     failedRequests := failedRequests c;
     totalBytes := add64 (totalBytes c) n;
     latencies := latencies c; minLatency := minLatency c;
     maxLatency := maxLatency c; totalLatency := totalLatency c;
     statusCodes := statusCodes c; errors := errors c;
     startTime := startTime c; endTime := endTime c;
     validationResults := validationResults c |}.

Definition updateLatency (latency : Z) (c : Collector) : Collector :=
  {| totalRequests := totalRequests c;
     successfulRequests := successfulRequests c;
     failedRequests := failedRequests c; totalBytes := totalBytes c;
     latencies := latencies c ++ [latency];
     minLatency :=
       if (minLatency c =? 0) || (latency <? minLatency c)
       then latency else minLatency c;
     maxLatency :=
       if maxLatency c <? latency then latency else maxLatency c;
     totalLatency := add64 (totalLatency c) latency;
     statusCodes := statusCodes c; errors := errors c;
     startTime := startTime c; endTime := endTime c;
     validationResults := validationResults c |}.

Definition updateStatusCode (statusCode : Z) (c : Collector) : Collector :=
  {| totalRequests := totalRequests c;
     successfulRequests := successfulRequests c;
     failedRequests := failedRequests c; totalBytes := totalBytes c;
     latencies := latencies c; minLatency := minLatency c;
     maxLatency := maxLatency c; totalLatency := totalLatency c;
     statusCodes := incr statusCode (statusCodes c); errors := errors c;
     startTime := startTime c; endTime := endTime c;
     validationResults := validationResults c |}.

Definition recordError (err : option string) (c : Collector) : Collector :=
  match err with
  | None => c
  | Some msg =>
      {| totalRequests := totalRequests c;
         successfulRequests := successfulRequests c;
         failedRequests := failedRequests c; totalBytes := totalBytes c;
         latencies := latencies c; minLatency := minLatency c;
         maxLatency := maxLatency c; totalLatency := totalLatency c;
         statusCodes := statusCodes c; errors := incr msg (errors c);
         startTime := startTime c; endTime := endTime c;
         validationResults := validationResults c |}
  end.

Definition addFailed (c : Collector) : Collector :=
  {| totalRequests := totalRequests c;
     successfulRequests := successfulRequests c;
     failedRequests := add64 (failedRequests c) 1;
     totalBytes := totalBytes c;
     latencies := latencies c; minLatency := minLatency c;
     maxLatency := maxLatency c; totalLatency := totalLatency c;
     statusCodes := statusCodes c; errors := errors c;
     startTime := startTime c; endTime := endTime c;
     validationResults := validationResults c |}.

Definition addSuccessful (c : Collector) : Collector :=
  {| totalRequests := totalRequests c;
     successfulRequests := add64 (successfulRequests c) 1;
     failedRequests := failedRequests c;
     totalBytes := totalBytes c;
     latencies := latencies c; minLatency := minLatency c;
     maxLatency := maxLatency c; totalLatency := totalLatency c;
     statusCodes := statusCodes c; errors := errors c;
     startTime := startTime c; endTime := endTime c;
     validationResults := validationResults c |}.

(** The test [resp.Error != nil || resp.StatusCode >= 400]. *)
Definition isFailure (resp : Protocols.Response) : bool :=
  bool_decide (Protocols.Error resp ≠ None)
  || (400 <=? Protocols.StatusCode resp).

Definition RecordResponse (resp : Protocols.Response) (c : Collector)
  : Collector :=
  let c := addTotals (Protocols.ContentLength resp) c in
  let c := updateLatency (Protocols.ResponseTime resp) c in
  let c := updateStatusCode (Protocols.StatusCode resp) c in
  if isFailure resp
  then recordError (Protocols.Error resp) (addFailed c)
  else addSuccessful c.

Definition RecordValidation (passed : bool) (errorType : string)
  (c : Collector) : Collector :=
  let v := validationResults c in
  let v' :=
    if passed then
      {| TotalValidations := add64 (TotalValidations v) 1;
         PassedValidations := add64 (PassedValidations v) 1;
         FailedValidations := FailedValidations v;
         ValidationErrors := ValidationErrors v |}
    else
      {| TotalValidations := add64 (TotalValidations v) 1;
         PassedValidations := PassedValidations v;
         FailedValidations := add64 (FailedValidations v) 1;
         ValidationErrors :=
           if String.eqb errorType "" then ValidationErrors v
           else incr errorType (ValidationErrors v) |} in
  {| totalRequests := totalRequests c;
     successfulRequests := successfulRequests c;
     failedRequests := failedRequests c; totalBytes := totalBytes c;
     latencies := latencies c; minLatency := minLatency c;
     maxLatency := maxLatency c; totalLatency := totalLatency c;
     statusCodes := statusCodes c; errors := errors c;
     startTime := startTime c; endTime := endTime c;
     validationResults := v' |}.

(** The state after a sequence of [RecordResponse] calls, oldest first. *)
Definition recordAll (rs : list Protocols.Response) (c : Collector)
  : Collector :=
  foldl (fun c r => RecordResponse r c) c rs.

(** *** Sorting and percentiles *)

(** [if a[i] > a[j] { a[i], a[j] = a[j], a[i] }] *)
Definition swapIfGreater (i j : nat) (a : list Z) : list Z :=
  match a !! i, a !! j with
  | Some x, Some y => if y <? x then <[j := x]> (<[i := y]> a) else a
  | _, _ => a
  end.

(** [for j := i + 1; j < len(a); j++ { ... }] *)
Definition sortInner (i : nat) (a : list Z) : list Z :=
  foldl (fun a j => swapIfGreater i j a) a (seq (S i) (length a - S i)).

(** [for i := 0; i < len(a); i++ { ... }] *)
Definition simpleSort (a : list Z) : list Z :=
  foldl (fun a i => sortInner i a) a (seq 0 (length a)).

(** [int(float64(n-1) * percentile / 100)] *)
Definition percentileIndex (a : Arch) (n : nat) (percentile : float) : Z :=
  int64_of_float64 a
    (float64_of_int64 (Z.of_nat n - 1) * percentile / 100)%float.

(** Indexing a slice panics outside its bounds: [None]. *)
Definition index (l : list Z) (i : Z) : option Z :=
  if i <? 0 then None else l !! Z.to_nat i.

Definition calculatePercentile (a : Arch) (sortedLatencies : list Z)
  (percentile : float) : option Z :=
  match sortedLatencies with
  | [] => Some 0
  | _ =>
      let n := length sortedLatencies in
      let i := percentileIndex a n percentile in
      let i := if Z.of_nat n <=? i then Z.of_nat n - 1 else i in
      index sortedLatencies i
  end.

Record LatencyStats : Type := {
  Min : Z;
  Max : Z;
  Mean : Z;
  Median : Z;
  P90 : Z;
  P95 : Z;
  P99 : Z;
  P99_9 : Z
}.

Definition emptyLatencyStats : LatencyStats :=
  {| Min := 0; Max := 0; Mean := 0; Median := 0;
     P90 := 0; P95 := 0; P99 := 0; P99_9 := 0 |}.

Definition calculateLatencyStats (a : Arch) (c : Collector)
  : option LatencyStats :=
  match latencies c with
  | [] => Some emptyLatencyStats
  | _ =>
      let sortedLatencies := simpleSort (latencies c) in
      median ← calculatePercentile a sortedLatencies 50;
      p90 ← calculatePercentile a sortedLatencies 90;
      p95 ← calculatePercentile a sortedLatencies 95;
      p99 ← calculatePercentile a sortedLatencies 99;
      p99_9 ← calculatePercentile a sortedLatencies 99.9;
      Some {| Min := minLatency c;
              Max := maxLatency c;
              Mean := quot64 (totalLatency c)
                             (Z.of_nat (length (latencies c)));
              Median := median; P90 := p90; P95 := p95; P99 := p99;
              P99_9 := p99_9 |}
  end.

(** The counters and latency table of [Summary]; the derived rates are
    floating-point quotients of these and are not needed below. *)
Record Summary : Type := {
  TotalRequests : Z;
  SuccessfulRequests : Z;
  FailedRequests : Z;
  TotalBytes : Z;
  Latency : option LatencyStats;
  StatusCodes : gmap Z Z;
  Errors : gmap string Z;
  SummaryValidationResults : ValidationResults
}.

Definition GetSummary (a : Arch) (c : Collector) : option Summary :=
  latency ← match latencies c with
            | [] => Some None
            | _ => Some <$> calculateLatencyStats a c
            end;
  Some {| TotalRequests := totalRequests c;
          SuccessfulRequests := successfulRequests c;
          FailedRequests := failedRequests c;
          TotalBytes := totalBytes c;
          Latency := latency;
          StatusCodes := statusCodes c;
          Errors := errors c;
          SummaryValidationResults := validationResults c |}.

End Metrics.

(** ** internal/utils: statistics helpers *)

Module Utils.

Import Go.

(** [CalculatePercentile] sorts a copy with the same two nested loops as
    the collector and indexes it by the same rule. *)
Definition CalculatePercentile (a : Arch) (durations : list Z)
  (percentile : float) : option Z :=
  match durations with
  | [] => Some 0
  | _ =>
      let sorted := Metrics.simpleSort durations in
      let n := length sorted in
      let i := Metrics.percentileIndex a n percentile in
      let i := if Z.of_nat n <=? i then Z.of_nat n - 1 else i in
      Metrics.index sorted i
  end.

(** [CalculateMinMax]: both bounds start from the first entry. *)
Definition CalculateMinMax (durations : list Z) : Z * Z :=
  match durations with
  | [] => (0, 0)
  | first :: _ =>
      foldl (fun '(min, max) d =>
               let min := if d <? min then d else min in
               let max := if max <? d then d else max in
               (min, max))
        (first, first) durations
  end.

End Utils.

(** ** internal/validation: the response validator *)

Module Validation.

Import Go.

Record ValidationResult : Type := {
  Passed : bool;
  ErrorType : string;
  Message : string
}.

Definition pass : ValidationResult :=
  {| Passed := true; ErrorType := ""; Message := "" |}.

Definition fail (errorType message : string) : ValidationResult :=
  {| Passed := false; ErrorType := errorType; Message := message |}.

Section Validator.

Context `{Lib}.

(** The validator holds its rule set. *)
Variable config : Config.ValidationConfig.

Definition validateStatusCode (statusCode : Z) : ValidationResult :=
  match Config.StatusCodes config with
  | [] => pass
  | codes =>
      if existsb (fun expectedCode => statusCode =? expectedCode) codes
      then pass
      else fail "status_code"
             ("expected status codes " +:+ fmt_v_ints codes
              +:+ ", got " +:+ fmt_d statusCode)
  end.

Definition validateResponseTime (responseTime : Z) : ValidationResult :=
  if String.eqb (Config.ResponseTimeMax config) "" then pass
  else
    match time_ParseDuration (Config.ResponseTimeMax config) with
    | None =>
        fail "config_error"
          ("invalid response_time_max format: "
           +:+ Config.ResponseTimeMax config)
    | Some maxTime =>
        if maxTime <? responseTime
        then fail "response_time"
               ("response time " +:+ fmt_v_duration responseTime
                +:+ " exceeds maximum " +:+ fmt_v_duration maxTime)
        else pass
    end.

Definition validateResponseSize (size : Z) : ValidationResult :=
  if (0 <? Config.MinResponseSize config)
     && (size <? Config.MinResponseSize config)
  then fail "response_size"
         ("response size " +:+ fmt_d size +:+ " is below minimum "
          +:+ fmt_d (Config.MinResponseSize config))
  else if (0 <? Config.MaxResponseSize config)
          && (Config.MaxResponseSize config <? size)
  then fail "response_size"
         ("response size " +:+ fmt_d size +:+ " exceeds maximum "
          +:+ fmt_d (Config.MaxResponseSize config))
  else pass.

Definition validateJSONPath (body jsonPath : string) : bool :=
  if String.eqb body "" then false else gjson_Exists body jsonPath.

(** The two loops of [validateBody]; [Some] is the result returned
    from inside the loop. *)
Fixpoint requiredLoop (bodyStr : string) (requireds : list string)
  : option ValidationResult :=
  match requireds with
  | [] => None
  | required :: rest =>
      if negb (strings_Contains bodyStr required)
      then Some (fail "body_content"
                   ("response body does not contain required string: "
                    +:+ required))
      else requiredLoop bodyStr rest
  end.

Fixpoint forbiddenLoop (bodyStr : string) (forbiddens : list string)
  : option ValidationResult :=
  match forbiddens with
  | [] => None
  | forbidden :: rest =>
      if strings_Contains bodyStr forbidden
      then Some (fail "body_content"
                   ("response body contains forbidden string: "
                    +:+ forbidden))
      else forbiddenLoop bodyStr rest
  end.

(** The block guarded by [v.config.BodyRegex != ""]. *)
Definition regexBlock (bodyStr : string) : option ValidationResult :=
  if negb (String.eqb (Config.BodyRegex config) "") then
    match regexp_MatchString (Config.BodyRegex config) bodyStr with
    | None =>
        Some (fail "config_error"
                ("invalid body regex pattern: "
                 +:+ Config.BodyRegex config))
    | Some matched =>
        if negb matched
        then Some (fail "body_regex"
                     ("response body does not match regex pattern: "
                      +:+ Config.BodyRegex config))
        else None
    end
  else None.

(** The block guarded by [v.config.BodyJSONPath != ""]. *)
Definition jsonPathBlock (body : string) : option ValidationResult :=
  if negb (String.eqb (Config.BodyJSONPath config) "") then
    if negb (validateJSONPath body (Config.BodyJSONPath config))
    then Some (fail "body_json_path"
                 ("JSON path not found or invalid: "
                  +:+ Config.BodyJSONPath config))
    else None
  else None.

Definition validateBody (body : string) : ValidationResult :=
  let bodyStr := body in
  match requiredLoop bodyStr (Config.BodyContains config) with
  | Some result => result
  | None =>
  match forbiddenLoop bodyStr (Config.BodyNotContains config) with
  | Some result => result
  | None =>
  match regexBlock bodyStr with
  | Some result => result
  | None =>
  match jsonPathBlock body with
  | Some result => result
  | None => pass
  end end end end.

Fixpoint headersLoop (expected : list (string * string))
  (headers : gmap string string) : ValidationResult :=
  match expected with
  | [] => pass
  | (expectedHeader, expectedValue) :: rest =>
      match headers !! expectedHeader with
      | None =>
          fail "header_missing"
            ("required header missing: " +:+ expectedHeader)
      | Some actualValue =>
          if negb (String.eqb actualValue expectedValue)
          then fail "header_value"
                 ("header " +:+ expectedHeader
                  +:+ " has unexpected value: expected " +:+ expectedValue
                  +:+ ", got " +:+ actualValue)
          else headersLoop rest headers
      end
  end.

Definition validateHeaders (headers : gmap string string)
  : ValidationResult :=
  match Config.Headers config with
  | [] => pass
  | expected => headersLoop expected headers
  end.

Definition Validate (resp : Protocols.Response) : ValidationResult :=
  match Protocols.Error resp with
  | Some msg => fail "request_error" msg
  | None =>
      let result := validateStatusCode (Protocols.StatusCode resp) in
      if negb (Passed result) then result else
      let result := validateResponseTime (Protocols.ResponseTime resp) in
      if negb (Passed result) then result else
      let result := validateResponseSize (Protocols.ContentLength resp) in
      if negb (Passed result) then result else
      let result := validateBody (Protocols.Body resp) in
      if negb (Passed result) then result else
      let result := validateHeaders (Protocols.Headers resp) in
      if negb (Passed result) then result else
      pass
  end.

End Validator.

End Validation.

(** ** internal/protocols/http: the HTTP client *)

Module HTTP.

Import Go.

Record Config : Type := {
  Timeout : Z;
  KeepAlive : bool;
  MaxConnections : Z;
  TLSSkipVerify : bool;
  Proxy : string;
  UserAgent : string
}.

Record Metrics : Type := {
  TotalRequests : Z;
  SuccessfulRequests : Z;
  FailedRequests : Z;
  TotalBytes : Z;
  AverageLatency : Z;
  MaxLatency : Z;
  MinLatency : Z
}.

(** The connection pool behind [client] and [transport] is opaque here. *)
Record HTTPClient : Type := {
  config : Config;
  metrics : Metrics
}.

Definition NewHTTPClient (cfg : Config) : HTTPClient :=
  {| config := cfg;
     metrics := {| TotalRequests := 0; SuccessfulRequests := 0;
                   FailedRequests := 0; TotalBytes := 0;
                   AverageLatency := 0; MaxLatency := 0;
                   MinLatency := 0 |} |}.

(** [net/http] requests and responses as far as the client looks at
    them. *)
Record http_Request : Type := {
  reqMethod : string;
  reqURL : string;
  reqBody : string;
  reqHeader : gmap string string
}.

Record http_Response : Type := {
  respStatusCode : Z;
  respHeader : gmap string (list string)
}.

(** What the outside world answers during one call of [Execute]. *)
Record Exchange : Type := {
  (** the error of [http.NewRequestWithContext], if any *)
  newRequestError : option string;
  (** [time.Since(start)] read when the request could not be built *)
  sinceStartEarly : Z;
  (** the result of [c.client.Do] *)
  doResult : http_Response + string;
  (** [time.Since(start)] read after [c.client.Do] *)
  sinceStart : Z;
  (** the result of [io.ReadAll(httpResp.Body)] *)
  readAllResult : string + string
}.

Definition buildURLWithParams (baseURL : string)
  (params : list (string * string)) : string :=
  match params with
  | [] => baseURL
  | _ =>
      let query := map (fun kv => fst kv +:+ "=" +:+ snd kv) params in
      let separator :=
        if strings_Contains baseURL "?" then "&" else "?" in
      baseURL +:+ separator +:+ strings_Join query "&"
  end.

Definition createHTTPRequest (c : HTTPClient) (x : Exchange)
  (req : Protocols.Request) : http_Request + string :=
  let url := Protocols.URL req in
  let url := match Protocols.QueryParams req with
             | [] => url
             | params => buildURLWithParams url params
             end in
  match newRequestError x with
  | Some err => inr ("failed to create HTTP request: " +:+ err)
  | None =>
      (* header names are taken in their canonical form *)
      let header := Protocols.ReqHeaders req in
      let header :=
        if String.eqb (default "" (header !! "User-Agent")) ""
           && negb (String.eqb (UserAgent (config c)) "")
        then <["User-Agent" := UserAgent (config c)]> header
        else header in
      inl {| reqMethod := Protocols.Method req; reqURL := url;
             reqBody := Protocols.ReqBody req; reqHeader := header |}
  end.

Definition extractHeaders (headers : gmap string (list string))
  : gmap string string :=
  omap head headers.

Definition createErrorResponse (err : string) (responseTime : Z)
  : Protocols.Response :=
  {| Protocols.StatusCode := 0;
     Protocols.Headers := ∅;
     Protocols.Body := "";
     Protocols.ResponseTime := responseTime;
     Protocols.ContentLength := 0;
     Protocols.Error := Some err |}.

Definition addFailed (m : Metrics) : Metrics :=
  {| TotalRequests := TotalRequests m;
     SuccessfulRequests := SuccessfulRequests m;
     FailedRequests := add64 (FailedRequests m) 1;
     TotalBytes := TotalBytes m;
     AverageLatency := AverageLatency m;
     MaxLatency := MaxLatency m;
     MinLatency := MinLatency m |}.

Definition updateMetrics (responseTime bodySize statusCode : Z)
  (m : Metrics) : Metrics :=
  let total := add64 (TotalRequests m) 1 in
  let ok := (200 <=? statusCode) && (statusCode <? 400) in
  {| TotalRequests := total;
     SuccessfulRequests :=
       if ok then add64 (SuccessfulRequests m) 1 else SuccessfulRequests m;
     FailedRequests :=
       if ok then FailedRequests m else add64 (FailedRequests m) 1;
     TotalBytes := add64 (TotalBytes m) bodySize;
     AverageLatency :=
       if 0 <? total then
         let totalLatency := mul64 (AverageLatency m) (sub64 total 1) in
         quot64 (add64 totalLatency responseTime) total
       else AverageLatency m;
     MaxLatency :=
       if MaxLatency m <? responseTime then responseTime else MaxLatency m;
     MinLatency :=
       if (MinLatency m =? 0) || (responseTime <? MinLatency m)
       then responseTime else MinLatency m |}.

Definition withMetrics (c : HTTPClient) (m : Metrics) : HTTPClient :=
  {| config := config c; metrics := m |}.

(** [Execute] returns a response pointer and an error, a nil pointer or
    a nil error being [None], together with the client after the call. *)
Definition Execute (c : HTTPClient) (x : Exchange) (req : Protocols.Request)
  : (option Protocols.Response * option string) * HTTPClient :=
  match createHTTPRequest c x req with
  | inr err => ((Some (createErrorResponse err (sinceStartEarly x)), None), c)
  | inl httpReq =>
      let responseTime := sinceStart x in
      match doResult x with
      | inr err =>
          ((Some (createErrorResponse err responseTime), None),
           withMetrics c (addFailed (metrics c)))
      | inl httpResp =>
          match readAllResult x with
          | inr err =>
              ((Some (createErrorResponse err responseTime), None),
               withMetrics c (addFailed (metrics c)))
          | inl body =>
              let len := Z.of_nat (String.length body) in
              ((Some {| Protocols.StatusCode := respStatusCode httpResp;
                        Protocols.Headers :=
                          extractHeaders (respHeader httpResp);
                        Protocols.Body := body;
                        Protocols.ResponseTime := responseTime;
                        Protocols.ContentLength := len;
                        Protocols.Error := None |},
                None),
               withMetrics c
                 (updateMetrics responseTime len (respStatusCode httpResp)
                    (metrics c)))
          end
      end
  end.

End HTTP.

(** ** internal/engine: workers, pacing and orchestration *)

Module Engine.

Import Go.

Record LoadPhase : Type := {
  Duration : Z;
  Intensity : float
}.

Record LoadPattern : Type := {
  Type_ : string;
  Phases : list LoadPhase
}.

(** The wiring of [LoadEngine] that stays fixed during a run.  The
    objects it points to and that change (the collector, the protocol
    client, the cancellation context, the workers) are components of
    [RunState] below. *)
Record LoadEngine : Type := {
  config : Config.LoadTestConfig;
  scenario : Config.Scenario;
  validator : Config.ValidationConfig
}.

Definition GetConfig (e : LoadEngine) : Config.LoadTestConfig := config e.
Definition GetScenario (e : LoadEngine) : Config.Scenario := scenario e.

Record Worker : Type := {
  id : Z;
  engine : LoadEngine;
  requests : Z
}.

Definition NewWorker (i : Z) (e : LoadEngine) : Worker :=
  {| id := i; engine := e; requests := 0 |}.

Definition calculateSpikePattern (w : Worker) : LoadPattern :=
  let duration := Config.Duration (GetConfig (engine w)) in
  {| Type_ := "spike";
     Phases := [ {| Duration := quot64 duration 4; Intensity := 0.2 |};
                 {| Duration := quot64 duration 4; Intensity := 1.0 |};
                 {| Duration := quot64 duration 2; Intensity := 0.2 |} ] |}.

Definition calculateSteadyPattern (w : Worker) : LoadPattern :=
  let config := GetConfig (engine w) in
  {| Type_ := "steady";
     Phases := [ {| Duration := Config.RampUp config; Intensity := 0.0 |};
                 {| Duration := sub64 (sub64 (Config.Duration config)
                                             (Config.RampUp config))
                                      (Config.RampDown config);
                    Intensity := 1.0 |};
                 {| Duration := Config.RampDown config; Intensity := 0.0 |} ] |}.

Definition calculateRampUpPattern (w : Worker) : LoadPattern :=
  let duration := Config.Duration (GetConfig (engine w)) in
  {| Type_ := "ramp-up";
     Phases := [ {| Duration := duration; Intensity := 0.0 |} ] |}.

Definition calculateStressPattern (w : Worker) : LoadPattern :=
  let duration := Config.Duration (GetConfig (engine w)) in
  {| Type_ := "stress";
     Phases := [ {| Duration := quot64 duration 3; Intensity := 0.5 |};
                 {| Duration := quot64 duration 3; Intensity := 1.0 |};
                 {| Duration := quot64 duration 3; Intensity := 1.5 |} ] |}.

Definition calculateLoadPattern (w : Worker) : LoadPattern :=
  let p := Config.Pattern (GetConfig (engine w)) in
  if String.eqb p "spike" then calculateSpikePattern w
  else if String.eqb p "steady" then calculateSteadyPattern w
  else if String.eqb p "ramp-up" then calculateRampUpPattern w
  else if String.eqb p "stress" then calculateStressPattern w
  else calculateSteadyPattern w.

(** The loop of [calculateDelay] that looks for the phase whose window
    contains [elapsed]; it yields the phase together with [phaseStart]. *)
Fixpoint currentPhase (phases : list LoadPhase) (elapsed phaseStart : Z)
  : option (LoadPhase * Z) :=
  match phases with
  | [] => None
  | phase :: rest =>
      if elapsed <? add64 phaseStart (Duration phase)
      then Some (phase, phaseStart)
      else currentPhase rest elapsed (add64 phaseStart (Duration phase))
  end.

Definition calculateIntensity (w : Worker) (phase : LoadPhase) (elapsed : Z)
  : float :=
  if Duration phase =? 0 then Intensity phase
  else
    let progress :=
      (float64_of_int64 elapsed / float64_of_int64 (Duration phase))%float in
    let progress := if (1.0 <? progress)%float then 1.0%float else progress in
    if String.eqb (Config.Pattern (GetConfig (engine w))) "ramp-up"
    then progress
    else Intensity phase.

Definition baseDelay : Z := 100 * Millisecond.

(** The intensity [calculateDelay] computes once [elapsed] is known;
    [None] when no phase is active. *)
Definition intensityAt (w : Worker) (pattern : LoadPattern) (elapsed : Z)
  : option float :=
  match currentPhase (Phases pattern) elapsed 0 with
  | None => None
  | Some (phase, phaseStart) =>
      Some (calculateIntensity w phase (sub64 elapsed phaseStart))
  end.

(** The body of [calculateDelay] below the line that computes [elapsed]. *)
Definition calculateDelayAt (a : Arch) (w : Worker) (pattern : LoadPattern)
  (elapsed : Z) : Z :=
  match intensityAt w pattern elapsed with
  | None => 0
  | Some intensity =>
      int64_of_float64 a (float64_of_int64 baseDelay / intensity)%float
  end.

(** [elapsed := time.Since(time.Now().Add(-config.Duration))]: [now1] is
    the reading of [time.Now()], [now2] the later reading taken inside
    [time.Since]. *)
Definition elapsedOf (w : Worker) (now1 now2 : Z) : Z :=
  time_Sub now2 (time_Add now1 (- Config.Duration (GetConfig (engine w)))).

Definition calculateDelay (a : Arch) (w : Worker) (pattern : LoadPattern)
  (now1 now2 : Z) : Z :=
  calculateDelayAt a w pattern (elapsedOf w now1 now2).

(** *** Issuing requests (engine.go, worker.go) *)

Section Requests.

Context `{Lib}.

Definition CreateRequest (e : LoadEngine) : Protocols.Request :=
  let s := scenario e in
  {| Protocols.Method := Config.Method s;
     Protocols.URL := Config.BaseURL s +:+ Config.URL s;
     Protocols.ReqHeaders := Config.ScenarioHeaders s;
     Protocols.ReqBody := default "" (Config.Body s);
     Protocols.Timeout := Config.GetTimeout s;
     Protocols.QueryParams := Config.QueryParams s |}.

(** [LoadEngine.RecordResponse]: validate, then record the validation
    outcome and the response. *)
Definition RecordResponse (e : LoadEngine) (resp : Protocols.Response)
  (c : Metrics.Collector) : Metrics.Collector :=
  let validationResult := Validation.Validate (validator e) resp in
  Metrics.RecordResponse resp
    (Metrics.RecordValidation (Validation.Passed validationResult)
       (Validation.ErrorType validationResult) c).

(** [executeRequest], given what [Protocol.Execute] returned.  The
    returned pointer is used without a nil check: a nil response
    panics, which is [None]. *)
Definition executeRequest (w : Worker)
  (result : option Protocols.Response * option string)
  (c : Metrics.Collector) : option (Worker * Metrics.Collector) :=
  let w' := {| id := id w; engine := engine w;
               requests := add64 (requests w) 1 |} in
  match fst result with
  | None => None
  | Some resp => Some (w', RecordResponse (engine w) resp c)
  end.

(** What a worker does that others can observe. *)
Inductive Action : Type :=
| Sleep (d : Z)
| Request (req : Protocols.Request).

Definition sleepIfPositive (d : Z) : list Action :=
  if 0 <? d then [Sleep d] else [].

Inductive Iteration : Type :=
| Returned
| Panicked
| Continued (w : Worker) (c : Metrics.Collector) (acts : list Action).

(** One turn of the loop of [Worker.Run]: [done] tells whether the
    context is cancelled when the [select] runs, [now1] and [now2]
    are the clock readings taken by [calculateDelay], [result] is
    what the protocol client returns. *)
Definition iteration (a : Arch) (w : Worker) (pattern : LoadPattern)
  (done : bool) (now1 now2 : Z)
  (result : option Protocols.Response * option string)
  (c : Metrics.Collector) : Iteration :=
  if done then Returned
  else
    let cfg := GetConfig (engine w) in
    if (0 <? Config.MaxRequests cfg)
       && (Config.MaxRequests cfg <=? requests w)
    then Returned
    else
      let delay := calculateDelay a w pattern now1 now2 in
      match executeRequest w result c with
      | None => Panicked
      | Some (w', c') =>
          Continued w' c'
            (sleepIfPositive delay
             ++ [Request (CreateRequest (engine w))]
             ++ sleepIfPositive (Config.Delay cfg))
      end.

(** *** The run of the engine as interleaved steps *)

(** Where the goroutine of [LoadEngine.Run] stands. *)
Inductive EnginePC : Type :=
| AtCollectorStart
| AtSpawn
| AtSelect
| AtCollectorStop
| AtWait
| AtClose
| AtGetSummary
| Finished.

(** The updates of the collector that are synchronised one by one: an
    atomic addition, or a section under the collector's lock.  Other
    goroutines can come between any two of them. *)
Inductive CollectorOp : Type :=
| AddTotalValidations
| AddPassedValidations
| AddFailedValidations
| CountValidationError (errorType : string)
| AddTotalRequests
| AddTotalBytes (n : Z)
| UpdateLatency (latency : Z)
| UpdateStatusCode (statusCode : Z)
| AddFailedRequests
| CountError (msg : string)
| AddSuccessfulRequests.

Definition withValidationResults (v : Metrics.ValidationResults)
  (c : Metrics.Collector) : Metrics.Collector :=
  {| Metrics.totalRequests := Metrics.totalRequests c;
     Metrics.successfulRequests := Metrics.successfulRequests c;
     Metrics.failedRequests := Metrics.failedRequests c;
     Metrics.totalBytes := Metrics.totalBytes c;
     Metrics.latencies := Metrics.latencies c;
     Metrics.minLatency := Metrics.minLatency c;
     Metrics.maxLatency := Metrics.maxLatency c;
     Metrics.totalLatency := Metrics.totalLatency c;
     Metrics.statusCodes := Metrics.statusCodes c;
     Metrics.errors := Metrics.errors c;
     Metrics.startTime := Metrics.startTime c;
     Metrics.endTime := Metrics.endTime c;
     Metrics.validationResults := v |}.

Definition perform (op : CollectorOp) (c : Metrics.Collector)
  : Metrics.Collector :=
  let v := Metrics.validationResults c in
  match op with
  | AddTotalValidations =>
      withValidationResults
        {| Metrics.TotalValidations := add64 (Metrics.TotalValidations v) 1;
           Metrics.PassedValidations := Metrics.PassedValidations v;
           Metrics.FailedValidations := Metrics.FailedValidations v;
           Metrics.ValidationErrors := Metrics.ValidationErrors v |} c
  | AddPassedValidations =>
      withValidationResults
        {| Metrics.TotalValidations := Metrics.TotalValidations v;
           Metrics.PassedValidations :=
             add64 (Metrics.PassedValidations v) 1;
           Metrics.FailedValidations := Metrics.FailedValidations v;
           Metrics.ValidationErrors := Metrics.ValidationErrors v |} c
  | AddFailedValidations =>
      withValidationResults
        {| Metrics.TotalValidations := Metrics.TotalValidations v;
           Metrics.PassedValidations := Metrics.PassedValidations v;
           Metrics.FailedValidations :=
             add64 (Metrics.FailedValidations v) 1;
           Metrics.ValidationErrors := Metrics.ValidationErrors v |} c
  | CountValidationError errorType =>
      withValidationResults
        {| Metrics.TotalValidations := Metrics.TotalValidations v;
           Metrics.PassedValidations := Metrics.PassedValidations v;
           Metrics.FailedValidations := Metrics.FailedValidations v;
           Metrics.ValidationErrors :=
             Metrics.incr errorType (Metrics.ValidationErrors v) |} c
  | AddTotalRequests =>
      {| Metrics.totalRequests := add64 (Metrics.totalRequests c) 1;
         Metrics.successfulRequests := Metrics.successfulRequests c;
         Metrics.failedRequests := Metrics.failedRequests c;
         Metrics.totalBytes := Metrics.totalBytes c;
         Metrics.latencies := Metrics.latencies c;
         Metrics.minLatency := Metrics.minLatency c;
         Metrics.maxLatency := Metrics.maxLatency c;
         Metrics.totalLatency := Metrics.totalLatency c;
         Metrics.statusCodes := Metrics.statusCodes c;
         Metrics.errors := Metrics.errors c;
         Metrics.startTime := Metrics.startTime c;
         Metrics.endTime := Metrics.endTime c;
         Metrics.validationResults := Metrics.validationResults c |}
  | AddTotalBytes n =>
      {| Metrics.totalRequests := Metrics.totalRequests c;
         Metrics.successfulRequests := Metrics.successfulRequests c;
         Metrics.failedRequests := Metrics.failedRequests c;
         Metrics.totalBytes := add64 (Metrics.totalBytes c) n;
         Metrics.latencies := Metrics.latencies c;
         Metrics.minLatency := Metrics.minLatency c;
         Metrics.maxLatency := Metrics.maxLatency c;
         Metrics.totalLatency := Metrics.totalLatency c;
         Metrics.statusCodes := Metrics.statusCodes c;
         Metrics.errors := Metrics.errors c;
         Metrics.startTime := Metrics.startTime c;
         Metrics.endTime := Metrics.endTime c;
         Metrics.validationResults := Metrics.validationResults c |}
  | UpdateLatency latency => Metrics.updateLatency latency c
  | UpdateStatusCode statusCode => Metrics.updateStatusCode statusCode c
  | AddFailedRequests => Metrics.addFailed c
  | CountError msg => Metrics.recordError (Some msg) c
  | AddSuccessfulRequests => Metrics.addSuccessful c
  end.

Definition performAll (ops : list CollectorOp) (c : Metrics.Collector)
  : Metrics.Collector :=
  foldl (fun c op => perform op c) c ops.

(** The updates of [Collector.RecordValidation], in the order of its
    statements. *)
Definition validationOps (passed : bool) (errorType : string)
  : list CollectorOp :=
  AddTotalValidations
  :: (if passed then [AddPassedValidations]
      else AddFailedValidations
           :: (if negb (String.eqb errorType "")
               then [CountValidationError errorType] else [])).

(** The updates of [Collector.RecordResponse], in the order of its
    statements. *)
Definition responseOps (resp : Protocols.Response) : list CollectorOp :=
  [ AddTotalRequests;
    AddTotalBytes (Protocols.ContentLength resp);
    UpdateLatency (Protocols.ResponseTime resp);
    UpdateStatusCode (Protocols.StatusCode resp) ]
  ++ (if Metrics.isFailure resp
      then AddFailedRequests
           :: match Protocols.Error resp with
              | Some msg => [CountError msg]
              | None => []
              end
      else [AddSuccessfulRequests]).

(** The updates of [LoadEngine.RecordResponse]. *)
Definition recordOps (e : LoadEngine) (resp : Protocols.Response)
  : list CollectorOp :=
  let validationResult := Validation.Validate (validator e) resp in
  validationOps (Validation.Passed validationResult)
    (Validation.ErrorType validationResult)
  ++ responseOps resp.

(** Where a worker goroutine stands: not yet launched; at the [select]
    at the head of its loop; past the [select], before the request cap
    is looked at; inside [executeRequest] with its counter already
    incremented, while the request is under way; inside
    [LoadEngine.RecordResponse], with the updates of the collector that
    are still to come; or returned. *)
Inductive WorkerPC : Type :=
| NotStarted
| AtLoopHead
| InLoopBody
| InFlight
| Recording (ops : list CollectorOp)
| Terminated.

Inductive Event : Type :=
| EvCollectorStart
| EvCollectorStop
| EvRecordValidation (worker : Z)
| EvRecordResponse (worker : Z)
| EvWorkersJoined
| EvProtocolClose
| EvGetSummary.

(** A call of [Collector.RecordValidation] or [Collector.RecordResponse]
    shows with its first update. *)
Definition eventsOf (worker : Z) (op : CollectorOp) : list Event :=
  match op with
  | AddTotalValidations => [EvRecordValidation worker]
  | AddTotalRequests => [EvRecordResponse worker]
  | _ => []
  end.

Record RunState : Type := {
  pc : EnginePC;
  ctxDone : bool;
  timerFired : bool;
  workers : list (Worker * WorkerPC);
  collector : Metrics.Collector;
  trace : list Event
}.

(** [NewLoadEngine]: as many workers as configured, or one per CPU.
    [make([]*Worker, workers)] panics on a negative length, which is
    [None]: no engine is built and nothing runs. *)
Definition newWorkers (numCPU : Z) (e : LoadEngine) : option (list Worker) :=
  let workers := if Config.Workers (config e) =? 0 then numCPU
                 else Config.Workers (config e) in
  if workers <? 0 then None
  else Some (map (fun i => NewWorker (Z.of_nat i) e)
               (seq 0 (Z.to_nat workers))).

Definition initial (ws : list Worker) : RunState :=
  {| pc := AtCollectorStart;
     ctxDone := false;
     timerFired := false;
     workers := map (fun w => (w, NotStarted)) ws;
     collector := Metrics.NewCollector;
     trace := [] |}.

Definition launch (wp : Worker * WorkerPC) : Worker * WorkerPC :=
  (fst wp, AtLoopHead).

Definition allTerminated (ws : list (Worker * WorkerPC)) : Prop :=
  Forall (fun wp => snd wp = Terminated) ws.

(** The test of the request cap in [Worker.Run]. *)
Definition atCap (w : Worker) : bool :=
  (0 <? Config.MaxRequests (GetConfig (engine w)))
  && (Config.MaxRequests (GetConfig (engine w)) <=? requests w).

(** [w.requests++] *)
Definition counting (w : Worker) : Worker :=
  {| id := id w; engine := engine w; requests := add64 (requests w) 1 |}.

(** One step of some goroutine, of the context or of the timer.

    The engine's [select] has two cases: the context is done, or the
    timer of [time.After(Duration + 5s)] has fired.  No time is kept
    here: the context may become done and the timer may fire at any
    moment, which covers the run whose [Duration + 5s] wraps around to
    a negative number, where the timer fires at once.

    A turn of the worker's loop is taken in the pieces that other
    goroutines can come between: the [select]; the test of the request
    cap, the pacing sleep and the increment of the worker's counter at
    the head of [executeRequest]; the return of the protocol client
    with a response, which is validated; and then the updates of the
    collector one by one. *)
Inductive step : RunState -> RunState -> Prop :=
| step_cancel st :
    step st
      {| pc := pc st; ctxDone := true; timerFired := timerFired st;
         workers := workers st;
         collector := collector st; trace := trace st |}
| step_collector_start st now :
    pc st = AtCollectorStart ->
    step st
      {| pc := AtSpawn; ctxDone := ctxDone st; timerFired := timerFired st;
         workers := workers st;
         collector := Metrics.Start now (collector st);
         trace := trace st ++ [EvCollectorStart] |}
| step_spawn st :
    pc st = AtSpawn ->
    step st
      {| pc := AtSelect; ctxDone := ctxDone st; timerFired := timerFired st;
         workers := map launch (workers st);
         collector := collector st; trace := trace st |}
| step_timer st :
    pc st = AtSelect ->
    step st
      {| pc := pc st; ctxDone := ctxDone st; timerFired := true;
         workers := workers st;
         collector := collector st; trace := trace st |}
| step_select st :
    pc st = AtSelect -> ctxDone st = true \/ timerFired st = true ->
    step st
      {| pc := AtCollectorStop; ctxDone := ctxDone st;
         timerFired := timerFired st;
         workers := workers st;
         collector := collector st; trace := trace st |}
| step_collector_stop st now :
    pc st = AtCollectorStop ->
    step st
      {| pc := AtWait; ctxDone := ctxDone st; timerFired := timerFired st;
         workers := workers st;
         collector := Metrics.Stop now (collector st);
         trace := trace st ++ [EvCollectorStop] |}
| step_wait st :
    pc st = AtWait -> allTerminated (workers st) ->
    step st
      {| pc := AtClose; ctxDone := ctxDone st; timerFired := timerFired st;
         workers := workers st;
         collector := collector st;
         trace := trace st ++ [EvWorkersJoined] |}
| step_close st :
    pc st = AtClose ->
    step st
      {| pc := AtGetSummary; ctxDone := ctxDone st;
         timerFired := timerFired st;
         workers := workers st; collector := collector st;
         trace := trace st ++ [EvProtocolClose] |}
| step_get_summary st :
    pc st = AtGetSummary ->
    step st
      {| pc := Finished; ctxDone := ctxDone st; timerFired := timerFired st;
         workers := workers st; collector := collector st;
         trace := trace st ++ [EvGetSummary] |}
| step_worker_select st (i : nat) w :
    workers st !! i = Some (w, AtLoopHead) ->
    step st
      {| pc := pc st; ctxDone := ctxDone st; timerFired := timerFired st;
         workers :=
           <[i := (w, if ctxDone st then Terminated else InLoopBody)]>
             (workers st);
         collector := collector st; trace := trace st |}
| step_worker_issue st (i : nat) w :
    workers st !! i = Some (w, InLoopBody) ->
    step st
      {| pc := pc st; ctxDone := ctxDone st; timerFired := timerFired st;
         workers :=
           <[i := if atCap w then (w, Terminated)
                  else (counting w, InFlight)]> (workers st);
         collector := collector st; trace := trace st |}
| step_worker_response st (i : nat) w resp :
    workers st !! i = Some (w, InFlight) ->
    step st
      {| pc := pc st; ctxDone := ctxDone st; timerFired := timerFired st;
         workers :=
           <[i := (w, Recording (recordOps (engine w) resp))]> (workers st);
         collector := collector st; trace := trace st |}
| step_worker_update st (i : nat) w op ops :
    workers st !! i = Some (w, Recording (op :: ops)) ->
    step st
      {| pc := pc st; ctxDone := ctxDone st; timerFired := timerFired st;
         workers := <[i := (w, Recording ops)]> (workers st);
         collector := perform op (collector st);
         trace := trace st ++ eventsOf (id w) op |}
| step_worker_recorded st (i : nat) w :
    workers st !! i = Some (w, Recording []) ->
    step st
      {| pc := pc st; ctxDone := ctxDone st; timerFired := timerFired st;
         workers := <[i := (w, AtLoopHead)]> (workers st);
         collector := collector st; trace := trace st |}.

(** States reachable from the start of a run of the engine that
    [NewLoadEngine] builds. *)
Inductive reachable (e : LoadEngine) (numCPU : Z) : RunState -> Prop :=
| reachable_initial ws :
    newWorkers numCPU e = Some ws -> reachable e numCPU (initial ws)
| reachable_step st st' :
    reachable e numCPU st -> step st st' -> reachable e numCPU st'.

End Requests.

End Engine.

(** * Sample inputs *)

Module Examples.

Import Go.

(** A response with the given status, latency and error. *)
Definition response (status latency : Z) (err : option string)
  : Protocols.Response :=
  {| Protocols.StatusCode := status;
     Protocols.Headers := ∅;
     Protocols.Body := "";
     Protocols.ResponseTime := latency;
     Protocols.ContentLength := 0;
     Protocols.Error := err |}.

Definition ms (n : Z) : Z := n * Millisecond.

(** A run configuration with the defaults of the command line (ten
    virtual users, no request cap, no inter-request delay, one worker
    per CPU) and the given pattern and durations. *)
Definition runConfig (pattern : string) (duration rampUp rampDown : Z)
  : Config.LoadTestConfig :=
  {| Config.VirtualUsers := 10;
     Config.Duration := duration;
     Config.RampUp := rampUp;
     Config.RampDown := rampDown;
     Config.Delay := 0;
     Config.MaxRequests := 0;
     Config.Pattern := pattern;
     Config.Workers := 0 |}.

Definition getHealth : Config.Scenario :=
  {| Config.Method := "GET";
     Config.URL := "/health";
     Config.BaseURL := "http://localhost:8080";
     Config.ScenarioHeaders := ∅;
     Config.QueryParams := [];
     Config.Body := None;
     Config.Timeout := "";
     Config.Validation := None |}.

Definition engineFor (cfg : Config.LoadTestConfig) : Engine.LoadEngine :=
  {| Engine.config := cfg;
     Engine.scenario := getHealth;
     Engine.validator := Config.GetValidationConfig getHealth |}.

(** Library routines that reject every duration and pattern; the sample
    scenario configures none. *)
Definition noLib : Lib :=
  {| time_ParseDuration := fun _ => None;
     regexp_MatchString := fun _ _ => None;
     gjson_Exists := fun _ _ => false;
     fmt_d := fun _ => "";
     fmt_v_ints := fun _ => "";
     fmt_v_duration := fun _ => "" |}.

End Examples.

Module Strings.

(** [strings.ReplaceAll(s, old, new)] for a non-empty [old], which is what
    every caller below passes: the occurrences of [old] are replaced from
    left to right, without overlap.  [skip] counts the bytes of the
    occurrence just replaced that are still to be passed over. *)
Fixpoint replaceFrom (skip : nat) (s old new : string) : string :=
  match s with
  | EmptyString => ""
  | String c s' =>
      match skip with
      | S k => replaceFrom k s' old new
      | O =>
          if String.prefix old s
          then new +:+ replaceFrom (Nat.pred (String.length old)) s' old new
          else String c (replaceFrom 0 s' old new)
      end
  end.

Definition ReplaceAll (s old new : string) : string := replaceFrom 0 s old new.

(** [strings.SplitN(s, "=", 2)]: the text before and the text after the
    first ["="]; [None] when [s] holds none, the slice then having a single
    element. *)
Fixpoint cutEquals (s : string) : option (string * string) :=
  match s with
  | EmptyString => None
  | String c s' =>
      if String.eqb (String c EmptyString) "=" then Some (EmptyString, s')
      else match cutEquals s' with
           | None => None
           | Some (k, v) => Some (String c k, v)
           end
  end.

(** [s[:n]], which panics ([None]) when [n] is negative or exceeds
    [len(s)]. *)
Definition sliceTo (s : string) (n : Z) : option string :=
  if (n <? 0) || (Z.of_nat (String.length s) <? n) then None
  else Some (String.substring 0 (Z.to_nat n) s).

End Strings.


(** ** internal/config: the environment (environment.go) *)

Module Environment.

(** The process environment as the program reads it: [os.Getenv], which
    yields the empty string for a name that is not set, and
    [os.Environ], the list of ["NAME=value"] entries. *)
Record OS : Type := {
  Getenv : string -> string;
  Environ : list string
}.

Record Environment : Type := {
  variables : gmap string string
}.

Definition NewEnvironment : Environment := {| variables := ∅ |}.

(** The loop of [LoadFromFile] that copies the process environment. *)
Definition loadAll (environ : list string) (vars : gmap string string)
  : gmap string string :=
  foldl (fun vars env =>
           match Strings.cutEquals env with
           | Some (name, value) => <[name := value]> vars
           | None => vars
           end) vars environ.

(** [LoadFromFile]: [exists_] tells whether [os.Stat] finds the file,
    [loadError] is what [godotenv.Load] returns, [os] the process
    environment after it. *)
Definition LoadFromFile (exists_ : bool) (loadError : option string)
  (os : OS) (filename : string) (e : Environment)
  : option string * Environment :=
  if negb exists_
  then (Some ("environment file not found: " +:+ filename), e)
  else match loadError with
       | Some err => (Some ("failed to load environment file: " +:+ err), e)
       | None => (None, {| variables := loadAll (Environ os) (variables e) |})
       end.

Definition Get (os : OS) (e : Environment) (key : string) : string * bool :=
  match variables e !! key with
  | Some value => (value, true)
  | None =>
      let value := Getenv os key in
      if negb (String.eqb value "") then (value, true) else ("", false)
  end.

Definition Set_ (key value : string) (e : Environment) : Environment :=
  {| variables := <[key := value]> (variables e) |}.

(** [fmt.Sprintf("{{env.%s}}", key)] *)
Definition pattern (key : string) : string := "{{env." +:+ key +:+ "}}".

(** The two loops of [ExpandVariables]: over the custom variables, in
    the order in which the runtime ranges over the map this time, and
    over the entries of the process environment. *)
Definition expandCustom (entries : list (string * string)) (result : string)
  : string :=
  foldl (fun result kv =>
           Strings.ReplaceAll result (pattern (fst kv)) (snd kv))
    result entries.

Definition expandSystem (environ : list string) (result : string) : string :=
  foldl (fun result env =>
           match Strings.cutEquals env with
           | Some (name, value) =>
               Strings.ReplaceAll result (pattern name) value
           | None => result
           end) result environ.

Definition ExpandVariables (os : OS) (entries : list (string * string))
  (template : string) : string :=
  expandSystem (Environ os) (expandCustom entries template).

End Environment.

(** ** pkg/utils: string helpers *)

Module StringUtils.

Import Go.

(** [ExpandTemplate]; [entries] lists the variables in the order ranged
    over. *)
Definition ExpandTemplate (template : string)
  (entries : list (string * string)) : string :=
  foldl (fun result kv =>
           Strings.ReplaceAll result ("{{" +:+ fst kv +:+ "}}") (snd kv))
    template entries.

Fixpoint ContainsAny (s : string) (substrings : list string) : bool :=
  match substrings with
  | [] => false
  | substr :: rest =>
      if strings_Contains s substr then true else ContainsAny s rest
  end.

Fixpoint ContainsAll (s : string) (substrings : list string) : bool :=
  match substrings with
  | [] => true
  | substr :: rest =>
      if negb (strings_Contains s substr) then false else ContainsAll s rest
  end.

(** [TruncateString]; the slice expression panics, which is [None], when
    [maxLen - 3] is negative. *)
Definition TruncateString (s : string) (maxLen : Z) : option string :=
  if Z.of_nat (String.length s) <=? maxLen then Some s
  else head ← Strings.sliceTo s (sub64 maxLen 3); Some (head +:+ "...").

End StringUtils.

(** ** internal/config: validation of a scenario (scenario.go) *)

Module ConfigRules.

Import Go.

Record RetryConfig : Type := {
  Attempts : Z;
  Backoff : string;
  MaxDelay : string
}.

(** A scenario as [LoadScenarioFromFile] decodes it: the fields of
    [Config.Scenario] with the name and the retry settings, which the
    engine does not read. *)
Record Scenario : Type := {
  Name : string;
  Retry : option RetryConfig;
  Fields : Config.Scenario
}.

Definition validMethods : list string :=
  ["GET"; "POST"; "PUT"; "DELETE"; "PATCH"; "HEAD"; "OPTIONS"].

Definition validBackoffs : list string := ["linear"; "exponential"; "fixed"].

(** [m[key]] on a map whose entries are all [true]. *)
Definition listed (m : list string) (key : string) : bool :=
  existsb (String.eqb key) m.

Section Rules.

Context `{Lib}.

Definition RetryConfig_Validate (r : RetryConfig) : option string :=
  if Attempts r <? 0 then Some "retry attempts must be non-negative"
  else if 10 <? Attempts r then Some "retry attempts cannot exceed 10"
  else if negb (String.eqb (Backoff r) "")
          && negb (listed validBackoffs (Backoff r))
  then Some ("invalid backoff strategy: " +:+ Backoff r)
  else if negb (String.eqb (MaxDelay r) "") then
    match time_ParseDuration (MaxDelay r) with
    | None => Some ("invalid max_delay format: " +:+ MaxDelay r)
    | Some _ => None
    end
  else None.

(** The loop over [v.StatusCodes]. *)
Fixpoint statusCodesLoop (codes : list Z) : option string :=
  match codes with
  | [] => None
  | code :: rest =>
      if (code <? 100) || (599 <? code)
      then Some ("invalid status code: " +:+ fmt_d code)
      else statusCodesLoop rest
  end.

Definition ValidationConfig_Validate (v : Config.ValidationConfig)
  : option string :=
  match statusCodesLoop (Config.StatusCodes v) with
  | Some err => Some err
  | None =>
      let timeError :=
        if negb (String.eqb (Config.ResponseTimeMax v) "") then
          match time_ParseDuration (Config.ResponseTimeMax v) with
          | None => Some ("invalid response_time_max format: "
                          +:+ Config.ResponseTimeMax v)
          | Some _ => None
          end
        else None in
      match timeError with
      | Some err => Some err
      | None =>
          if Config.MinResponseSize v <? 0
          then Some "min_response_size must be non-negative"
          else if (0 <? Config.MaxResponseSize v)
                  && (Config.MaxResponseSize v <? Config.MinResponseSize v)
          then Some "min_response_size cannot be greater than max_response_size"
          else None
      end
  end.

Definition Validate (s : Scenario) : option string :=
  let f := Fields s in
  if String.eqb (Name s) "" then Some "scenario name is required"
  else if String.eqb (Config.Method f) ""
  then Some "scenario method is required"
  else if String.eqb (Config.URL f) "" then Some "scenario URL is required"
  else if String.eqb (Config.BaseURL f) ""
  then Some "scenario base_url is required"
  else if negb (listed validMethods (Config.Method f))
  then Some ("invalid HTTP method: " +:+ Config.Method f)
  else
    let timeoutError :=
      if negb (String.eqb (Config.Timeout f) "") then
        match time_ParseDuration (Config.Timeout f) with
        | None => Some ("invalid timeout format: " +:+ Config.Timeout f)
        | Some _ => None
        end
      else None in
    match timeoutError with
    | Some err => Some err
    | None =>
        let retryError :=
          match Retry s with
          | Some r =>
              match RetryConfig_Validate r with
              | Some err =>
                  Some ("retry config validation failed: " +:+ err)
              | None => None
              end
          | None => None
          end in
        match retryError with
        | Some err => Some err
        | None =>
            match Config.Validation f with
            | Some v =>
                match ValidationConfig_Validate v with
                | Some err =>
                    Some ("validation config validation failed: " +:+ err)
                | None => None
                end
            | None => None
            end
        end
    end.

(** [LoadScenarioFromFile], given what reading and decoding the file
    yield. *)
Definition LoadScenarioFromFile (readError unmarshalError : option string)
  (decoded : Scenario) : option Scenario * option string :=
  match readError with
  | Some err => (None, Some ("failed to read scenario file: " +:+ err))
  | None =>
      match unmarshalError with
      | Some err => (None, Some ("failed to parse scenario JSON: " +:+ err))
      | None =>
          match Validate decoded with
          | Some err => (None, Some ("scenario validation failed: " +:+ err))
          | None => (Some decoded, None)
          end
      end
  end.

End Rules.

Definition GetRetryConfig (s : Scenario) : RetryConfig :=
  match Retry s with
  | None => {| Attempts := 3; Backoff := "exponential"; MaxDelay := "5s" |}
  | Some r => r
  end.

End ConfigRules.

(** ** internal/utils: averages *)

Module TimeUtils.

Import Go.

(** [CalculateAverage]: the running total wraps around as an int64 does;
    the division truncates toward zero. *)
Definition CalculateAverage (durations : list Z) : Z :=
  match durations with
  | [] => 0
  | _ =>
      let total := foldl (fun total d => add64 total d) 0 durations in
      quot64 total (Z.of_nat (length durations))
  end.

End TimeUtils.

(** ** internal/validation: overrides from the command line *)

Module Overrides.

Import Go.

Record ValidationOverrides : Type := {
  ExpectStatus : list Z;
  ExpectResponseTime : Z;
  ExpectBody : string;
  ExpectBodyNot : string
}.

Section WithLib.

Context `{Lib}.

(** The temporary rule set of [ValidateWithOverrides];
    [time.Duration.String] prints as [%v] does. *)
Definition tempConfig (config : Config.ValidationConfig)
  (overrides : ValidationOverrides) : Config.ValidationConfig :=
  {| Config.StatusCodes :=
       if (0 <? length (ExpectStatus overrides))%nat
       then ExpectStatus overrides else Config.StatusCodes config;
     Config.ResponseTimeMax :=
       if 0 <? ExpectResponseTime overrides
       then fmt_v_duration (ExpectResponseTime overrides)
       else Config.ResponseTimeMax config;
     Config.BodyContains :=
       if negb (String.eqb (ExpectBody overrides) "")
       then [ExpectBody overrides] else Config.BodyContains config;
     Config.BodyNotContains :=
       if negb (String.eqb (ExpectBodyNot overrides) "")
       then [ExpectBodyNot overrides] else Config.BodyNotContains config;
     Config.BodyRegex := Config.BodyRegex config;
     Config.BodyJSONPath := Config.BodyJSONPath config;
     Config.Headers := Config.Headers config;
     Config.MinResponseSize := Config.MinResponseSize config;
     Config.MaxResponseSize := Config.MaxResponseSize config |}.

Definition ValidateWithOverrides (config : Config.ValidationConfig)
  (resp : Protocols.Response) (overrides : ValidationOverrides)
  : Validation.ValidationResult :=
  Validation.Validate (tempConfig config overrides) resp.

End WithLib.

End Overrides.

(** ** internal/reporting *)

Module Reporting.

Import Go.

Record ReportValidationResults : Type := {
  StatusCodeValidation : string;
  ResponseTimeValidation : string;
  BodyValidation : string;
  FailedValidations : Z
}.

(** [formatValidationResults]; a nil pointer is [None]. *)
Definition formatValidationResults (results : option Metrics.ValidationResults)
  : ReportValidationResults :=
  match results with
  | None =>
      {| StatusCodeValidation := ""; ResponseTimeValidation := "";
         BodyValidation := ""; FailedValidations := 0 |}
  | Some results =>
      let statusCodeValidation := "passed" in
      let responseTimeValidation := "passed" in
      let bodyValidation :=
        if 0 <? Metrics.FailedValidations results then "failed"
        else "passed" in
      {| StatusCodeValidation := statusCodeValidation;
         ResponseTimeValidation := responseTimeValidation;
         BodyValidation := bodyValidation;
         FailedValidations := Metrics.FailedValidations results |}
  end.

(** [strings.Repeat(s, count)], which panics on a negative count. *)
Definition strings_Repeat (s : string) (count : Z) : option string :=
  if count <? 0 then None
  else Some (Nat.iter (Z.to_nat count) (fun acc => s +:+ acc) "").

Section LiveReport.

Context `{Lib}.

(** The loop of [updateDisplay] over the status codes of the summary,
    [entries] listing them in the order ranged over: at most six are
    written. *)
Fixpoint statusLoop (entries : list (Z * Z)) (count : Z) (statusLine : string)
  : string :=
  match entries with
  | [] => statusLine
  | (code, num) :: rest =>
      let statusLine :=
        if 0 <? count then statusLine +:+ "  │  " else statusLine in
      let statusLine := statusLine +:+ (fmt_d code +:+ ": " +:+ fmt_d num) in
      let count := count + 1 in
      if 6 <=? count then statusLine else statusLoop rest count statusLine
  end.

(** The line of status codes that [updateDisplay] prints; [None] when
    padding it panics. *)
Definition statusRow (entries : list (Z * Z)) : option string :=
  let statusLine := statusLoop entries 0 "│  " in
  padding ← strings_Repeat " " (60 - Z.of_nat (String.length statusLine));
  Some (statusLine +:+ padding +:+ "│").

End LiveReport.

End Reporting.

(** ** internal/metrics: the rates of the summary; cli: the exit status *)

Module Rates.

Import Go.

(** [time.Duration.Seconds] *)
Definition Duration_Seconds (d : Z) : float :=
  let sec := Z.quot d Second in
  let nsec := Z.rem d Second in
  (float64_of_int64 sec + float64_of_int64 nsec / 1e9)%float.

Record Rates : Type := {
  SuccessRate : float;
  RequestsPerSecond : float;
  BytesPerSecond : float
}.

(** The three rates that [GetSummary] derives from the counters and the
    two instants. *)
Definition rates (c : Metrics.Collector) : Rates :=
  let successRate :=
    if 0 <? Metrics.totalRequests c
    then (float64_of_int64 (Metrics.successfulRequests c)
          / float64_of_int64 (Metrics.totalRequests c) * 100)%float
    else 0%float in
  let throughput :=
    match Metrics.startTime c, Metrics.endTime c with
    | Some startTime, Some endTime =>
        let duration := time_Sub endTime startTime in
        if 0 <? duration
        then ((float64_of_int64 (Metrics.totalRequests c)
               / Duration_Seconds duration)%float,
              (float64_of_int64 (Metrics.totalBytes c)
               / Duration_Seconds duration)%float)
        else (0%float, 0%float)
    | _, _ => (0%float, 0%float)
    end in
  {| SuccessRate := successRate;
     RequestsPerSecond := fst throughput;
     BytesPerSecond := snd throughput |}.

(** The end of [runLoadTest]: the process exits with status 2 when the
    success rate is below 95, and returns normally, status 0,
    otherwise. *)
Definition exitStatus (successRate : float) : Z :=
  if (successRate <? 95.0)%float then 2 else 0.

End Rates.

(** * Further sample inputs *)

Module Samples.

Import Go.

(** Decimal printing of an integer, as [%d] does it. *)
Definition digit (n : Z) : Ascii.ascii :=
  Ascii.ascii_of_nat (48 + Z.to_nat (n mod 10)).

Fixpoint decimal (fuel : nat) (n : Z) (acc : string) : string :=
  let acc := String (digit n) acc in
  match fuel with
  | O => acc
  | S fuel => if n <? 10 then acc else decimal fuel (n / 10) acc
  end.

Definition itoa (z : Z) : string :=
  if z <? 0 then "-" +:+ decimal 20 (- z) "" else decimal 20 z "".

(** Library routines that print integers in decimal and know the one
    duration of the samples, two seconds. *)
Definition printingLib : Lib :=
  {| time_ParseDuration :=
       fun s => if String.eqb s "2s" then Some (2 * Second) else None;
     regexp_MatchString := fun _ _ => None;
     gjson_Exists := fun _ _ => false;
     fmt_d := itoa;
     fmt_v_ints := fun l => "[" +:+ strings_Join (map itoa l) " " +:+ "]";
     fmt_v_duration :=
       fun d => if d =? 2 * Second then "2s" else itoa d +:+ "ns" |}.

Definition sampleOS : Environment.OS :=
  {| Environment.Getenv :=
       fun key => if String.eqb key "HOME" then "/root" else "";
     Environment.Environ := ["HOME=/root"; "LANG=C"] |}.

(** The scenario of the examples as its file declares it. *)
Definition healthScenario : ConfigRules.Scenario :=
  {| ConfigRules.Name := "health";
     ConfigRules.Retry := None;
     ConfigRules.Fields := Examples.getHealth |}.

(** Rules that ask for the text [ok] and forbid the text [error]. *)
Definition bodyRules : Config.ValidationConfig :=
  {| Config.StatusCodes := [200]; Config.ResponseTimeMax := "";
     Config.BodyContains := ["ok"]; Config.BodyNotContains := ["error"];
     Config.BodyRegex := ""; Config.BodyJSONPath := "";
     Config.Headers := []; Config.MinResponseSize := 0;
     Config.MaxResponseSize := 0 |}.

(** An exchange that is answered with the given status and body after the
    given time. *)
Definition answered (statusCode : Z) (body : string) (after : Z)
  : HTTP.Exchange :=
  {| HTTP.newRequestError := None;
     HTTP.sinceStartEarly := 0;
     HTTP.doResult :=
       inl {| HTTP.respStatusCode := statusCode; HTTP.respHeader := ∅ |};
     HTTP.sinceStart := after;
     HTTP.readAllResult := inl body |}.

(** An exchange that breaks in the transport. *)
Definition refused (after : Z) : HTTP.Exchange :=
  {| HTTP.newRequestError := None;
     HTTP.sinceStartEarly := 0;
     HTTP.doResult := inr "connection refused";
     HTTP.sinceStart := after;
     HTTP.readAllResult := inl "" |}.

Definition clientConfig : HTTP.Config :=
  {| HTTP.Timeout := 30 * Second; HTTP.KeepAlive := true;
     HTTP.MaxConnections := 100; HTTP.TLSSkipVerify := false;
     HTTP.Proxy := ""; HTTP.UserAgent := "GoTsunami/1.0" |}.

Definition healthRequest : Protocols.Request :=
  {| Protocols.Method := "GET";
     Protocols.URL := "http://localhost:8080/health";
     Protocols.ReqHeaders := ∅; Protocols.ReqBody := "";
     Protocols.Timeout := 30 * Second; Protocols.QueryParams := [] |}.

End Samples.

(** * Properties *)

(** ** Signed 64-bit arithmetic *)

Section Int64Facts.

Import Go.

Lemma wrap64_small z : MinInt64 <= z <= MaxInt64 -> wrap64 z = z.
Proof.
  unfold MinInt64, MaxInt64, wrap64. intros Hz.
  rewrite Z.mod_small; lia.
Qed.

Lemma wrap64_idemp_add a b : wrap64 (wrap64 a + b) = wrap64 (a + b).
Proof.
  unfold wrap64. f_equal.
  replace ((a + 2 ^ 63) mod 2 ^ 64 - 2 ^ 63 + b + 2 ^ 63)
    with ((a + 2 ^ 63) mod 2 ^ 64 + b) by lia.
  rewrite Zplus_mod_idemp_l. f_equal. lia.
Qed.

Lemma wrap64_add_both a b : wrap64 (wrap64 a + wrap64 b) = wrap64 (a + b).
Proof.
  rewrite wrap64_idemp_add, (Z.add_comm a), wrap64_idemp_add.
  f_equal. lia.
Qed.

Lemma add64_small a b :
  MinInt64 <= a + b <= MaxInt64 -> add64 a b = a + b.
Proof. apply wrap64_small. Qed.

End Int64Facts.

(** ** The collector's counters *)

Section CollectorFacts.

Import Go Metrics.

(** Number of responses in [rs] satisfying [f]. *)
Definition countIf (f : Protocols.Response -> bool)
  (rs : list Protocols.Response) : Z :=
  Z.of_nat (length (List.filter f rs)).

Definition isSuccess (r : Protocols.Response) : bool := negb (isFailure r).

Definition hasError (r : Protocols.Response) : bool :=
  bool_decide (Protocols.Error r ≠ None).

Lemma countIf_snoc f rs r :
  countIf f (rs ++ [r]) = countIf f rs + (if f r then 1 else 0).
Proof.
  unfold countIf. rewrite List.filter_app, length_app. simpl.
  destruct (f r); simpl; lia.
Qed.

Lemma countIf_nonneg f rs : 0 <= countIf f rs.
Proof. unfold countIf. lia. Qed.

Lemma countIf_split rs :
  countIf isFailure rs + countIf isSuccess rs = Z.of_nat (length rs).
Proof.
  induction rs as [|r rs IH] using rev_ind; [reflexivity|].
  rewrite !countIf_snoc, length_app. simpl.
  replace (isSuccess r) with (negb (isFailure r)) by reflexivity.
  destruct (isFailure r); simpl; lia.
Qed.

Lemma hasError_isFailure r : hasError r = true -> isFailure r = true.
Proof. unfold isFailure, hasError. intros ->. reflexivity. Qed.

Lemma countIf_hasError_le rs : countIf hasError rs <= countIf isFailure rs.
Proof.
  induction rs as [|r rs IH] using rev_ind; [reflexivity|].
  rewrite !countIf_snoc. pose proof (hasError_isFailure r).
  destruct (hasError r), (isFailure r); try lia.
  all: discriminate (H eq_refl).
Qed.

Lemma isFailure_spec r :
  isFailure r = true <->
  Protocols.Error r <> None \/ 400 <= Protocols.StatusCode r.
Proof.
  unfold isFailure. rewrite orb_true_iff, bool_decide_eq_true, Z.leb_le.
  reflexivity.
Qed.

Lemma recordAll_snoc rs r c :
  recordAll (rs ++ [r]) c = RecordResponse r (recordAll rs c).
Proof. unfold recordAll. rewrite foldl_app. reflexivity. Qed.

(** What one call does to the three request counters. *)
Lemma RecordResponse_counters r c :
  totalRequests (RecordResponse r c) = add64 (totalRequests c) 1
  /\ failedRequests (RecordResponse r c)
     = (if isFailure r then add64 (failedRequests c) 1
        else failedRequests c)
  /\ successfulRequests (RecordResponse r c)
     = (if isFailure r then successfulRequests c
        else add64 (successfulRequests c) 1).
Proof.
  unfold RecordResponse.
  destruct (isFailure r); [destruct (Protocols.Error r)|]; simpl; auto.
Qed.

(** The counters after a sequence of calls, in the arithmetic of the
    machine. *)
Lemma recordAll_counters rs :
  let c := recordAll rs NewCollector in
  totalRequests c = wrap64 (Z.of_nat (length rs))
  /\ failedRequests c = wrap64 (countIf isFailure rs)
  /\ successfulRequests c = wrap64 (countIf isSuccess rs).
Proof.
  induction rs as [|r rs IH] using rev_ind; [repeat split|].
  cbn zeta in *. destruct IH as (Ht & Hf & Hs).
  rewrite recordAll_snoc.
  destruct (RecordResponse_counters r (recordAll rs NewCollector))
    as (-> & -> & ->).
  rewrite Ht, Hf, Hs, !countIf_snoc, length_app. unfold add64.
  replace (isSuccess r) with (negb (isFailure r)) by reflexivity.
  rewrite wrap64_idemp_add. simpl.
  split; [f_equal; lia|].
  destruct (isFailure r); simpl; rewrite ?wrap64_idemp_add, ?Z.add_0_r; auto.
Qed.

(** Whatever the number of calls, the total is the sum of the two other
    counters in the arithmetic of the machine. *)
Lemma recordAll_total_is_sum rs :
  let c := recordAll rs NewCollector in
  totalRequests c = add64 (successfulRequests c) (failedRequests c).
Proof.
  cbv zeta. destruct (recordAll_counters rs) as (-> & -> & ->).
  unfold add64. rewrite wrap64_add_both, <- (countIf_split rs).
  f_equal. lia.
Qed.

(** The same counters in plain arithmetic, as long as the number of calls
    fits the counters. *)
Lemma recordAll_exact_counters rs :
  Z.of_nat (length rs) <= MaxInt64 ->
  let c := recordAll rs NewCollector in
  totalRequests c = Z.of_nat (length rs)
  /\ failedRequests c = countIf isFailure rs
  /\ successfulRequests c = countIf isSuccess rs.
Proof.
  intros Hlen c.
  destruct (recordAll_counters rs) as (Ht & Hf & Hs). fold c in Ht, Hf, Hs.
  pose proof (countIf_split rs).
  pose proof (countIf_nonneg isFailure rs).
  pose proof (countIf_nonneg isSuccess rs).
  assert (Hm : MinInt64 = -9223372036854775808) by reflexivity.
  rewrite wrap64_small in Ht, Hf, Hs by lia. done.
Qed.

End CollectorFacts.

(** ** The collector's error buckets *)

Section ErrorBuckets.

Import Go Metrics.

(** Sum of the counts over all buckets of a keyed distribution. *)
Definition bucketTotal (m : gmap string Z) : Z :=
  map_fold (fun _ v acc => v + acc) 0 m.

Definition nonnegBuckets (m : gmap string Z) : Prop :=
  map_Forall (fun _ v => 0 <= v) m.

Lemma bucketTotal_empty : bucketTotal ∅ = 0.
Proof. apply map_fold_empty. Qed.

Lemma bucketTotal_delete (m : gmap string Z) k x :
  m !! k = Some x -> bucketTotal m = x + bucketTotal (delete k m).
Proof. intros Hk. apply (map_fold_delete_L _ _ k x m); [intros; lia|done]. Qed.

Lemma bucketTotal_insert_fresh (m : gmap string Z) k v :
  m !! k = None -> bucketTotal (<[k := v]> m) = v + bucketTotal m.
Proof. intros Hk. apply map_fold_insert_L; [intros; lia|done]. Qed.

Lemma bucketTotal_insert (m : gmap string Z) k v :
  bucketTotal (<[k := v]> m) = bucketTotal m - default 0 (m !! k) + v.
Proof.
  destruct (m !! k) as [x|] eqn:Hk; simpl.
  - rewrite (bucketTotal_delete m k x Hk), <- insert_delete_eq.
    rewrite bucketTotal_insert_fresh by apply lookup_delete_eq. lia.
  - rewrite bucketTotal_insert_fresh by done. lia.
Qed.

Lemma bucketTotal_nonneg (m : gmap string Z) :
  nonnegBuckets m -> 0 <= bucketTotal m.
Proof.
  induction m as [|k v m Hk IH] using map_ind; intros Hm.
  - rewrite bucketTotal_empty. lia.
  - rewrite bucketTotal_insert_fresh by done.
    apply map_Forall_insert in Hm as [Hv Hm]; [|done].
    specialize (IH Hm). lia.
Qed.

Lemma bucket_le_total (m : gmap string Z) k :
  nonnegBuckets m -> 0 <= default 0 (m !! k) <= bucketTotal m.
Proof.
  intros Hm. destruct (m !! k) as [x|] eqn:Hk; simpl.
  - pose proof (Hm k x Hk) as Hx. simpl in Hx.
    rewrite (bucketTotal_delete m k x Hk).
    assert (0 <= bucketTotal (delete k m))
      by (apply bucketTotal_nonneg, map_Forall_delete, Hm).
    lia.
  - split; [lia|]. by apply bucketTotal_nonneg.
Qed.

(** What one call does to the error buckets: only a non-nil error is
    counted, under its own text. *)
Lemma RecordResponse_errors r c :
  errors (RecordResponse r c)
  = match Protocols.Error r with
    | Some msg => incr msg (errors c)
    | None => errors c
    end.
Proof.
  unfold RecordResponse, isFailure.
  destruct (Protocols.Error r) as [msg|] eqn:He; simpl.
  - reflexivity.
  - destruct (400 <=? Protocols.StatusCode r); reflexivity.
Qed.

Lemma recordAll_errors rs :
  Z.of_nat (length rs) <= MaxInt64 ->
  let c := recordAll rs NewCollector in
  bucketTotal (errors c) = countIf hasError rs /\ nonnegBuckets (errors c).
Proof.
  induction rs as [|r rs IH] using rev_ind; intros Hlen; cbn zeta.
  - split; [apply bucketTotal_empty|apply map_Forall_empty].
  - rewrite length_app in Hlen. simpl in Hlen.
    destruct IH as [IHt IHn]; [lia|].
    rewrite recordAll_snoc, RecordResponse_errors, countIf_snoc.
    unfold hasError at 2.
    destruct (Protocols.Error r) as [msg|] eqn:He.
    + rewrite bool_decide_eq_true_2 by done.
      set (m := errors (recordAll rs NewCollector)) in *.
      pose proof (bucket_le_total m msg IHn) as Hb.
      assert (countIf hasError rs <= Z.of_nat (length rs)).
      { pose proof (countIf_hasError_le rs).
        pose proof (countIf_split rs). pose proof (countIf_nonneg isSuccess rs).
        lia. }
      unfold incr. rewrite add64_small by (unfold MinInt64, MaxInt64 in *; lia).
      split.
      * rewrite bucketTotal_insert. lia.
      * apply map_Forall_insert_2; [lia|done].
    + rewrite bool_decide_eq_false_2 by (intros Hn; by apply Hn).
      split; [lia|done].
Qed.

End ErrorBuckets.

(** ** Claims about the collector's counters *)

Section CollectorClaims.

Import Go Metrics Examples.

(** C4. After any sequence [rs] of [RecordResponse] calls on a fresh
    collector, and after one more call with [r], the total count is the
    sum of the success and failure counts and equals the number of
    calls; the call with [r] adds exactly 1 to the total and exactly 1
    to exactly one of the two other counters, the failure counter
    precisely when [r] carries an error or a status of 400 or more.
    The number of calls is the length of the latency slice, hence an
    [int]: that is the bound assumed. *)
Theorem total_is_successes_plus_failures
  (rs : list Protocols.Response) (r : Protocols.Response) :
  Z.of_nat (length (rs ++ [r])) <= MaxInt64 ->
  let c := recordAll rs NewCollector in
  let c' := recordAll (rs ++ [r]) NewCollector in
  (totalRequests c = successfulRequests c + failedRequests c
   /\ successfulRequests c + failedRequests c = Z.of_nat (length rs))
  /\ (totalRequests c' = successfulRequests c' + failedRequests c'
      /\ successfulRequests c' + failedRequests c'
         = Z.of_nat (length (rs ++ [r])))
  /\ c' = RecordResponse r c
  /\ totalRequests c' = totalRequests c + 1
  /\ (if isFailure r
      then failedRequests c' = failedRequests c + 1
           /\ successfulRequests c' = successfulRequests c
      else successfulRequests c' = successfulRequests c + 1
           /\ failedRequests c' = failedRequests c)
  /\ (isFailure r = true <->
      Protocols.Error r <> None \/ 400 <= Protocols.StatusCode r).
Proof.
  intros Hlen c c'.
  destruct (recordAll_exact_counters (rs ++ [r]) Hlen) as (Ht' & Hf' & Hs').
  fold c' in Ht', Hf', Hs'.
  rewrite length_app in Hlen. simpl in Hlen.
  destruct (recordAll_exact_counters rs) as (Ht & Hf & Hs); [lia|].
  fold c in Ht, Hf, Hs.
  rewrite !countIf_snoc in *.
  replace (isSuccess r) with (negb (isFailure r)) in Hs' by reflexivity.
  pose proof (countIf_split rs) as Hsplit.
  rewrite length_app in *. simpl in *.
  assert (Hc : c' = RecordResponse r c) by apply recordAll_snoc.
  clearbody c c'.
  split; [lia|].
  split; [destruct (isFailure r); simpl in *; lia|].
  split; [exact Hc|].
  split; [lia|].
  split; [destruct (isFailure r); simpl in *; lia|].
  apply isFailure_spec.
Qed.

Lemma total_is_successes_plus_failures_witness :
  let rs := [response 200 (ms 12) None; response 503 (ms 40) None] in
  let r := response 0 (ms 7) (Some "connection refused") in
  let c' := recordAll (rs ++ [r]) NewCollector in
  totalRequests c' = 3 /\ successfulRequests c' = 1
  /\ failedRequests c' = 2
  /\ totalRequests c' = successfulRequests c' + failedRequests c'.
Proof.
  intros rs r c'.
  assert (Hlen : Z.of_nat (length (rs ++ [r])) <= MaxInt64)
    by (vm_compute; discriminate).
  pose proof (total_is_successes_plus_failures rs r Hlen)
    as (_ & (Hsum & _) & _).
  split; [reflexivity|]. split; [reflexivity|].
  split; [reflexivity|exact Hsum].
Defined.

(** C9 (as the code has it). After any sequence [rs] of calls and one
    more call with [r]: a response that carries an error or a status of
    400 or more adds 1 to the failure count; an error bucket is
    incremented only when the response carries an error, under the
    error's own text; a response without error leaves the buckets
    untouched, whatever its status.  The total over the error buckets
    is therefore the number of responses that carried an error, which
    is at most the failure count. *)
Theorem error_buckets_count_transport_errors
  (rs : list Protocols.Response) (r : Protocols.Response) :
  Z.of_nat (length (rs ++ [r])) <= MaxInt64 ->
  let c := recordAll rs NewCollector in
  let c' := RecordResponse r c in
  (isFailure r = true -> failedRequests c' = failedRequests c + 1)
  /\ (forall msg, Protocols.Error r = Some msg ->
      errors c' = <[msg := default 0 (errors c !! msg) + 1]> (errors c))
  /\ (Protocols.Error r = None -> errors c' = errors c)
  /\ bucketTotal (errors c') = countIf hasError (rs ++ [r])
  /\ bucketTotal (errors c') <= failedRequests c'.
Proof.
  intros Hlen c c'.
  destruct (recordAll_errors (rs ++ [r]) Hlen) as [Htot _].
  destruct (recordAll_exact_counters (rs ++ [r]) Hlen) as (_ & Hf' & _).
  rewrite recordAll_snoc in Htot, Hf'. fold c c' in Htot, Hf'.
  rewrite length_app in Hlen. simpl in Hlen.
  destruct (recordAll_errors rs) as [Htot0 Hnn]; [lia|]. fold c in Htot0, Hnn.
  destruct (recordAll_exact_counters rs) as (_ & Hf & _); [lia|]. fold c in Hf.
  pose proof (countIf_hasError_le (rs ++ [r])) as Hle.
  pose proof (countIf_hasError_le rs) as Hle0.
  pose proof (countIf_split rs) as Hsplit.
  pose proof (countIf_nonneg isSuccess rs) as Hsn.
  split.
  { intros Hr. rewrite Hf', Hf, countIf_snoc, Hr. done. }
  split.
  { intros msg He. unfold c'. rewrite RecordResponse_errors, He.
    unfold incr. f_equal. apply add64_small.
    pose proof (bucket_le_total (errors c) msg Hnn) as Hv.
    assert (Hm : MinInt64 = -9223372036854775808) by reflexivity.
    lia. }
  split.
  { intros He. unfold c'. rewrite RecordResponse_errors, He. reflexivity. }
  split; [exact Htot|]. lia.
Qed.

Lemma error_buckets_count_transport_errors_witness :
  let rs := [response 200 (ms 12) None; response 503 (ms 40) None] in
  let r := response 0 (ms 7) (Some "connection refused") in
  let c' := RecordResponse r (recordAll rs NewCollector) in
  errors c' = {[ "connection refused" := 1 ]}
  /\ bucketTotal (errors c') = 1 /\ failedRequests c' = 2.
Proof.
  intros rs r c'.
  assert (Hlen : Z.of_nat (length (rs ++ [r])) <= MaxInt64)
    by (vm_compute; discriminate).
  pose proof (error_buckets_count_transport_errors rs r Hlen)
    as (_ & _ & _ & Htot & _).
  split; [reflexivity|]. split; [exact Htot|reflexivity].
Defined.

(** C9 fails as stated: a response with status 500 and no error is
    counted as a failure, yet no error bucket is incremented and no
    bucket named "unknown" appears. *)
Lemma status_failure_fills_no_error_bucket :
  let r := response 500 (ms 40) None in
  let c' := RecordResponse r NewCollector in
  isFailure r = true
  /\ failedRequests c' = 1
  /\ errors c' = ∅
  /\ errors c' !! "unknown" = None
  /\ bucketTotal (errors c') <> failedRequests c'.
Proof.
  repeat split. cbn. rewrite bucketTotal_empty. discriminate.
Qed.

End CollectorClaims.

(** ** The exchange sort of the latency table *)

Section SortFacts.

Import Metrics.

Implicit Types a : list Z.

(** Entries below position [k] are in order with every later entry. *)
Definition orderedBelow (k : nat) a : Prop :=
  forall p q x y, (p < k)%nat -> (p < q)%nat ->
    a !! p = Some x -> a !! q = Some y -> x <= y.

(** The entry at [i] is no larger than the entries strictly between [i]
    and [j]. *)
Definition leadsUpTo (i j : nat) a : Prop :=
  forall q x y, (i < q < j)%nat ->
    a !! i = Some x -> a !! q = Some y -> x <= y.

Lemma exchange_head_perm a j x y :
  a !! j = Some y -> y :: <[j := x]> a ≡ₚ x :: a.
Proof.
  revert j. induction a as [|h t IH]; intros [|j] Hj; simplify_eq/=.
  - apply perm_swap.
  - etrans; [apply perm_swap|].
    etrans; [apply perm_skip, (IH j Hj)|]. apply perm_swap.
Qed.

Lemma exchange_perm a i j x y :
  a !! i = Some x -> a !! j = Some y -> <[j := x]> (<[i := y]> a) ≡ₚ a.
Proof.
  revert i j. induction a as [|h t IH]; intros [|i] [|j] Hi Hj;
    simplify_eq/=; try done.
  - by apply exchange_head_perm.
  - by apply exchange_head_perm.
  - f_equiv. by apply IH.
Qed.

Lemma swapIfGreater_length i j a : length (swapIfGreater i j a) = length a.
Proof.
  unfold swapIfGreater.
  destruct (a !! i), (a !! j); try done.
  case_match; by rewrite ?length_insert.
Qed.

Lemma swapIfGreater_perm i j a : swapIfGreater i j a ≡ₚ a.
Proof.
  unfold swapIfGreater.
  destruct (a !! i) eqn:Hi, (a !! j) eqn:Hj; try done.
  case_match; [by apply exchange_perm|done].
Qed.

(** A loop whose body keeps an invariant keeps it. *)
Lemma foldl_invariant {A B} (P : A -> Prop) (f : A -> B -> A) (l : list B) x :
  (forall x b, P x -> P (f x b)) -> P x -> P (foldl f x l).
Proof. intros Hf. revert x. induction l; simpl; auto. Qed.

Lemma sortInner_length i a : length (sortInner i a) = length a.
Proof.
  unfold sortInner.
  apply (foldl_invariant (fun b => length b = length a)); [|done].
  intros b j <-. apply swapIfGreater_length.
Qed.

Lemma sortInner_perm i a : sortInner i a ≡ₚ a.
Proof.
  unfold sortInner.
  apply (foldl_invariant (fun b => b ≡ₚ a)); [|done].
  intros b j <-. apply swapIfGreater_perm.
Qed.

Lemma simpleSort_length a : length (simpleSort a) = length a.
Proof.
  unfold simpleSort.
  apply (foldl_invariant (fun b => length b = length a)); [|done].
  intros b j <-. apply sortInner_length.
Qed.

Lemma simpleSort_perm a : simpleSort a ≡ₚ a.
Proof.
  unfold simpleSort.
  apply (foldl_invariant (fun b => b ≡ₚ a)); [|done].
  intros b j <-. apply sortInner_perm.
Qed.

(** One comparison of the inner loop. *)
Lemma swapIfGreater_step i j a :
  (i < j < length a)%nat ->
  orderedBelow i a -> leadsUpTo i j a ->
  orderedBelow i (swapIfGreater i j a)
  /\ leadsUpTo i (S j) (swapIfGreater i j a).
Proof.
  intros [Hij Hj] Hord Hlead. unfold swapIfGreater.
  destruct (lookup_lt_is_Some_2 a i) as [x0 Hx0]; [lia|].
  destruct (lookup_lt_is_Some_2 a j) as [y0 Hy0]; [lia|].
  rewrite Hx0, Hy0.
  destruct (Z.ltb_spec y0 x0) as [Hlt|Hge].
  - assert (Hlen : length (<[i:=y0]> a) = length a) by apply length_insert.
    split.
    + intros p q x y Hp Hpq.
      rewrite !list_lookup_insert, Hlen.
      repeat case_decide; intros; simplify_eq; try lia;
        first [ solve [eapply (Hord p i); eauto; lia]
              | solve [eapply (Hord p j); eauto; lia]
              | solve [eapply (Hord p q); eauto; lia] ].
    + intros q x y Hq.
      rewrite !list_lookup_insert, Hlen.
      repeat case_decide; intros; simplify_eq; try lia.
      etrans; [apply Z.lt_le_incl, Hlt|].
      eapply (Hlead q); eauto; lia.
  - split; [done|].
    intros q x y Hq Hx Hy.
    destruct (decide (q = j)) as [->|]; [simplify_eq; lia|].
    eapply (Hlead q); eauto; lia.
Qed.

(** The inner loop, run over the first [m] positions after [i]. *)
Lemma sortInner_prefix i m a :
  (S i + m <= length a)%nat -> orderedBelow i a ->
  let b := foldl (fun a j => swapIfGreater i j a) a (seq (S i) m) in
  length b = length a /\ orderedBelow i b /\ leadsUpTo i (S i + m) b.
Proof.
  induction m as [|m IH]; intros Hm Hord; cbn zeta.
  - simpl. repeat split; auto. intros q x y Hq. lia.
  - rewrite seq_S, foldl_app. simpl.
    destruct IH as (Hlen & Ho & Hl); [lia|done|].
    rewrite swapIfGreater_length.
    split; [done|].
    replace (S (i + S m)) with (S (S i + m)) by lia.
    apply swapIfGreater_step; auto. lia.
Qed.

Lemma sortInner_ordered i a :
  (i < length a)%nat -> orderedBelow i a -> orderedBelow (S i) (sortInner i a).
Proof.
  intros Hi Hord. unfold sortInner.
  destruct (sortInner_prefix i (length a - S i) a) as (Hlen & Ho & Hl);
    [lia|done|].
  intros p q x y Hp Hpq Hx Hy.
  destruct (decide (p = i)) as [->|].
  - apply (Hl q x y); auto. apply lookup_lt_Some in Hy. lia.
  - apply (Ho p q x y); auto. lia.
Qed.

Lemma simpleSort_prefix k a :
  (k <= length a)%nat ->
  let b := foldl (fun a i => sortInner i a) a (seq 0 k) in
  length b = length a /\ orderedBelow k b.
Proof.
  induction k as [|k IH]; intros Hk; cbn zeta.
  - split; [done|]. intros p q x y Hp. lia.
  - rewrite seq_S, foldl_app. simpl.
    destruct IH as (Hlen & Ho); [lia|].
    rewrite sortInner_length. split; [done|].
    apply sortInner_ordered; auto. lia.
Qed.

Lemma orderedBelow_sorted a : orderedBelow (length a) a -> Sorted Z.le a.
Proof.
  intros Hord. apply StronglySorted_Sorted.
  induction a as [|h t IH]; constructor.
  - apply IH. intros p q x y Hp Hpq Hx Hy.
    apply (Hord (S p) (S q) x y); simpl in *; auto; lia.
  - apply Forall_forall. intros y Hy.
    apply list_elem_of_lookup in Hy as [q Hq].
    apply (Hord 0%nat (S q) h y); simpl; auto; lia.
Qed.

(** The nested loops sort: the result is ascending and holds the same
    entries. *)
Lemma simpleSort_sorted a : Sorted Z.le (simpleSort a).
Proof.
  destruct (simpleSort_prefix (length a) a) as [Hlen Hord]; [done|].
  apply orderedBelow_sorted. fold (simpleSort a) in Hlen, Hord.
  by rewrite Hlen.
Qed.

Lemma simpleSort_unique a s : Sorted Z.le s -> s ≡ₚ a -> simpleSort a = s.
Proof.
  intros Hs Hp. apply (Sorted_unique Z.le); auto.
  - apply simpleSort_sorted.
  - by rewrite simpleSort_perm.
Qed.

End SortFacts.

(** ** Percentiles *)

Section PercentileClaims.

Import Go Metrics Examples.

(** The largest integer not above a finite float. *)
Definition float64_floor (f : float) : option Z :=
  match Prim2SF f with
  | S754_zero _ => Some 0
  | S754_finite s m e =>
      let n := if s then Z.neg m else Z.pos m in
      Some (if 0 <=? e then n * 2 ^ e else n / 2 ^ (- e))
  | _ => None
  end.

(** The rule as the specification words it: in the sample sorted
    ascending, take the entry at index [floor((n-1) * p / 100)], clamped
    to the last valid index. *)
Definition nearestRank (sorted : list Z) (p : float) : option Z :=
  let n := Z.of_nat (length sorted) in
  k ← float64_floor (float64_of_int64 (n - 1) * p / 100)%float;
  sorted !! Z.to_nat (Z.min k (n - 1)).

(** On values that an int64 holds and that are not negative, the
    conversion to an integer is the floor. *)
Lemma int64_of_float64_floor a f k :
  float64_floor f = Some k -> 0 <= k <= MaxInt64 ->
  int64_of_float64 a f = k.
Proof.
  unfold float64_floor, int64_of_float64.
  destruct (Prim2SF f) as [s|s| |s m e]; intros Hk Hr; simplify_eq; [done|].
  assert (Hm : MinInt64 = -9223372036854775808) by reflexivity.
  destruct (Z.leb_spec 0 e) as [He|He].
  - destruct s.
    + assert (0 < 2 ^ e) by (apply Z.pow_pos_nonneg; lia). nia.
    + rewrite (proj2 (Z.leb_le _ _)), (proj2 (Z.leb_le _ _)) by lia. done.
  - assert (0 < 2 ^ (- e)) by (apply Z.pow_pos_nonneg; lia).
    destruct s.
    + assert (Z.neg m / 2 ^ (- e) < 0); [|lia].
      apply Z.div_lt_upper_bound; lia.
    + rewrite (proj2 (Z.leb_le _ _)), (proj2 (Z.leb_le _ _)) by lia. done.
Qed.

Lemma clamped_index (n : nat) k :
  0 <= k -> (0 < n)%nat ->
  (if Z.of_nat n <=? k then Z.of_nat n - 1 else k)
  = Z.min k (Z.of_nat n - 1)
  /\ (Z.to_nat (Z.min k (Z.of_nat n - 1)) < n)%nat.
Proof. intros. destruct (Z.leb_spec (Z.of_nat n) k); lia. Qed.

(** The collector's routine on a non-empty table and an index that is
    not negative. *)
Lemma calculatePercentile_nearestRank a (sorted : list Z) p k :
  sorted <> [] ->
  float64_floor
    (float64_of_int64 (Z.of_nat (length sorted) - 1) * p / 100)%float
  = Some k ->
  0 <= k <= MaxInt64 ->
  calculatePercentile a sorted p = nearestRank sorted p
  /\ is_Some (nearestRank sorted p).
Proof.
  intros Hne Hk Hr. unfold calculatePercentile, nearestRank, percentileIndex.
  rewrite Hk, (int64_of_float64_floor a _ k Hk Hr). simpl.
  destruct sorted as [|x l]; [done|].
  destruct (clamped_index (length (x :: l)) k) as [-> Hlt];
    [lia|simpl; lia|].
  unfold index.
  destruct (Z.ltb_spec (Z.min k (Z.of_nat (length (x :: l)) - 1)) 0);
    [simpl in *; lia|].
  split; [done|]. by apply lookup_lt_is_Some_2.
Qed.

(** The index in exact arithmetic, for the percentile [num / den]. *)
Definition exactIndex (n : nat) (num den : Z) : Z :=
  (Z.of_nat n - 1) * num / (100 * den).

(** The percentiles of the summary and of the tests, as fractions. *)
Definition usedPercentiles : list (float * (Z * Z)) :=
  [ (0%float, (0, 1)); (50%float, (50, 1)); (90%float, (90, 1));
    (95%float, (95, 1)); (99%float, (99, 1)); (99.9%float, (999, 10));
    (100%float, (100, 1)) ].

Definition indexIsExact (a : Arch) (n : nat) : bool :=
  forallb (fun '(p, (num, den)) =>
             percentileIndex a n p =? exactIndex n num den)
    usedPercentiles.

(** For samples of up to a thousand latencies the float64 computation of
    the index agrees with exact arithmetic on every percentile in use. *)
Lemma percentileIndex_exact a (n : nat) p num den :
  (1 <= n <= 1000)%nat -> In (p, (num, den)) usedPercentiles ->
  percentileIndex a n p = exactIndex n num den.
Proof.
  intros Hn Hp.
  assert (Hall : forallb (indexIsExact a) (seq 1 1000) = true)
    by (destruct a; vm_compute; reflexivity).
  assert (Hin : In n (seq 1 1000)) by (apply in_seq; lia).
  rewrite forallb_forall in Hall.
  specialize (Hall n Hin). unfold indexIsExact in Hall.
  rewrite forallb_forall in Hall.
  specialize (Hall _ Hp). simpl in Hall.
  by apply Z.eqb_eq.
Qed.

Definition sample5 : list Z := [ms 100; ms 200; ms 300; ms 400; ms 500].

(** C5. For a non-empty latency sample, [sorted] being the sample in
    ascending order and [k = floor((n-1) * p / 100)] a non-negative
    index (computed, as in the program, on float64 values), both
    percentile routines return the entry of [sorted] at index [k]
    clamped to the last valid index: the collector's routine when handed
    the sorted table, the utility when handed the sample in any order.
    For the sample of 100, 200, 300, 400 and 500 ms this gives
    P50 = 300 ms, P90 = 400 ms and P0 = 100 ms.  For samples of up to a
    thousand latencies and the percentiles 0, 50, 90, 95, 99, 99.9 and
    100 the index computed on float64 is the floor in exact arithmetic. *)
Theorem percentile_is_nearest_rank (a : Arch) (sample sorted : list Z)
  (p : float) (k : Z) :
  sample <> [] -> sorted ≡ₚ sample -> Sorted Z.le sorted ->
  float64_floor
    (float64_of_int64 (Z.of_nat (length sample) - 1) * p / 100)%float
  = Some k ->
  0 <= k <= MaxInt64 ->
  let i := Z.to_nat (Z.min k (Z.of_nat (length sample) - 1)) in
  (exists v, sorted !! i = Some v
     /\ calculatePercentile a sorted p = Some v
     /\ calculatePercentile a (simpleSort sample) p = Some v
     /\ Utils.CalculatePercentile a sample p = Some v)
  /\ calculatePercentile a sample5 50 = Some (ms 300)
  /\ calculatePercentile a sample5 90 = Some (ms 400)
  /\ calculatePercentile a sample5 0 = Some (ms 100)
  /\ Utils.CalculatePercentile a sample5 50 = Some (ms 300)
  /\ Utils.CalculatePercentile a sample5 90 = Some (ms 400)
  /\ Utils.CalculatePercentile a sample5 0 = Some (ms 100)
  /\ (forall (n : nat) q num den,
        (1 <= n <= 1000)%nat -> In (q, (num, den)) usedPercentiles ->
        percentileIndex a n q = (Z.of_nat n - 1) * num / (100 * den)).
Proof.
  intros Hne Hperm Hsorted Hk Hr i.
  split; [|split; [|split; [|split; [|split; [|split; [|split]]]]]];
    [|destruct a; vm_compute; reflexivity..|apply percentileIndex_exact].
  assert (Hlen : length sorted = length sample)
    by (by rewrite Hperm).
  assert (Hne' : sorted <> []) by (intros ->; by destruct sample).
  rewrite <- Hlen in Hk.
  destruct (calculatePercentile_nearestRank a sorted p k Hne' Hk Hr)
    as [Hc [v Hv]].
  assert (Hs : simpleSort sample = sorted)
    by (by apply simpleSort_unique).
  exists v. rewrite Hs.
  assert (Hu : Utils.CalculatePercentile a sample p
               = calculatePercentile a sorted p).
  { unfold Utils.CalculatePercentile, calculatePercentile.
    rewrite Hs. destruct sample, sorted; done. }
  rewrite Hu, Hc. repeat split; try done.
  unfold nearestRank in Hv. rewrite Hk in Hv. simpl in Hv.
  subst i. by rewrite <- Hlen.
Qed.

Lemma percentile_is_nearest_rank_witness :
  Utils.CalculatePercentile amd64 [ms 300; ms 100; ms 500; ms 200; ms 400] 90
  = Some (ms 400).
Proof.
  assert (Hne : [ms 300; ms 100; ms 500; ms 200; ms 400] <> [])
    by discriminate.
  assert (Hperm : sample5 ≡ₚ [ms 300; ms 100; ms 500; ms 200; ms 400]).
  { rewrite <- (simpleSort_perm [ms 300; ms 100; ms 500; ms 200; ms 400]).
    vm_compute. reflexivity. }
  assert (Hsorted : Sorted Z.le sample5).
  { change sample5
      with (simpleSort [ms 300; ms 100; ms 500; ms 200; ms 400]).
    apply simpleSort_sorted. }
  assert (Hk : float64_floor
            (float64_of_int64
               (Z.of_nat (length [ms 300; ms 100; ms 500; ms 200; ms 400])
                - 1) * 90 / 100)%float = Some 3)
    by (vm_compute; reflexivity).
  assert (Hr : 0 <= 3 <= MaxInt64) by (vm_compute; split; discriminate).
  destruct (percentile_is_nearest_rank amd64 _ _ 90 3 Hne Hperm Hsorted Hk Hr)
    as [(v & Hv & _ & _ & Hu) _].
  rewrite Hu, <- Hv. reflexivity.
Defined.

(** C6 (what the code computes). The running minimum treats the value 0
    as "not yet set": after a response with latency 0 and one with
    latency 5 ms the collector reports a minimum of 5 ms, while the
    sorted table starts with 0, so that the median, and every other
    percentile, is 0 and lies below the reported minimum.  The utility
    [CalculateMinMax], which starts from the first entry, returns 0 as
    the minimum of the same sample. *)
Theorem zero_latency_puts_median_below_min (a : Arch) :
  let c := recordAll [response 200 0 None; response 200 (ms 5) None]
             NewCollector in
  latencies c = [0; ms 5]
  /\ calculateLatencyStats a c
     = Some {| Min := ms 5; Max := ms 5; Mean := 2500000; Median := 0;
               P90 := 0; P95 := 0; P99 := 0; P99_9 := 0 |}
  /\ (exists stats,
        Latency <$> GetSummary a c = Some (Some stats)
        /\ Median stats < Min stats)
  /\ Utils.CalculateMinMax (latencies c) = (0, ms 5).
Proof.
  intros c. split; [reflexivity|].
  split; [destruct a; vm_compute; reflexivity|].
  split; [|reflexivity].
  eexists. split; [destruct a; vm_compute; reflexivity|]. reflexivity.
Qed.

(** *** The chain of percentiles on positive latencies *)

Lemma RecordResponse_latency r c :
  latencies (RecordResponse r c) = latencies c ++ [Protocols.ResponseTime r]
  /\ minLatency (RecordResponse r c)
     = (if (minLatency c =? 0) || (Protocols.ResponseTime r <? minLatency c)
        then Protocols.ResponseTime r else minLatency c)
  /\ maxLatency (RecordResponse r c)
     = (if maxLatency c <? Protocols.ResponseTime r
        then Protocols.ResponseTime r else maxLatency c).
Proof.
  unfold RecordResponse.
  destruct (isFailure r); [destruct (Protocols.Error r)|]; simpl; auto.
Qed.

(** The running bounds while every latency seen is positive. *)
Definition boundsHold (c : Collector) : Prop :=
  match latencies c with
  | [] => minLatency c = 0 /\ maxLatency c = 0
  | _ => 0 < minLatency c
         /\ Forall (fun x => minLatency c <= x <= maxLatency c) (latencies c)
  end.

Lemma recordAll_bounds rs :
  Forall (fun r => 0 < Protocols.ResponseTime r) rs ->
  let c := recordAll rs NewCollector in
  latencies c = map Protocols.ResponseTime rs /\ boundsHold c.
Proof.
  induction rs as [|r rs IH] using rev_ind; intros Hpos; cbn zeta.
  - by repeat split.
  - apply Forall_app in Hpos as [Hpos Hr].
    apply (proj1 (Forall_singleton _ _)) in Hr.
    destruct (IH Hpos) as [Hlat Hb].
    rewrite recordAll_snoc.
    destruct (RecordResponse_latency r (recordAll rs NewCollector))
      as (Hl & Hmin & Hmax).
    split; [by rewrite Hl, Hlat, map_app|].
    unfold boundsHold in *. rewrite Hl, Hmin, Hmax.
    set (c := recordAll rs NewCollector) in *.
    set (l := Protocols.ResponseTime r) in *.
    destruct (latencies c) as [|x xs] eqn:Hc.
    + destruct Hb as [-> ->]. simpl.
      destruct (Z.ltb_spec 0 l); [|lia].
      split; [done|]. constructor; [lia|constructor].
    + destruct Hb as [Hm Hall].
      destruct (Z.eqb_spec (minLatency c) 0) as [?|_]; [lia|]. simpl.
      change (x :: xs ++ [l]) with ((x :: xs) ++ [l]).
      destruct (Z.ltb_spec l (minLatency c)), (Z.ltb_spec (maxLatency c) l).
      all: split; [lia|]; apply Forall_app; split;
        [eapply Forall_impl; [exact Hall|simpl; intros; lia]
        |constructor; [lia|constructor]].
Qed.

Lemma sorted_lookup_le (s : list Z) (i j : nat) x y :
  Sorted Z.le s -> (i <= j)%nat -> s !! i = Some x -> s !! j = Some y -> x <= y.
Proof.
  intros Hs%Sorted_StronglySorted; [|apply _].
  revert i j. induction Hs as [|h t Ht IH Hh]; intros [|i] [|j] Hij Hi Hj;
    simplify_eq/=; try lia.
  - rewrite Forall_forall in Hh. apply Hh. by eapply list_elem_of_lookup_2.
  - apply (IH i j); auto. lia.
Qed.

(** On a table of at most a thousand entries, a percentile in use is the
    entry at the exact index. *)
Lemma calculatePercentile_exact a (sorted : list Z) p num den :
  (1 <= length sorted <= 1000)%nat ->
  In (p, (num, den)) usedPercentiles ->
  let k := Z.to_nat (exactIndex (length sorted) num den) in
  (k < length sorted)%nat /\ calculatePercentile a sorted p = sorted !! k.
Proof.
  intros Hn Hp k.
  assert (Hk : 0 <= exactIndex (length sorted) num den
               <= Z.of_nat (length sorted) - 1).
  { unfold exactIndex.
    assert (0 <= num /\ 0 < den /\ num <= 100 * den) as (? & ? & ?).
    { simpl in Hp. repeat destruct Hp as [Hp|Hp]; simplify_eq; lia. }
    split; [apply Z.div_pos; nia|].
    apply Z.div_le_upper_bound; nia. }
  split; [lia|].
  unfold calculatePercentile.
  rewrite (percentileIndex_exact a _ p num den Hn Hp).
  destruct sorted as [|x l]; [simpl in Hn; lia|].
  destruct (Z.leb_spec (Z.of_nat (length (x :: l)))
              (exactIndex (length (x :: l)) num den)); [lia|].
  unfold index.
  destruct (Z.ltb_spec (exactIndex (length (x :: l)) num den) 0); [lia|done].
Qed.

Lemma exactIndex_mono (n : nat) num1 den1 num2 den2 :
  (1 <= n)%nat -> 0 < den1 -> 0 < den2 -> num1 * den2 <= num2 * den1 ->
  exactIndex n num1 den1 <= exactIndex n num2 den2.
Proof.
  intros Hn H1 H2 Hle. unfold exactIndex.
  rewrite <- (Z.div_mul_cancel_r _ (100 * den1) den2) by lia.
  rewrite <- (Z.div_mul_cancel_r ((Z.of_nat n - 1) * num2) (100 * den2) den1)
    by lia.
  replace (100 * den2 * den1) with (100 * den1 * den2) by lia.
  apply Z.div_le_mono; nia.
Qed.

(** Away from the defect shown above the chain of C6 holds: for up to a
    thousand responses, all with a positive latency, the summary has
    min <= P50 <= P90 <= P95 <= P99 <= P99.9 <= max. *)
Lemma positive_latencies_give_ordered_percentiles a rs :
  (1 <= length rs <= 1000)%nat ->
  Forall (fun r => 0 < Protocols.ResponseTime r) rs ->
  exists stats,
    calculateLatencyStats a (recordAll rs NewCollector) = Some stats
    /\ Min stats <= Median stats
    /\ Median stats <= P90 stats
    /\ P90 stats <= P95 stats
    /\ P95 stats <= P99 stats
    /\ P99 stats <= P99_9 stats
    /\ P99_9 stats <= Max stats.
Proof.
  intros Hn Hpos.
  destruct (recordAll_bounds rs Hpos) as [Hlat Hb].
  set (c := recordAll rs NewCollector) in *.
  unfold calculateLatencyStats, boundsHold in *.
  assert (Hlen : length (latencies c) = length rs)
    by (by rewrite Hlat, length_map).
  destruct (latencies c) as [|x xs] eqn:Hc; [simpl in Hlen; lia|].
  rewrite <- Hc in *. destruct Hb as [_ Hall].
  set (s := simpleSort (latencies c)).
  assert (Hs : Sorted Z.le s) by apply simpleSort_sorted.
  assert (Hsl : length s = length rs)
    by (unfold s; by rewrite simpleSort_length).
  assert (Hsn : (1 <= length s <= 1000)%nat) by lia.
  assert (Hin : forall k v, s !! k = Some v ->
                  minLatency c <= v <= maxLatency c).
  { intros k v Hk. apply list_elem_of_lookup_2 in Hk.
    unfold s in Hk. rewrite simpleSort_perm in Hk.
    rewrite Forall_forall in Hall. by apply Hall. }
  pose proof (fun p num den Hp =>
                calculatePercentile_exact a s p num den Hsn Hp) as Hex.
  destruct (Hex 50%float 50 1) as [H50 ->]; [simpl; tauto|].
  destruct (Hex 90%float 90 1) as [H90 ->]; [simpl; tauto|].
  destruct (Hex 95%float 95 1) as [H95 ->]; [simpl; tauto|].
  destruct (Hex 99%float 99 1) as [H99 ->]; [simpl; tauto|].
  destruct (Hex 99.9%float 999 10) as [H999 ->]; [simpl; tauto|].
  destruct (lookup_lt_is_Some_2 _ _ H50) as [v50 E50].
  destruct (lookup_lt_is_Some_2 _ _ H90) as [v90 E90].
  destruct (lookup_lt_is_Some_2 _ _ H95) as [v95 E95].
  destruct (lookup_lt_is_Some_2 _ _ H99) as [v99 E99].
  destruct (lookup_lt_is_Some_2 _ _ H999) as [v999 E999].
  rewrite E50, E90, E95, E99, E999. simpl.
  eexists. split; [reflexivity|]. simpl.
  assert (Hmono : forall n1 d1 n2 d2 v1 v2,
            0 < d1 -> 0 < d2 -> 0 <= n1 -> n1 * d2 <= n2 * d1 ->
            s !! Z.to_nat (exactIndex (length s) n1 d1) = Some v1 ->
            s !! Z.to_nat (exactIndex (length s) n2 d2) = Some v2 ->
            v1 <= v2).
  { intros n1 d1 n2 d2 v1 v2 ? ? ? ? E1 E2.
    assert (0 <= exactIndex (length s) n1 d1)
      by (unfold exactIndex; apply Z.div_pos; nia).
    assert (exactIndex (length s) n1 d1 <= exactIndex (length s) n2 d2)
      by (apply exactIndex_mono; lia).
    apply (sorted_lookup_le s (Z.to_nat (exactIndex (length s) n1 d1))
             (Z.to_nat (exactIndex (length s) n2 d2)) v1 v2 Hs); auto.
    lia. }
  repeat split.
  - by apply (Hin _ _ E50).
  - by apply (Hmono 50 1 90 1 v50 v90).
  - by apply (Hmono 90 1 95 1 v90 v95).
  - by apply (Hmono 95 1 99 1 v95 v99).
  - by apply (Hmono 99 1 999 10 v99 v999).
  - by apply (Hin _ _ E999).
Qed.

End PercentileClaims.

(** ** Pacing *)

Section PacingClaims.

Import Go Engine Examples.

(** Outside the [ramp-up] pattern the intensity of a phase is its fixed
    value, whatever the progress through the phase. *)
Lemma calculateIntensity_fixed w phase elapsed :
  Config.Pattern (GetConfig (engine w)) <> "ramp-up" ->
  calculateIntensity w phase elapsed = Intensity phase.
Proof.
  intros Hp. unfold calculateIntensity.
  destruct (Duration phase =? 0); [done|].
  destruct (String.eqb_spec (Config.Pattern (GetConfig (engine w))) "ramp-up");
    done.
Qed.

Definition steady30 : Config.LoadTestConfig :=
  runConfig "steady" (30 * Second) (10 * Second) (5 * Second).

(** The default pattern and ramps of the command line with a run of
    five seconds: the ramp-up phase of ten seconds outlasts the run. *)
Definition steady5 : Config.LoadTestConfig :=
  runConfig "steady" (5 * Second) (10 * Second) (5 * Second).

Definition rampUp30 : Config.LoadTestConfig :=
  runConfig "ramp-up" (30 * Second) (10 * Second) (5 * Second).

(** The phase lookup on a pattern of three phases whose durations are not
    negative and add up within the range of a duration. *)
Lemma currentPhase_three p1 p2 p3 elapsed :
  0 <= Duration p1 -> 0 <= Duration p2 -> 0 <= Duration p3 ->
  Duration p1 + Duration p2 + Duration p3 <= MaxInt64 ->
  currentPhase [p1; p2; p3] elapsed 0
  = if elapsed <? Duration p1 then Some (p1, 0)
    else if elapsed <? Duration p1 + Duration p2 then Some (p2, Duration p1)
    else if elapsed <? Duration p1 + Duration p2 + Duration p3
         then Some (p3, Duration p1 + Duration p2)
    else None.
Proof.
  intros H1 H2 H3 Hsum.
  assert (Hb : MinInt64 = -9223372036854775808) by reflexivity.
  simpl. rewrite (add64_small 0) by lia. simpl.
  rewrite (add64_small (Duration p1)) by lia.
  rewrite (add64_small (Duration p1 + Duration p2)) by lia.
  reflexivity.
Qed.

Definition steadyPhases30 : list LoadPhase :=
  [ {| Duration := 10 * Second; Intensity := 0 |};
    {| Duration := 15 * Second; Intensity := 1 |};
    {| Duration := 5 * Second; Intensity := 0 |} ].

(** The clamped progress through a phase, as [calculateIntensity] forms
    it. *)
Definition progressIn (phase : LoadPhase) (elapsed : Z) : float :=
  let progress :=
    (float64_of_int64 elapsed / float64_of_int64 (Duration phase))%float in
  if (1.0 <? progress)%float then 1.0%float else progress.

(** C1 (as the code has it). For the [steady] pattern with ramp-up 10 s,
    ramp-down 5 s and duration 30 s the pacing function yields the
    intensity 0 at t = 0 and the intensity 1 at t = 10 s and throughout
    the hold phase, which ends at t = 25 s; at t = 30 s and at every
    later instant no phase is active, no intensity is computed and the
    delay is 0.  The progress through the phase is the intensity under
    the [ramp-up] pattern. *)
Theorem steady_intensity_at_phase_bounds :
  let w := NewWorker 0 (engineFor steady30) in
  let pattern := calculateLoadPattern w in
  let wr := NewWorker 0 (engineFor rampUp30) in
  let ramp := {| Duration := 30 * Second; Intensity := 0 |} in
  intensityAt w pattern 0 = Some 0%float
  /\ intensityAt w pattern (10 * Second) = Some 1%float
  /\ (forall t, 10 * Second <= t < 25 * Second ->
        intensityAt w pattern t = Some 1%float)
  /\ intensityAt w pattern (30 * Second) = None
  /\ (forall a t, 30 * Second <= t ->
        intensityAt w pattern t = None /\ calculateDelayAt a w pattern t = 0)
  /\ (forall t, 0 <= t < 30 * Second ->
        intensityAt wr (calculateLoadPattern wr) t = Some (progressIn ramp t))
  /\ intensityAt wr (calculateLoadPattern wr) (15 * Second) = Some 0.5%float.
Proof.
  intros w pattern wr ramp.
  assert (Hph : Phases pattern = steadyPhases30) by reflexivity.
  assert (Hs : Second = 1000000000) by reflexivity.
  assert (Hm : MaxInt64 = 9223372036854775807) by reflexivity.
  assert (Hb : MinInt64 = -9223372036854775808) by reflexivity.
  assert (Hat : forall t,
            currentPhase (Phases pattern) t 0
            = if t <? 10 * Second
              then Some ({| Duration := 10 * Second; Intensity := 0 |}, 0)
              else if t <? 25 * Second
              then Some ({| Duration := 15 * Second; Intensity := 1 |},
                         10 * Second)
              else if t <? 30 * Second
              then Some ({| Duration := 5 * Second; Intensity := 0 |},
                         25 * Second)
              else None).
  { intros t. rewrite Hph. unfold steadyPhases30.
    rewrite currentPhase_three by (simpl; lia). reflexivity. }
  split; [reflexivity|]. split; [reflexivity|].
  split.
  { intros t Ht. unfold intensityAt. rewrite Hat.
    destruct (Z.ltb_spec t (10 * Second)); [lia|].
    destruct (Z.ltb_spec t (25 * Second)); [|lia].
    by rewrite calculateIntensity_fixed. }
  split; [reflexivity|].
  split.
  { intros a t Ht. unfold calculateDelayAt, intensityAt. rewrite Hat.
    destruct (Z.ltb_spec t (10 * Second)); [lia|].
    destruct (Z.ltb_spec t (25 * Second)); [lia|].
    destruct (Z.ltb_spec t (30 * Second)); [lia|]. done. }
  split; [|vm_compute; reflexivity].
  intros t Ht. unfold intensityAt.
  change (Phases (calculateLoadPattern wr)) with [ramp].
  cbn [currentPhase]. rewrite (add64_small 0) by (simpl; lia).
  change (0 + Duration ramp) with (30 * Second).
  destruct (Z.ltb_spec t (30 * Second)); [|lia].
  unfold sub64. rewrite wrap64_small by lia.
  rewrite Z.sub_0_r. reflexivity.
Qed.

(** C1 fails as stated, in two places.  Half way through the ramp-down,
    at t = 27.5 s, the pacing function yields the fixed intensity 0 of
    that phase, not 0.5: under [steady] the progress is computed and
    dropped.  At t = 30 s it yields no intensity at all, and a delay of
    0.  In a run of five seconds with the default ramps the elapsed time
    that [calculateDelay] forms lies half way through the ramp-up phase,
    and the intensity is 0 there as well. *)
Lemma steady_midramp_intensity_is_zero :
  let w := NewWorker 0 (engineFor steady30) in
  let pattern := calculateLoadPattern w in
  let w5 := NewWorker 0 (engineFor steady5) in
  Phases pattern = steadyPhases30
  /\ intensityAt w pattern (27500 * Millisecond) = Some 0%float
  /\ progressIn {| Duration := 5 * Second; Intensity := 0 |}
       (2500 * Millisecond) = 0.5%float
  /\ (0 =? 0.5)%float = false
  /\ intensityAt w pattern (30 * Second) = None
  /\ calculateDelayAt amd64 w pattern (30 * Second) = 0
  /\ elapsedOf w5 1000 1000 = 5 * Second
  /\ intensityAt w5 (calculateLoadPattern w5) (elapsedOf w5 1000 1000)
     = Some 0%float.
Proof.
  repeat split; vm_compute; reflexivity.
Qed.

(** No phase contains an elapsed time at or past the end of the last
    phase. *)
Lemma currentPhase_past_end phases elapsed phaseStart :
  0 <= phaseStart ->
  Forall (fun phase => 0 <= Duration phase) phases ->
  phaseStart + foldr (fun phase acc => Duration phase + acc) 0 phases
  <= elapsed ->
  elapsed <= MaxInt64 ->
  currentPhase phases elapsed phaseStart = None.
Proof.
  intros Hs Hd. revert phaseStart Hs.
  induction Hd as [|phase phases Hp Hd IH]; intros phaseStart Hs He Hm;
    simpl in *; [done|].
  assert (0 <= foldr (fun phase acc => Duration phase + acc) 0 phases).
  { clear -Hd. induction Hd; simpl; lia. }
  assert (Hb : MinInt64 = -9223372036854775808) by reflexivity.
  rewrite add64_small by lia.
  destruct (Z.ltb_spec elapsed (phaseStart + Duration phase)); [lia|].
  apply IH; lia.
Qed.

(** In a run the elapsed time that [calculateDelay] forms is the
    configured duration plus the time between its two clock readings.
    With ramps that fit into the duration it lies at or past the end of
    the last phase of every pattern of the catalogue, so that no phase
    is found and the delay is 0. *)
Lemma calculateDelay_in_a_run a w now1 now2 :
  let cfg := GetConfig (engine w) in
  0 <= Config.Duration cfg <= MaxInt64 ->
  0 <= Config.RampUp cfg -> 0 <= Config.RampDown cfg ->
  Config.RampUp cfg + Config.RampDown cfg <= Config.Duration cfg ->
  now1 <= now2 ->
  Config.Duration cfg <= elapsedOf w now1 now2
  /\ calculateDelay a w (calculateLoadPattern w) now1 now2 = 0.
Proof.
  intros cfg Hd Hu Hdn Hfit Hclock.
  assert (Hb : MinInt64 = -9223372036854775808) by reflexivity.
  assert (Hm : MaxInt64 = 9223372036854775807) by reflexivity.
  assert (He : Config.Duration cfg <= elapsedOf w now1 now2 <= MaxInt64).
  { unfold elapsedOf, time_Sub, time_Add. fold cfg. lia. }
  split; [lia|].
  unfold calculateDelay, calculateDelayAt, intensityAt.
  rewrite currentPhase_past_end; [done|lia| | |lia].
  - unfold calculateLoadPattern, calculateSpikePattern,
      calculateSteadyPattern, calculateRampUpPattern, calculateStressPattern.
    fold cfg. unfold quot64, sub64.
    assert (0 <= Config.Duration cfg ÷ 4 <= Config.Duration cfg)
      by (split; [apply Z.quot_pos|apply Z.quot_le_upper_bound]; lia).
    assert (0 <= Config.Duration cfg ÷ 2 <= Config.Duration cfg)
      by (split; [apply Z.quot_pos|apply Z.quot_le_upper_bound]; lia).
    assert (0 <= Config.Duration cfg ÷ 3 <= Config.Duration cfg)
      by (split; [apply Z.quot_pos|apply Z.quot_le_upper_bound]; lia).
    repeat case_match; simpl;
      rewrite ?wrap64_small by (rewrite ?wrap64_small by lia; lia);
      repeat constructor; simpl; lia.
  - unfold calculateLoadPattern, calculateSpikePattern,
      calculateSteadyPattern, calculateRampUpPattern, calculateStressPattern.
    fold cfg. unfold quot64, sub64.
    pose proof (Z.quot_rem' (Config.Duration cfg) 4).
    pose proof (Z.rem_bound_pos (Config.Duration cfg) 4).
    pose proof (Z.quot_rem' (Config.Duration cfg) 2).
    pose proof (Z.rem_bound_pos (Config.Duration cfg) 2).
    pose proof (Z.quot_rem' (Config.Duration cfg) 3).
    pose proof (Z.rem_bound_pos (Config.Duration cfg) 3).
    assert (0 <= Config.Duration cfg ÷ 4) by (apply Z.quot_pos; lia).
    assert (0 <= Config.Duration cfg ÷ 2) by (apply Z.quot_pos; lia).
    assert (0 <= Config.Duration cfg ÷ 3) by (apply Z.quot_pos; lia).
    repeat case_match; simpl;
      rewrite ?wrap64_small by (rewrite ?wrap64_small by lia; lia);
      lia.
Qed.

(** A run of the default pattern and ramps that is a hundred
    nanoseconds short of the ramp-up of ten seconds. *)
Definition steadyEdge : Config.LoadTestConfig :=
  runConfig "steady" (10 * Second - 100) (10 * Second) (5 * Second).

(** C3. [calculateDelay] is not handed an elapsed time: it reads the
    clock twice and forms the configured duration plus the time between
    the two readings, wherever the run stands.  In a run of 9.9999999 s
    with the default ramps two workers with the same pattern and
    configuration that read the same instant first, and 40 ns and 150 ns
    later second, obtain different delays: the first still falls into
    the ramp-up phase, whose intensity is 0, the second into no phase.
    Neither reading alone determines the delay. *)
Theorem pacing_depends_on_two_clock_readings :
  let w1 := {| id := 0; engine := engineFor steadyEdge; requests := 0 |} in
  let w2 := {| id := 1; engine := engineFor steadyEdge; requests := 0 |} in
  let pattern := calculateLoadPattern w1 in
  let now := 3 * Second in
  calculateLoadPattern w2 = pattern
  /\ calculateDelay amd64 w1 pattern now (now + 40) = MinInt64
  /\ calculateDelay amd64 w2 pattern now (now + 150) = 0
  /\ calculateDelay arm64 w1 pattern now (now + 40) = MaxInt64
  /\ calculateDelay arm64 w2 pattern now (now + 150) = 0
  /\ calculateDelay amd64 w2 pattern (now + 110) (now + 150) = MinInt64
  /\ intensityAt w1 pattern (elapsedOf w1 now (now + 40)) = Some 0%float
  /\ intensityAt w2 pattern (elapsedOf w2 now (now + 150)) = None
  /\ (forall t gap,
        0 <= gap <= Second ->
        elapsedOf w1 t (t + gap) = Config.Duration steadyEdge + gap).
Proof.
  intros w1 w2 pattern now.
  repeat (split; [vm_compute; reflexivity|]).
  intros t gap Hgap. unfold elapsedOf, time_Sub, time_Add.
  change (Config.Duration (GetConfig (engine w1))) with 9999999900.
  change (Config.Duration steadyEdge) with 9999999900.
  assert (Hb : MinInt64 = -9223372036854775808) by reflexivity.
  assert (Hm : MaxInt64 = 9223372036854775807) by reflexivity.
  assert (Hs : Second = 1000000000) by reflexivity.
  lia.
Qed.

End PacingClaims.

(** ** The worker loop *)

Section WorkerClaims.

Import Go Engine Examples.

(** The flags of the integration test, [--duration 1s], with the
    default pattern and ramps. *)
Definition steady1 : Config.LoadTestConfig :=
  runConfig "steady" (1 * Second) (10 * Second) (5 * Second).

(** An intensity of 0 is divided into the base interval like any
    other. *)
Lemma zero_intensity_delay a w pattern elapsed :
  intensityAt w pattern elapsed = Some 0%float ->
  calculateDelayAt a w pattern elapsed = int64_of_float64 a infinity.
Proof. unfold calculateDelayAt. by intros ->. Qed.

(** C2. In a run of one second with the default ramps every call of
    [calculateDelay] falls into the ramp-up phase, whose intensity is
    0: the base interval is divided by that zero, the quotient is
    infinite, and its conversion to a duration is whatever the platform
    makes of it, the smallest int64 on amd64 and the largest on arm64.
    The worker has no idle turn: it issues its request all the same, at
    once on amd64 and after a sleep of 292 years on arm64.  Whenever the
    intensity is 0 the delay is that converted infinity. *)
Theorem zero_intensity_turn_issues_request :
  let w := NewWorker 0 (engineFor steady1) in
  let pattern := calculateLoadPattern w in
  let result := (Some (response 200 (ms 12) None), None) in
  let request := Request (CreateRequest (H := noLib) (engine w)) in
  elapsedOf w 1000 1000 = 1 * Second
  /\ intensityAt w pattern (elapsedOf w 1000 1000) = Some 0%float
  /\ (float64_of_int64 baseDelay / 0)%float = infinity
  /\ calculateDelay amd64 w pattern 1000 1000 = MinInt64
  /\ calculateDelay arm64 w pattern 1000 1000 = MaxInt64
  /\ (exists w' c',
        iteration (H := noLib) amd64 w pattern false 1000 1000 result
          Metrics.NewCollector
        = Continued w' c' [request]
        /\ requests w' = 1
        /\ Metrics.totalRequests c' = 1)
  /\ (exists w' c',
        iteration (H := noLib) arm64 w pattern false 1000 1000 result
          Metrics.NewCollector
        = Continued w' c' [Sleep MaxInt64; request]
        /\ requests w' = 1
        /\ Metrics.totalRequests c' = 1)
  /\ (forall a w pattern elapsed,
        intensityAt w pattern elapsed = Some 0%float ->
        calculateDelayAt a w pattern elapsed
        = match a with amd64 => MinInt64 | arm64 => MaxInt64 end).
Proof.
  intros w pattern result request.
  repeat (split; [vm_compute; reflexivity|]).
  split; [eexists _, _; split; [|split]; vm_compute; reflexivity|].
  split; [eexists _, _; split; [|split]; vm_compute; reflexivity|].
  intros a w0 p0 elapsed Hz. rewrite (zero_intensity_delay a w0 p0 elapsed Hz).
  by destruct a.
Qed.

End WorkerClaims.

(** ** The validator *)

Section ValidatorClaims.

Import Go Validation Examples.

Context `{Lib}.

Variable config : Config.ValidationConfig.

(** The nine rules in the order the specification lists them, each
    evaluated on its own. *)
Definition ruleTransport (resp : Protocols.Response) : ValidationResult :=
  match Protocols.Error resp with
  | Some msg => fail "request_error" msg
  | None => pass
  end.

Definition ruleStatusCode (resp : Protocols.Response) : ValidationResult :=
  validateStatusCode config (Protocols.StatusCode resp).

Definition ruleResponseTime (resp : Protocols.Response) : ValidationResult :=
  validateResponseTime config (Protocols.ResponseTime resp).

Definition ruleResponseSize (resp : Protocols.Response) : ValidationResult :=
  validateResponseSize config (Protocols.ContentLength resp).

Definition ruleBodyContains (resp : Protocols.Response) : ValidationResult :=
  default pass
    (requiredLoop (Protocols.Body resp) (Config.BodyContains config)).

Definition ruleBodyNotContains (resp : Protocols.Response)
  : ValidationResult :=
  default pass
    (forbiddenLoop (Protocols.Body resp) (Config.BodyNotContains config)).

Definition ruleBodyRegex (resp : Protocols.Response) : ValidationResult :=
  default pass (regexBlock config (Protocols.Body resp)).

Definition ruleBodyJSONPath (resp : Protocols.Response) : ValidationResult :=
  default pass (jsonPathBlock config (Protocols.Body resp)).

Definition ruleHeaders (resp : Protocols.Response) : ValidationResult :=
  validateHeaders config (Protocols.Headers resp).

Definition orderedRules : list (Protocols.Response -> ValidationResult) :=
  [ ruleTransport; ruleStatusCode; ruleResponseTime; ruleResponseSize;
    ruleBodyContains; ruleBodyNotContains; ruleBodyRegex; ruleBodyJSONPath;
    ruleHeaders ].

(** The error kinds each rule can report, in the same order. *)
Definition ruleKinds : list (list string) :=
  [ ["request_error"]; ["status_code"]; ["response_time"; "config_error"];
    ["response_size"]; ["body_content"]; ["body_content"];
    ["body_regex"; "config_error"]; ["body_json_path"];
    ["header_missing"; "header_value"] ].

(** The first result that did not pass, or a pass when all did. *)
Fixpoint firstFailure (results : list ValidationResult) : ValidationResult :=
  match results with
  | [] => pass
  | result :: rest => if Passed result then firstFailure rest else result
  end.

Definition failsWith (kinds : list string) (result : ValidationResult)
  : Prop :=
  Passed result = false -> ErrorType result ∈ kinds.

Lemma requiredLoop_kind body l r :
  requiredLoop body l = Some r ->
  Passed r = false /\ ErrorType r = "body_content".
Proof.
  induction l as [|x l IH]; simpl; [done|].
  destruct (negb (strings_Contains body x)); [|done].
  by intros [= <-].
Qed.

Lemma forbiddenLoop_kind body l r :
  forbiddenLoop body l = Some r ->
  Passed r = false /\ ErrorType r = "body_content".
Proof.
  induction l as [|x l IH]; simpl; [done|].
  destruct (strings_Contains body x); [|done].
  by intros [= <-].
Qed.

Lemma regexBlock_kind body r :
  regexBlock config body = Some r ->
  Passed r = false
  /\ (ErrorType r = "body_regex" \/ ErrorType r = "config_error").
Proof.
  unfold regexBlock. repeat case_match; intros; simplify_eq; simpl; auto.
Qed.

Lemma jsonPathBlock_kind body r :
  jsonPathBlock config body = Some r ->
  Passed r = false /\ ErrorType r = "body_json_path".
Proof.
  unfold jsonPathBlock. repeat case_match; intros; simplify_eq; simpl; auto.
Qed.

Ltac in_kinds := intros; apply list_elem_of_In; simpl; auto.

Lemma headersLoop_kind expected headers :
  failsWith ["header_missing"; "header_value"] (headersLoop expected headers).
Proof.
  unfold failsWith.
  induction expected as [|[k v] l IH]; simpl; [done|].
  repeat case_match; simpl; auto; in_kinds.
Qed.

Lemma validateBody_firstFailure resp :
  validateBody config (Protocols.Body resp)
  = firstFailure [ ruleBodyContains resp; ruleBodyNotContains resp;
                   ruleBodyRegex resp; ruleBodyJSONPath resp ].
Proof.
  unfold validateBody, ruleBodyContains, ruleBodyNotContains, ruleBodyRegex,
    ruleBodyJSONPath. simpl.
  destruct (requiredLoop _ _) as [r|] eqn:H1; simpl.
  { apply requiredLoop_kind in H1 as [-> _]. done. }
  destruct (forbiddenLoop _ _) as [r|] eqn:H2; simpl.
  { apply forbiddenLoop_kind in H2 as [-> _]. done. }
  destruct (regexBlock _ _) as [r|] eqn:H3; simpl.
  { apply regexBlock_kind in H3 as [-> _]. done. }
  destruct (jsonPathBlock _ _) as [r|] eqn:H4; simpl; [|done].
  apply jsonPathBlock_kind in H4 as [-> _]. done.
Qed.

Lemma Validate_firstFailure resp :
  Validate config resp = firstFailure (map (fun rule => rule resp) orderedRules).
Proof.
  unfold Validate. simpl. unfold ruleTransport.
  destruct (Protocols.Error resp) as [msg|]; simpl; [done|].
  fold (ruleStatusCode resp) (ruleResponseTime resp) (ruleResponseSize resp)
    (ruleHeaders resp).
  destruct (Passed (ruleStatusCode resp)); simpl; [|done].
  destruct (Passed (ruleResponseTime resp)); simpl; [|done].
  destruct (Passed (ruleResponseSize resp)); simpl; [|done].
  rewrite validateBody_firstFailure. simpl.
  destruct (Passed (ruleBodyContains resp)) eqn:E1; simpl;
    rewrite ?E1; simpl; [|done].
  destruct (Passed (ruleBodyNotContains resp)) eqn:E2; simpl;
    rewrite ?E2; simpl; [|done].
  destruct (Passed (ruleBodyRegex resp)) eqn:E3; simpl;
    rewrite ?E3; simpl; [|done].
  destruct (Passed (ruleBodyJSONPath resp)) eqn:E4; simpl;
    rewrite ?E4; simpl; [|done].
  destruct (Passed (ruleHeaders resp)); done.
Qed.

Lemma firstFailure_passed results :
  Passed (firstFailure results) = true
  <-> Forall (fun result => Passed result = true) results.
Proof.
  induction results as [|r l IH]; simpl.
  - split; [constructor|done].
  - destruct (Passed r) eqn:Hr.
    + rewrite IH. split; [by constructor|by inversion 1].
    + rewrite Hr. split; [done|]. inversion 1; congruence.
Qed.

Lemma rules_report_their_kinds resp :
  Forall2 (fun rule kinds => failsWith kinds (rule resp))
    orderedRules ruleKinds.
Proof.
  unfold failsWith, orderedRules, ruleKinds.
  repeat match goal with |- Forall2 _ _ _ => constructor end.
  - unfold ruleTransport. destruct (Protocols.Error resp); simpl; [in_kinds|done].
  - unfold ruleStatusCode, validateStatusCode.
    repeat case_match; simpl; try done; in_kinds.
  - unfold ruleResponseTime, validateResponseTime.
    repeat case_match; simpl; try done; in_kinds.
  - unfold ruleResponseSize, validateResponseSize.
    repeat case_match; simpl; try done; in_kinds.
  - unfold ruleBodyContains.
    destruct (requiredLoop _ _) eqn:Hl; simpl; [|done].
    apply requiredLoop_kind in Hl as [_ ->]. in_kinds.
  - unfold ruleBodyNotContains.
    destruct (forbiddenLoop _ _) eqn:Hl; simpl; [|done].
    apply forbiddenLoop_kind in Hl as [_ ->]. in_kinds.
  - unfold ruleBodyRegex.
    destruct (regexBlock _ _) eqn:Hl; simpl; [|done].
    apply regexBlock_kind in Hl as [_ [-> | ->]]; in_kinds.
  - unfold ruleBodyJSONPath.
    destruct (jsonPathBlock _ _) eqn:Hl; simpl; [|done].
    apply jsonPathBlock_kind in Hl as [_ ->]. in_kinds.
  - unfold ruleHeaders, validateHeaders.
    destruct (Config.Headers config); [done|]. apply headersLoop_kind.
Qed.

(** The status rule fails exactly when the allow-list is not empty and
    does not hold the status. *)
Lemma ruleStatusCode_fails resp :
  Passed (ruleStatusCode resp) = false
  <-> Config.StatusCodes config <> []
      /\ Protocols.StatusCode resp ∉ Config.StatusCodes config.
Proof.
  unfold ruleStatusCode, validateStatusCode.
  destruct (Config.StatusCodes config) as [|c l].
  { split; [done|]. by intros [? _]. }
  assert (Hex : existsb (fun expectedCode =>
                           Protocols.StatusCode resp =? expectedCode) (c :: l)
                = true <-> Protocols.StatusCode resp ∈ c :: l).
  { rewrite existsb_exists, list_elem_of_In. split.
    - by intros (x & Hx & ->%Z.eqb_eq).
    - intros Hin. eexists. split; [done|]. apply Z.eqb_refl. }
  destruct (existsb _ (c :: l)).
  - split; [done|]. intros [_ Hn]. destruct Hn. by apply Hex.
  - split; [|done]. intros _. split; [done|].
    intros Hin%Hex. done.
Qed.

(** *** The rules as the specification words them *)

(** The rules (a) to (i) of the specification. *)
Inductive Rule : Type :=
| TransportFailure
| StatusCodeRule
| ResponseTimeRule
| ResponseSizeRule
| BodyContainsRule
| BodyNotContainsRule
| BodyRegexRule
| BodyJSONPathRule
| HeadersRule.

Definition fixedOrder : list Rule :=
  [ TransportFailure; StatusCodeRule; ResponseTimeRule; ResponseSizeRule;
    BodyContainsRule; BodyNotContainsRule; BodyRegexRule; BodyJSONPathRule;
    HeadersRule ].

(** Whether a response violates a rule, and with which error kind, each
    rule worded on its own from the settings and the response:
    (a) a transport failure is present;
    (b) the allow-list is not empty and does not hold the status;
    (c) a maximum is set and the response time exceeds it;
    (d) a minimum is set and the size is below it, or a maximum is set
        and the size is above it;
    (e) some required text is not in the body;
    (f) some forbidden text is in the body;
    (g) an expression is set and the body does not match it;
    (h) a path is set and has no match in the body, an empty body
        having none;
    (i) of the expected headers, in the order in which they are ranged
        over, the first that the response lacks or carries with another
        value is reported missing in the one case and of unexpected
        value in the other.
    A maximum that does not parse and an expression that does not
    compile violate their rule with the kind [config_error]. *)
Definition violation (rule : Rule) (resp : Protocols.Response)
  : option string :=
  let body := Protocols.Body resp in
  let size := Protocols.ContentLength resp in
  let headers := Protocols.Headers resp in
  match rule with
  | TransportFailure =>
      if bool_decide (Protocols.Error resp <> None)
      then Some "request_error" else None
  | StatusCodeRule =>
      if bool_decide (Config.StatusCodes config <> []
                      /\ Protocols.StatusCode resp ∉ Config.StatusCodes config)
      then Some "status_code" else None
  | ResponseTimeRule =>
      if bool_decide (Config.ResponseTimeMax config = "") then None
      else match time_ParseDuration (Config.ResponseTimeMax config) with
           | None => Some "config_error"
           | Some maxTime =>
               if bool_decide (maxTime < Protocols.ResponseTime resp)
               then Some "response_time" else None
           end
  | ResponseSizeRule =>
      if bool_decide
           (0 < Config.MinResponseSize config
            /\ size < Config.MinResponseSize config
            \/ 0 < Config.MaxResponseSize config
               /\ Config.MaxResponseSize config < size)
      then Some "response_size" else None
  | BodyContainsRule =>
      if bool_decide
           (Exists (fun required => strings_Contains body required = false)
              (Config.BodyContains config))
      then Some "body_content" else None
  | BodyNotContainsRule =>
      if bool_decide
           (Exists (fun forbidden => strings_Contains body forbidden = true)
              (Config.BodyNotContains config))
      then Some "body_content" else None
  | BodyRegexRule =>
      if bool_decide (Config.BodyRegex config = "") then None
      else match regexp_MatchString (Config.BodyRegex config) body with
           | None => Some "config_error"
           | Some matched => if matched then None else Some "body_regex"
           end
  | BodyJSONPathRule =>
      if bool_decide (Config.BodyJSONPath config = "") then None
      else if bool_decide
                (body <> ""
                 /\ gjson_Exists body (Config.BodyJSONPath config) = true)
      then None else Some "body_json_path"
  | HeadersRule =>
      match list_find (fun expected => headers !! expected.1
                                       <> Some expected.2)
              (Config.Headers config) with
      | Some (_, (name, _)) =>
          Some (if bool_decide (headers !! name = None)
                then "header_missing" else "header_value")
      | None => None
      end
  end.

(** The kind of the earliest violated rule in the fixed order. *)
Definition earliestViolation (resp : Protocols.Response) : option string :=
  head (omap (fun rule => violation rule resp) fixedOrder).

(** A result of the code agrees with a verdict of the specification. *)
Definition agrees (result : ValidationResult) (verdict : option string)
  : Prop :=
  match verdict with
  | Some kind => Passed result = false /\ ErrorType result = kind
  | None => result = pass
  end.

Lemma requiredLoop_violated body l :
  requiredLoop body l <> None
  <-> Exists (fun required => strings_Contains body required = false) l.
Proof.
  induction l as [|x l IH]; simpl.
  - split; [done|by inversion 1].
  - destruct (strings_Contains body x) eqn:Hx; simpl.
    + rewrite IH. split; [by right|].
      inversion 1; simplify_eq; [congruence|done].
    + split; [by left|done].
Qed.

Lemma forbiddenLoop_violated body l :
  forbiddenLoop body l <> None
  <-> Exists (fun forbidden => strings_Contains body forbidden = true) l.
Proof.
  induction l as [|x l IH]; simpl.
  - split; [done|by inversion 1].
  - destruct (strings_Contains body x) eqn:Hx; simpl.
    + split; [by left|done].
    + rewrite IH. split; [by right|].
      inversion 1; simplify_eq; [congruence|done].
Qed.

Lemma headersLoop_violated expected headers :
  agrees (headersLoop expected headers)
    match list_find (fun kv : string * string => headers !! kv.1 <> Some kv.2)
            expected with
    | Some (_, (name, _)) =>
        Some (if bool_decide (headers !! name = None)
              then "header_missing" else "header_value")
    | None => None
    end.
Proof.
  induction expected as [|[name value] l IH]; [done|].
  cbn [headersLoop list_find]. cbn [fst snd].
  destruct (headers !! name) as [actual|] eqn:Hn.
  - destruct (String.eqb_spec actual value) as [->|Hne]; cbn [negb].
    + rewrite decide_False by (by intros []).
      destruct (list_find _ l) as [[i [n v]]|]; exact IH.
    + rewrite decide_True by congruence. cbn [fmap option_fmap option_map].
      rewrite Hn. by rewrite bool_decide_eq_false_2.
  - rewrite decide_True by done. cbn. rewrite Hn.
    by rewrite bool_decide_eq_true_2.
Qed.

(** Each rule of the code fails exactly when the specification's rule
    is violated, and then with its kind. *)
Lemma rules_agree resp :
  Forall2 (fun rule r => agrees (rule resp) (violation r resp))
    orderedRules fixedOrder.
Proof.
  unfold orderedRules, fixedOrder.
  repeat match goal with |- Forall2 _ _ _ => constructor end.
  - unfold ruleTransport. cbn [violation].
    destruct (Protocols.Error resp).
    + by rewrite bool_decide_eq_true_2.
    + by rewrite bool_decide_eq_false_2 by (by intros []).
  - cbn [violation]. pose proof (ruleStatusCode_fails resp) as Hs.
    case_bool_decide as Hd.
    + apply Hs in Hd. split; [done|].
      unfold ruleStatusCode, validateStatusCode in *.
      destruct (Config.StatusCodes config); [done|].
      by destruct (existsb _ _).
    + unfold ruleStatusCode, validateStatusCode in *.
      destruct (Config.StatusCodes config) as [|c l]; [done|].
      destruct (existsb _ _); [done|]. destruct Hd. by apply Hs.
  - unfold ruleResponseTime, validateResponseTime. cbn [violation].
    destruct (String.eqb_spec (Config.ResponseTimeMax config) "") as [He|He].
    + by rewrite bool_decide_eq_true_2.
    + rewrite bool_decide_eq_false_2 by done.
      destruct (time_ParseDuration _) as [maxTime|]; [|done].
      destruct (Z.ltb_spec maxTime (Protocols.ResponseTime resp)).
      * by rewrite bool_decide_eq_true_2.
      * by rewrite bool_decide_eq_false_2 by lia.
  - unfold ruleResponseSize, validateResponseSize. cbn [violation].
    destruct (Z.ltb_spec 0 (Config.MinResponseSize config));
      destruct (Z.ltb_spec (Protocols.ContentLength resp)
                  (Config.MinResponseSize config)); cbn [andb];
      try (by rewrite bool_decide_eq_true_2 by (left; lia));
      destruct (Z.ltb_spec 0 (Config.MaxResponseSize config));
      destruct (Z.ltb_spec (Config.MaxResponseSize config)
                  (Protocols.ContentLength resp)); cbn [andb];
      try (by rewrite bool_decide_eq_true_2 by (right; lia));
      by rewrite bool_decide_eq_false_2 by lia.
  - unfold ruleBodyContains. cbn [violation].
    pose proof (requiredLoop_violated (Protocols.Body resp)
                  (Config.BodyContains config)) as Hl.
    destruct (requiredLoop _ _) as [r|] eqn:Hr; cbn [default].
    + rewrite bool_decide_eq_true_2 by (by apply Hl).
      by apply requiredLoop_kind in Hr.
    + rewrite bool_decide_eq_false_2; [done|]. intros Hx. by apply Hl in Hx.
  - unfold ruleBodyNotContains. cbn [violation].
    pose proof (forbiddenLoop_violated (Protocols.Body resp)
                  (Config.BodyNotContains config)) as Hl.
    destruct (forbiddenLoop _ _) as [r|] eqn:Hr; cbn [default].
    + rewrite bool_decide_eq_true_2 by (by apply Hl).
      by apply forbiddenLoop_kind in Hr.
    + rewrite bool_decide_eq_false_2; [done|]. intros Hx. by apply Hl in Hx.
  - unfold ruleBodyRegex, regexBlock. cbn [violation].
    destruct (String.eqb_spec (Config.BodyRegex config) "") as [He|He];
      cbn [negb].
    + by rewrite bool_decide_eq_true_2.
    + rewrite bool_decide_eq_false_2 by done.
      destruct (regexp_MatchString _ _) as [[|]|]; done.
  - unfold ruleBodyJSONPath, jsonPathBlock, validateJSONPath.
    cbn [violation].
    destruct (String.eqb_spec (Config.BodyJSONPath config) "") as [He|He];
      cbn [negb].
    + by rewrite bool_decide_eq_true_2.
    + rewrite bool_decide_eq_false_2 by done.
      destruct (String.eqb_spec (Protocols.Body resp) "") as [Hb|Hb];
        cbn [negb default].
      * by rewrite bool_decide_eq_false_2 by (by intros [? _]).
      * destruct (gjson_Exists _ _) eqn:Hg; cbn [negb default].
        -- by rewrite bool_decide_eq_true_2.
        -- by rewrite bool_decide_eq_false_2 by (intros [_ ?]; congruence).
  - unfold ruleHeaders, validateHeaders. cbn [violation].
    pose proof (headersLoop_violated (Config.Headers config)
                  (Protocols.Headers resp)) as Hh.
    by destruct (Config.Headers config).
Qed.

Lemma firstFailure_earliest {A} (results : list ValidationResult)
  (rules : list A) (verdict : A -> option string) :
  Forall2 (fun result r => agrees result (verdict r)) results rules ->
  agrees (firstFailure results) (head (omap verdict rules)).
Proof.
  induction 1 as [|result r results rules Hr _ IH]; [done|].
  cbn [firstFailure omap list_omap]. unfold agrees in Hr.
  destruct (verdict r) as [kind|].
  - destruct Hr as [Hp Hk]. rewrite Hp. by split.
  - rewrite Hr. exact IH.
Qed.

Definition allow200 : Config.ValidationConfig :=
  {| Config.StatusCodes := [200]; Config.ResponseTimeMax := "";
     Config.BodyContains := ["ok"]; Config.BodyNotContains := [];
     Config.BodyRegex := ""; Config.BodyJSONPath := "";
     Config.Headers := []; Config.MinResponseSize := 0;
     Config.MaxResponseSize := 0 |}.

(** C7. [Validate] returns the result of the first rule that fails in
    the order transport failure, status code, response time, response
    size, required substrings, forbidden substrings, regular
    expression, JSON path, headers, and a pass when none fails; each
    rule reports an error kind of its own; a failing status rule on a
    response without transport failure decides the result whatever the
    later rules would say; an empty allow-list lets every status pass.
    Each rule of the code fails exactly when the rule as the
    specification words it is violated, and with its kind, so that the
    result carries the kind of the earliest violated rule and is a pass
    when no rule is violated.
    A response with status 500 and an empty body, checked against the
    allow-list [200] and the required substring "ok", is reported as
    [status_code]. *)
Theorem validate_reports_first_failing_rule (resp : Protocols.Response) :
  Validate config resp
  = firstFailure (map (fun rule => rule resp) orderedRules)
  /\ Forall2 (fun rule kinds => failsWith kinds (rule resp))
       orderedRules ruleKinds
  /\ (Passed (Validate config resp) = true
      <-> Forall (fun rule => Passed (rule resp) = true) orderedRules)
  /\ (Protocols.Error resp = None ->
      Passed (ruleStatusCode resp) = false ->
      Validate config resp = ruleStatusCode resp
      /\ ErrorType (Validate config resp) = "status_code")
  /\ (Config.StatusCodes config = [] -> Passed (ruleStatusCode resp) = true)
  /\ (Passed (ruleStatusCode resp) = false
      <-> Config.StatusCodes config <> []
          /\ Protocols.StatusCode resp ∉ Config.StatusCodes config)
  /\ ErrorType (Validate allow200 (response 500 (ms 40) None))
     = "status_code"
  /\ Forall2 (fun rule r => agrees (rule resp) (violation r resp))
       orderedRules fixedOrder
  /\ agrees (Validate config resp) (earliestViolation resp).
Proof.
  split; [apply Validate_firstFailure|].
  split; [apply rules_report_their_kinds|].
  split.
  { rewrite Validate_firstFailure, firstFailure_passed, Forall_map.
    reflexivity. }
  split.
  { intros He Hs. rewrite Validate_firstFailure. simpl.
    unfold ruleTransport. rewrite He. simpl. rewrite Hs.
    split; [done|].
    pose proof (rules_report_their_kinds resp) as Hk.
    inversion Hk as [|? ? ? ? _ Hk']. inversion Hk' as [|? ? ? ? Hst _].
    specialize (Hst Hs). by apply list_elem_of_singleton in Hst. }
  split.
  { intros Hc. destruct (Passed (ruleStatusCode resp)) eqn:Hs; [done|].
    apply ruleStatusCode_fails in Hs as [Hs _]. done. }
  split; [apply ruleStatusCode_fails|].
  split; [reflexivity|].
  split; [apply rules_agree|].
  rewrite Validate_firstFailure. unfold earliestViolation.
  apply firstFailure_earliest. apply Forall2_fmap_l. apply rules_agree.
Qed.

End ValidatorClaims.

(** ** The HTTP client *)

Section ClientClaims.

Import Go HTTP Examples.

(** The exchange went through: the request was built, the transport
    answered and the body was read. *)
Definition completed (x : Exchange) : Prop :=
  newRequestError x = None
  /\ (exists httpResp, doResult x = inl httpResp)
  /\ (exists body, readAllResult x = inl body).

(** C10. Whatever the request and whatever the outside world answers,
    [Execute] returns a response and a nil error.  The response carries
    an error exactly when building the request, the transport or the
    reading of the body failed, and it then has status 0, no headers,
    an empty body and length 0.  The worker, which hands the returned
    pointer to [RecordResponse] without a check, therefore never
    dereferences nil. *)
Theorem execute_returns_response_and_nil_error `{Lib} (c : HTTPClient)
  (x : Exchange) (req : Protocols.Request) :
  exists resp c',
    Execute c x req = ((Some resp, None), c')
    /\ (Protocols.Error resp = None <-> completed x)
    /\ (Protocols.Error resp <> None ->
        Protocols.StatusCode resp = 0
        /\ Protocols.Headers resp = ∅
        /\ Protocols.Body resp = ""
        /\ Protocols.ContentLength resp = 0)
    /\ (forall w collector,
          Engine.executeRequest w (fst (Execute c x req)) collector
          = Some ({| Engine.id := Engine.id w;
                     Engine.engine := Engine.engine w;
                     Engine.requests := add64 (Engine.requests w) 1 |},
                  Engine.RecordResponse (Engine.engine w) resp collector)).
Proof.
  unfold Execute, createHTTPRequest, completed.
  destruct (newRequestError x) as [e0|] eqn:H0.
  { eexists _, _. split; [reflexivity|]. simpl.
    repeat split; try done. by intros [? _]. }
  destruct (doResult x) as [httpResp|e1] eqn:H1.
  2: { eexists _, _. split; [reflexivity|]. simpl.
       repeat split; try done. by intros (_ & [? ?] & _). }
  destruct (readAllResult x) as [body|e2] eqn:H2.
  2: { eexists _, _. split; [reflexivity|]. simpl.
       repeat split; try done. by intros (_ & _ & [? ?]). }
  eexists _, _. split; [reflexivity|]. simpl.
  repeat split; eauto; done.
Qed.

End ClientClaims.

(** ** The order of events in a run *)

Section RunClaims.

Import Go Engine Examples.

Context `{Lib}.

(** The engine is past its [select]; past [Collector.Stop]; past
    [wg.Wait]. *)
Definition selected (p : EnginePC) : bool :=
  match p with
  | AtCollectorStart | AtSpawn | AtSelect => false
  | _ => true
  end.

Definition stopped (p : EnginePC) : bool :=
  match p with
  | AtCollectorStart | AtSpawn | AtSelect | AtCollectorStop => false
  | _ => true
  end.

Definition joined (p : EnginePC) : bool :=
  match p with
  | AtClose | AtGetSummary | Finished => true
  | _ => false
  end.

(** The events that follow the join. *)
Definition afterJoin (ev : Event) : Prop :=
  ev = EvProtocolClose \/ ev = EvGetSummary.

(** The events of a worker. *)
Definition recording (ev : Event) : Prop :=
  exists worker, ev = EvRecordValidation worker \/ ev = EvRecordResponse worker.

Record invariant (st : RunState) : Prop := {
  inv_select :
    selected (pc st) = true -> ctxDone st = true \/ timerFired st = true;
  inv_stop : (EvCollectorStop ∈ trace st) <-> stopped (pc st) = true;
  inv_unjoined : joined (pc st) = false -> EvWorkersJoined ∉ trace st;
  inv_joined :
    joined (pc st) = true ->
    allTerminated (workers st)
    /\ exists tr1 tr2,
         trace st = tr1 ++ EvWorkersJoined :: tr2
         /\ (EvWorkersJoined ∉ tr1)
         /\ (EvCollectorStop ∈ tr1)
         /\ Forall afterJoin tr2
}.

Lemma allTerminated_lookup ws (i : nat) w p :
  allTerminated ws -> ws !! i = Some (w, p) -> p = Terminated.
Proof.
  intros Hall Hi. unfold allTerminated in Hall.
  rewrite Forall_lookup in Hall. apply (Hall i (w, p) Hi).
Qed.

(** While a worker is still in its loop the engine has not passed the
    join. *)
Lemma running_worker_unjoined st (i : nat) w p :
  invariant st -> workers st !! i = Some (w, p) -> p <> Terminated ->
  joined (pc st) = false.
Proof.
  intros Hinv Hi Hp. destruct (joined (pc st)) eqn:Hj; [|done].
  destruct (inv_joined st Hinv Hj) as [Hall _].
  destruct Hp. by eapply allTerminated_lookup.
Qed.

Lemma invariant_initial ws : invariant (initial ws).
Proof.
  split; simpl; try done.
  - split; [by intros ?%elem_of_nil|done].
  - intros _. apply not_elem_of_nil.
Qed.

Lemma eventsOf_recording worker op ev :
  ev ∈ eventsOf worker op -> recording ev.
Proof.
  destruct op; simpl; intros Hin;
    try (by apply elem_of_nil in Hin);
    apply list_elem_of_singleton in Hin as ->; eexists; eauto.
Qed.

Ltac trace_auto :=
  simpl; rewrite ?elem_of_app, ?list_elem_of_singleton;
  intuition (try discriminate; try congruence; eauto).

(** A step of a worker that is still in its loop appends events of
    that worker only, and leaves the engine where it is. *)
Lemma invariant_worker st ws' c' evs :
  invariant st -> joined (pc st) = false ->
  Forall recording evs ->
  invariant {| pc := pc st; ctxDone := ctxDone st;
               timerFired := timerFired st; workers := ws';
               collector := c'; trace := trace st ++ evs |}.
Proof.
  intros [Hsel Hstop Hunj Hj] Hu Hevs.
  assert (Hno : forall ev, ev ∈ evs ->
                  ev <> EvCollectorStop /\ ev <> EvWorkersJoined).
  { intros ev Hin. rewrite Forall_forall in Hevs.
    destruct (Hevs ev Hin) as [worker [-> | ->]]; by split. }
  split; simpl.
  - done.
  - rewrite elem_of_app, <- Hstop. split; [|by left].
    intros [?|Hin]; [done|]. by destruct (Hno _ Hin).
  - intros _. rewrite elem_of_app. intros [Hin|Hin]; [by apply Hunj|].
    by destruct (Hno _ Hin).
  - congruence.
Qed.

Lemma invariant_step st st' :
  invariant st -> step st st' -> invariant st'.
Proof.
  intros Hinv Hstep.
  pose proof Hinv as [Hsel Hstop Hunj Hj].
  inversion Hstep as
    [ st0
    | st0 now Hpc
    | st0 Hpc
    | st0 Hpc
    | st0 Hpc Hdone
    | st0 now Hpc
    | st0 Hpc Hall
    | st0 Hpc
    | st0 Hpc
    | st0 i w Hi
    | st0 i w Hi
    | st0 i w resp Hi
    | st0 i w op ops Hi
    | st0 i w Hi ]; subst st0; subst st';
    try rewrite Hpc in *.
  - (* the context is cancelled *)
    split; trace_auto.
  - (* Collector.Start *)
    split; trace_auto.
  - (* the workers are launched *)
    split; trace_auto.
  - (* the timer fires *)
    split; trace_auto.
  - (* the select returns *)
    split; trace_auto.
  - (* Collector.Stop *)
    split; trace_auto.
  - (* wg.Wait returns *)
    split; [trace_auto..|]. intros _. split; [done|].
    exists (trace st), []. split; [done|]. split; [by apply Hunj|].
    split; [by apply Hstop|constructor].
  - (* protocol.Close *)
    destruct (Hj eq_refl) as (Hall & tr1 & tr2 & Htr & Hn1 & Hs1 & Hf).
    split; [trace_auto..|]. intros _. split; [done|].
    exists tr1, (tr2 ++ [EvProtocolClose]). simpl.
    rewrite Htr, <- app_assoc. split; [done|]. split; [done|].
    split; [done|]. apply Forall_app. split; [done|].
    constructor; [by left|constructor].
  - (* GetSummary *)
    destruct (Hj eq_refl) as (Hall & tr1 & tr2 & Htr & Hn1 & Hs1 & Hf).
    split; [trace_auto..|]. intros _. split; [done|].
    exists tr1, (tr2 ++ [EvGetSummary]). simpl.
    rewrite Htr, <- app_assoc. split; [done|]. split; [done|].
    split; [done|]. apply Forall_app. split; [done|].
    constructor; [by right|constructor].
  - (* a worker runs its select *)
    rewrite <- (app_nil_r (trace st)).
    apply invariant_worker; [done| |constructor].
    by eapply (running_worker_unjoined st i w AtLoopHead).
  - (* a worker counts its request, or returns at the cap *)
    rewrite <- (app_nil_r (trace st)).
    apply invariant_worker; [done| |constructor].
    by eapply (running_worker_unjoined st i w InLoopBody).
  - (* the protocol client returns *)
    rewrite <- (app_nil_r (trace st)).
    apply invariant_worker; [done| |constructor].
    by eapply (running_worker_unjoined st i w InFlight).
  - (* an update of the collector *)
    apply invariant_worker; [done| |].
    + by eapply (running_worker_unjoined st i w (Recording (op :: ops))).
    + apply Forall_forall. intros ev. apply eventsOf_recording.
  - (* LoadEngine.RecordResponse returns *)
    rewrite <- (app_nil_r (trace st)).
    apply invariant_worker; [done| |constructor].
    by eapply (running_worker_unjoined st i w (Recording [])).
Qed.

Lemma reachable_invariant e numCPU st :
  reachable e numCPU st -> invariant st.
Proof.
  induction 1 as [ws _|st st' _ IH Hstep].
  - apply invariant_initial.
  - by eapply invariant_step.
Qed.

(** An entry that occurs once splits a list in one way only. *)
Lemma split_at_unique {A} (x : A) (l1 l2 k1 k2 : list A) :
  l1 ++ x :: l2 = k1 ++ x :: k2 -> x ∉ k1 -> x ∉ k2 -> l1 = k1 /\ l2 = k2.
Proof.
  revert k1. induction l1 as [|y l1 IH]; intros [|z k1] Heq Hk1 Hk2;
    simplify_eq/=.
  - done.
  - destruct Hk1. apply elem_of_cons. by left.
  - destruct Hk2. rewrite elem_of_app, elem_of_cons. auto.
  - destruct (IH k1) as [-> ->]; auto.
    intros Hin. apply Hk1. apply elem_of_cons. by right.
Qed.

Lemma stopped_selected p : stopped p = true -> selected p = true.
Proof. by destruct p. Qed.

Lemma afterJoin_not_join tr : Forall afterJoin tr -> EvWorkersJoined ∉ tr.
Proof.
  intros Hf Hin. rewrite Forall_forall in Hf.
  destruct (Hf _ Hin); discriminate.
Qed.

(** The grace period of the engine's [select] wraps around for a
    duration within five seconds of the largest one: the timer is then
    set to a negative time and fires at once, long before the context
    of the run is done. *)
Lemma grace_period_wraps :
  add64 (MaxInt64 - Second) (5 * Second) < 0.
Proof. reflexivity. Qed.

(** C8 (as the code has it). In every state a run can reach:
    [Collector.Stop] has been called only if the engine's [select] has
    returned, the shared context being done or the grace timer having
    fired; and if the engine has joined its workers, then
    [Collector.Stop] was called before the join, every worker has
    returned, and the only events after the join are the release of the
    protocol client and the reading of the summary, so that no response
    or validation is recorded after the join.  The engine stops the
    collector first and waits for the workers afterwards. *)
Theorem collector_stop_precedes_join e numCPU st :
  reachable e numCPU st ->
  ((EvCollectorStop ∈ trace st) ->
   ctxDone st = true \/ timerFired st = true)
  /\ (forall tr1 tr2,
        trace st = tr1 ++ EvWorkersJoined :: tr2 ->
        (EvCollectorStop ∈ tr1)
        /\ allTerminated (workers st)
        /\ Forall afterJoin tr2).
Proof.
  intros Hr. apply reachable_invariant in Hr as [Hsel Hstop Hunj Hj].
  split.
  - intros Hin. by apply Hsel, stopped_selected, Hstop.
  - intros tr1 tr2 Htr.
    destruct (joined (pc st)) eqn:Hp.
    + destruct (Hj eq_refl) as (Hall & k1 & k2 & Hk & Hn1 & Hs1 & Hf).
      rewrite Hk in Htr.
      destruct (split_at_unique EvWorkersJoined tr1 tr2 k1 k2) as [-> ->];
        auto using afterJoin_not_join.
    + destruct (Hunj eq_refl). rewrite Htr, elem_of_app, elem_of_cons. auto.
Qed.

End RunClaims.

(** ** A run with one worker *)

Section RunExamples.

Import Go Engine Examples.

Definition soloEngine : LoadEngine := engineFor steady30.

Definition solo : Worker := NewWorker 0 soloEngine.

Definition soloAfterOne : Worker :=
  {| id := 0; engine := soloEngine; requests := 1 |}.

Definition deadline : Z := 30 * Second.

(** The worker passes its [select] just before the deadline and sends
    its request; the context expires; the engine leaves its own
    [select] and stops the collector; only then does the response
    arrive, and the worker records it. *)
Definition lateRecord : RunState :=
  {| pc := AtWait;
     ctxDone := true;
     timerFired := false;
     workers := [(soloAfterOne, AtLoopHead)];
     collector :=
       RecordResponse (H := noLib) soloEngine (response 200 (ms 12) None)
         (Metrics.Stop deadline (Metrics.Start 0 Metrics.NewCollector));
     trace := [EvCollectorStart; EvCollectorStop;
               EvRecordValidation 0; EvRecordResponse 0] |}.

(** The same run, carried to its end. *)
Definition completedRun : RunState :=
  {| pc := Finished;
     ctxDone := true;
     timerFired := false;
     workers := [(soloAfterOne, Terminated)];
     collector := collector lateRecord;
     trace := [EvCollectorStart; EvCollectorStop;
               EvRecordValidation 0; EvRecordResponse 0;
               EvWorkersJoined; EvProtocolClose; EvGetSummary] |}.

(** A run in which the grace timer fires first: the collector is
    stopped while the context is not done and the worker has not yet
    looked at it. *)
Definition stoppedByTimer : RunState :=
  {| pc := AtWait;
     ctxDone := false;
     timerFired := true;
     workers := [(solo, AtLoopHead)];
     collector := Metrics.Stop 10 (Metrics.Start 0 Metrics.NewCollector);
     trace := [EvCollectorStart; EvCollectorStop] |}.

(** Extend a reachable run by one step, which [tac] justifies. *)
Ltac advance R tac :=
  eapply (reachable_step (H := noLib)) in R; [|solve [tac]];
  cbn [pc ctxDone timerFired workers collector trace] in R.

(** The updates of the collector that a worker still has to make, one
    after the other. *)
Ltac updates R k wk :=
  repeat (eapply (reachable_step (H := noLib)) in R;
          [|solve [eapply step_worker_update with (i := k) (w := wk);
                   cbv; reflexivity]];
          cbn [pc ctxDone timerFired workers collector trace] in R).

Lemma solo_start :
  reachable (H := noLib) soloEngine 1 (initial [solo]).
Proof. by apply reachable_initial. Qed.

Lemma lateRecord_reachable :
  reachable (H := noLib) soloEngine 1 lateRecord.
Proof.
  pose proof solo_start as R.
  advance R ltac:(by apply step_collector_start with (now := 0)).
  advance R ltac:(by apply step_spawn).
  advance R ltac:(by apply step_worker_select with (i := 0%nat) (w := solo)).
  advance R ltac:(by apply step_worker_issue with (i := 0%nat) (w := solo)).
  advance R ltac:(apply step_cancel).
  advance R ltac:(apply step_select; [done|by left]).
  advance R ltac:(by apply step_collector_stop with (now := deadline)).
  advance R ltac:(
    by apply step_worker_response
         with (i := 0%nat) (w := soloAfterOne)
              (resp := response 200 (ms 12) None)).
  updates R 0%nat soloAfterOne.
  advance R ltac:(
    by apply step_worker_recorded with (i := 0%nat) (w := soloAfterOne)).
  exact R.
Qed.

Lemma completedRun_reachable :
  reachable (H := noLib) soloEngine 1 completedRun.
Proof.
  pose proof lateRecord_reachable as R.
  advance R ltac:(
    by apply step_worker_select with (i := 0%nat) (w := soloAfterOne)).
  advance R ltac:(apply step_wait; [done|by constructor]).
  advance R ltac:(by apply step_close).
  advance R ltac:(by apply step_get_summary).
  exact R.
Qed.

Lemma stoppedByTimer_reachable :
  reachable (H := noLib) soloEngine 1 stoppedByTimer.
Proof.
  pose proof solo_start as R.
  advance R ltac:(by apply step_collector_start with (now := 0)).
  advance R ltac:(by apply step_spawn).
  advance R ltac:(by apply step_timer).
  advance R ltac:(apply step_select; [done|by right]).
  advance R ltac:(by apply step_collector_stop with (now := 10)).
  exact R.
Qed.

(** C8 fails as stated: in this run the collector is stopped while the
    worker is still inside its loop, and the worker's validation and
    response are recorded after the stop. *)
Lemma response_recorded_after_collector_stop :
  reachable (H := noLib) soloEngine 1 lateRecord
  /\ trace lateRecord
     = [EvCollectorStart; EvCollectorStop] ++
       [EvRecordValidation 0; EvRecordResponse 0]
  /\ snd <$> workers lateRecord = [AtLoopHead]
  /\ Metrics.endTime (collector lateRecord) = Some deadline
  /\ Metrics.totalRequests (collector lateRecord) = 1.
Proof.
  split; [apply lateRecord_reachable|]. repeat split.
Qed.

Lemma collector_stop_precedes_join_witness :
  (EvCollectorStop
     ∈ [EvCollectorStart; EvCollectorStop;
        EvRecordValidation 0; EvRecordResponse 0])
  /\ allTerminated (workers completedRun)
  /\ Forall afterJoin [EvProtocolClose; EvGetSummary].
Proof.
  exact (proj2 (collector_stop_precedes_join (H := noLib) soloEngine 1
                  completedRun completedRun_reachable)
           [EvCollectorStart; EvCollectorStop;
            EvRecordValidation 0; EvRecordResponse 0]
           [EvProtocolClose; EvGetSummary] eq_refl).
Defined.

End RunExamples.

(** ** Text replacement and the helpers built on it *)

Section StringFacts.

Import Go Strings.

Lemma prefix_app_l a b s :
  String.prefix (a +:+ b) s = true -> String.prefix a s = true.
Proof.
  revert s. induction a as [|c a IH]; intros s; [by destruct s|].
  destruct s as [|c' s]; simpl; [done|].
  destruct (Ascii.ascii_dec c c'); [apply IH|done].
Qed.

Lemma strings_Contains_app_l s a b :
  strings_Contains s (a +:+ b) = true -> strings_Contains s a = true.
Proof.
  induction s as [|c s IH]; cbn [strings_Contains].
  - rewrite !orb_false_r. apply prefix_app_l.
  - intros [Hp|Hc]%orb_true_iff; apply orb_true_iff.
    + left. by apply prefix_app_l with b.
    + right. by apply IH.
Qed.

(** A text that holds no occurrence of [old] is left as it is. *)
Lemma ReplaceAll_absent s old new :
  strings_Contains s old = false -> ReplaceAll s old new = s.
Proof.
  unfold ReplaceAll. induction s as [|c s IH]; [done|].
  cbn [strings_Contains replaceFrom].
  intros [Hp Hc]%orb_false_iff. rewrite Hp. f_equal. by apply IH.
Qed.

Lemma ReplaceAll_absent_prefix s a b new :
  strings_Contains s a = false -> ReplaceAll s (a +:+ b) new = s.
Proof.
  intros Ha. apply ReplaceAll_absent.
  destruct (strings_Contains s (a +:+ b)) eqn:E; [|done].
  apply strings_Contains_app_l in E. congruence.
Qed.

Lemma length_append (a b : string) :
  String.length (a +:+ b) = (String.length a + String.length b)%nat.
Proof. induction a as [|c a IH]; simpl; [done|by rewrite IH]. Qed.

Lemma length_substring_0 (n : nat) s :
  (n <= String.length s)%nat -> String.length (String.substring 0 n s) = n.
Proof.
  revert s. induction n as [|n IH]; intros s Hn; [by destruct s|].
  destruct s as [|c s]; simpl in *; [lia|]. rewrite IH; lia.
Qed.

End StringFacts.

Section EnvironmentFacts.

Import Go Strings Environment.

(** X1 (environment.go, Set and Get). A variable that was set is found with
    the value set, whatever the process environment holds under that
    name, and setting it changes the lookup of no other name. *)
Theorem set_variable_is_found_first (os : OS) (e : Environment)
  (key value key' : string) :
  Get os (Set_ key value e) key'
  = if decide (key' = key) then (value, true) else Get os e key'.
Proof.
  unfold Get, Set_. simpl. destruct (decide (key' = key)) as [->|Hne].
  - by rewrite lookup_insert_eq.
  - by rewrite lookup_insert_ne.
Qed.

Lemma ReplaceAll_pattern_absent result name value :
  strings_Contains result "{{env." = false ->
  ReplaceAll result (pattern name) value = result.
Proof. apply ReplaceAll_absent_prefix. Qed.

Lemma expandCustom_absent entries result :
  strings_Contains result "{{env." = false ->
  expandCustom entries result = result.
Proof.
  intros Hno. unfold expandCustom.
  induction entries as [|kv entries IH]; [done|]. cbn [foldl].
  by rewrite ReplaceAll_pattern_absent.
Qed.

Lemma expandSystem_absent environ result :
  strings_Contains result "{{env." = false ->
  expandSystem environ result = result.
Proof.
  intros Hno. unfold expandSystem.
  induction environ as [|env rest IH]; [done|]. cbn [foldl].
  destruct (cutEquals env) as [[name value]|]; [|done].
  by rewrite ReplaceAll_pattern_absent.
Qed.

(** X2 (environment.go, ExpandVariables). A template without the text
    ["{{env."] comes back as it is, for every set of custom variables,
    every order in which they are ranged over and every process
    environment. *)
Theorem template_without_placeholder_is_kept (os : OS)
  (entries : list (string * string)) (template : string) :
  strings_Contains template "{{env." = false ->
  ExpandVariables os entries template = template.
Proof.
  intros Hno. unfold ExpandVariables.
  by rewrite expandCustom_absent, expandSystem_absent.
Qed.

Lemma loadAll_app l1 l2 vars :
  loadAll (l1 ++ l2) vars = loadAll l2 (loadAll l1 vars).
Proof. apply foldl_app. Qed.

Lemma loadAll_found environ vars name value env :
  env ∈ environ -> cutEquals env = Some (name, value) ->
  exists v env', env' ∈ environ /\ cutEquals env' = Some (name, v)
                 /\ loadAll environ vars !! name = Some v.
Proof.
  revert vars. induction environ as [|e0 rest IH] using rev_ind;
    intros vars Hin Hcut; [by apply elem_of_nil in Hin|].
  rewrite loadAll_app. simpl.
  destruct (cutEquals e0) as [[n0 v0]|] eqn:E0.
  - destruct (decide (n0 = name)) as [->|Hne].
    + exists v0, e0. rewrite lookup_insert_eq.
      split; [apply elem_of_app; right; by apply list_elem_of_singleton|done].
    + apply elem_of_app in Hin as [Hin|Hin%list_elem_of_singleton];
        [|congruence].
      destruct (IH vars Hin Hcut) as (v & env' & Hin' & Hc' & Hl).
      exists v, env'. rewrite lookup_insert_ne by done.
      split; [apply elem_of_app; by left|done].
  - apply elem_of_app in Hin as [Hin|Hin%list_elem_of_singleton];
      [|congruence].
    destruct (IH vars Hin Hcut) as (v & env' & Hin' & Hc' & Hl).
    exists v, env'. split; [apply elem_of_app; by left|done].
Qed.

(** X3 (environment.go, LoadFromFile and Get). A successful load copies the
    process environment: every name that has an entry in it at that
    moment is found afterwards with a value it had in one of its
    entries, whatever the process environment holds when [Get] is
    called.  A load that fails leaves the variables as they were. *)
Theorem load_copies_the_process_environment (os : OS) (filename : string)
  (e : Environment) :
  (forall env name value,
     env ∈ Environ os -> cutEquals env = Some (name, value) ->
     exists v env',
       env' ∈ Environ os /\ cutEquals env' = Some (name, v)
       /\ forall os',
            Get os' (snd (LoadFromFile true None os filename e)) name
            = (v, true))
  /\ (forall err, snd (LoadFromFile true (Some err) os filename e) = e)
  /\ (forall loadError, snd (LoadFromFile false loadError os filename e) = e).
Proof.
  split; [|done].
  intros env name value Hin Hcut.
  destruct (loadAll_found (Environ os) (variables e) name value env Hin Hcut)
    as (v & env' & Hin' & Hc' & Hl).
  exists v, env'. split; [done|]. split; [done|].
  intros os'. unfold Get. simpl. by rewrite Hl.
Qed.

End EnvironmentFacts.

Section StringUtilsFacts.

Import Go Strings StringUtils.

(** X4 (pkg/utils, ExpandTemplate). A template without the text ["{{"]
    comes back as it is, whatever the variables. *)
Theorem template_without_braces_is_kept (template : string)
  (entries : list (string * string)) :
  strings_Contains template "{{" = false ->
  ExpandTemplate template entries = template.
Proof.
  intros Hno. unfold ExpandTemplate.
  induction entries as [|kv entries IH]; [done|]. simpl.
  by rewrite ReplaceAll_absent_prefix.
Qed.

Lemma requiredLoop_ContainsAll body l :
  Validation.requiredLoop body l = None <-> ContainsAll body l = true.
Proof.
  induction l as [|x l IH]; simpl; [done|].
  destruct (strings_Contains body x); simpl; [done|]. split; discriminate.
Qed.

Lemma forbiddenLoop_ContainsAny body l :
  Validation.forbiddenLoop body l = None <-> ContainsAny body l = false.
Proof.
  induction l as [|x l IH]; simpl; [done|].
  destruct (strings_Contains body x); simpl; [|done]. split; discriminate.
Qed.

Lemma requiredLoop_fails body l r :
  Validation.requiredLoop body l = Some r -> Validation.Passed r = false.
Proof.
  induction l as [|x l IH]; simpl; [done|].
  destruct (strings_Contains body x); simpl; [done|]. by intros [= <-].
Qed.

Lemma forbiddenLoop_fails body l r :
  Validation.forbiddenLoop body l = Some r -> Validation.Passed r = false.
Proof.
  induction l as [|x l IH]; simpl; [done|].
  destruct (strings_Contains body x); simpl; [|done]. by intros [= <-].
Qed.

(** X5 (validateBody against ContainsAll and ContainsAny). When neither a
    regular expression nor a JSON path is configured, the body rule
    passes exactly when the body contains all the required texts
    and none of the forbidden ones. *)
Theorem body_rule_is_containment `{Lib} (config : Config.ValidationConfig)
  (body : string) :
  Config.BodyRegex config = "" -> Config.BodyJSONPath config = "" ->
  Validation.Passed (Validation.validateBody config body)
  = ContainsAll body (Config.BodyContains config)
    && negb (ContainsAny body (Config.BodyNotContains config)).
Proof.
  intros Hre Hjp. unfold Validation.validateBody, Validation.regexBlock,
    Validation.jsonPathBlock. rewrite Hre, Hjp. simpl.
  destruct (Validation.requiredLoop body (Config.BodyContains config))
    as [r|] eqn:Er.
  - rewrite (requiredLoop_fails _ _ _ Er).
    destruct (ContainsAll body (Config.BodyContains config)) eqn:Ea; [|done].
    apply requiredLoop_ContainsAll in Ea. congruence.
  - apply requiredLoop_ContainsAll in Er. rewrite Er. simpl.
    destruct (Validation.forbiddenLoop body (Config.BodyNotContains config))
      as [r|] eqn:Ef.
    + rewrite (forbiddenLoop_fails _ _ _ Ef).
      destruct (ContainsAny body (Config.BodyNotContains config)) eqn:Ea;
        [done|].
      apply forbiddenLoop_ContainsAny in Ea. congruence.
    + apply forbiddenLoop_ContainsAny in Ef. by rewrite Ef.
Qed.

(** X6 (pkg/utils, TruncateString). As long as [maxLen - 3] does not wrap
    around, the call panics exactly when the text is longer than
    [maxLen] and [maxLen] is below 3; a result is never longer than
    [maxLen]; a text that fits is returned as it is and a longer one
    is cut to [maxLen] bytes ending in three dots. *)
Theorem TruncateString_fits (s : string) (maxLen : Z) :
  MinInt64 + 3 <= maxLen <= MaxInt64 ->
  (TruncateString s maxLen = None
   <-> maxLen < Z.of_nat (String.length s) /\ maxLen < 3)
  /\ (forall r, TruncateString s maxLen = Some r ->
        Z.of_nat (String.length r) <= maxLen
        /\ (Z.of_nat (String.length s) <= maxLen -> r = s)
        /\ (maxLen < Z.of_nat (String.length s) ->
              Z.of_nat (String.length r) = maxLen
              /\ exists kept, r = kept +:+ "..."
                              /\ String.prefix kept s = true)).
Proof.
  intros Hm. unfold TruncateString, sliceTo, sub64.
  assert (Hb : MinInt64 = -9223372036854775808) by reflexivity.
  assert (Hx : MaxInt64 = 9223372036854775807) by reflexivity.
  rewrite wrap64_small by lia.
  destruct (Z.leb_spec (Z.of_nat (String.length s)) maxLen) as [Hle|Hgt].
  { split; [split; [done|lia]|]. intros r [= <-].
    split; [done|]. split; [done|lia]. }
  destruct (Z.ltb_spec (maxLen - 3) 0) as [Hneg|Hnn]; simpl.
  { split; [split; [lia|done]|]. done. }
  destruct (Z.ltb_spec (Z.of_nat (String.length s)) (maxLen - 3)); [lia|].
  simpl. split; [split; [done|lia]|].
  intros r [= <-].
  assert (Hl : String.length (String.substring 0 (Z.to_nat (maxLen - 3)) s)
               = Z.to_nat (maxLen - 3))
    by (apply length_substring_0; lia).
  rewrite length_append, Hl. simpl.
  split; [lia|]. split; [lia|]. intros _. split; [lia|].
  eexists. split; [done|].
  apply String.prefix_correct. by rewrite Hl.
Qed.

End StringUtilsFacts.

Section PlaceholderFacts.

Import Stdlib.Strings.Ascii.
Import Go Strings Environment.

Definition noOpen (s : string) : Prop := strings_Contains s "{" = false.
Definition noClose (s : string) : Prop := strings_Contains s "}" = false.

Lemma prefix_single c c' s :
  String.prefix (String c "") (String c' s) = bool_decide (c = c').
Proof.
  simpl. destruct (Ascii.ascii_dec c c') as [->|Hne].
  - rewrite bool_decide_eq_true_2 by done. by destruct s.
  - by rewrite bool_decide_eq_false_2.
Qed.

Lemma strings_Contains_single_cons c c' s :
  strings_Contains (String c' s) (String c "")
  = bool_decide (c = c') || strings_Contains s (String c "").
Proof. cbn [strings_Contains]. by rewrite prefix_single. Qed.

Lemma strings_Contains_single_app a b c :
  strings_Contains (a +:+ b) (String c "")
  = strings_Contains a (String c "") || strings_Contains b (String c "").
Proof.
  induction a as [|c' a IH]; [done|].
  change (String c' a +:+ b) with (String c' (a +:+ b)).
  rewrite !strings_Contains_single_cons, IH. by rewrite orb_assoc.
Qed.

Lemma absent_when_first_absent s c p :
  strings_Contains s (String c "") = false ->
  strings_Contains s (String c p) = false.
Proof.
  intros Hs. destruct (strings_Contains s (String c p)) eqn:E; [|done].
  change (String c p) with (String c "" +:+ p) in E.
  apply strings_Contains_app_l in E. congruence.
Qed.

Lemma strings_Contains_skip pre s c p :
  strings_Contains pre (String c "") = false ->
  strings_Contains (pre +:+ s) (String c p) = strings_Contains s (String c p).
Proof.
  induction pre as [|c' pre IH]; [done|].
  rewrite strings_Contains_single_cons. intros [Hc Hpre]%orb_false_iff.
  apply bool_decide_eq_false in Hc.
  change (String c' pre +:+ s) with (String c' (pre +:+ s)).
  cbn [strings_Contains]. rewrite IH by done.
  simpl. destruct (Ascii.ascii_dec c c'); [done|]. done.
Qed.

Lemma replaceFrom_skip a s old new :
  replaceFrom (String.length a) (a +:+ s) old new = replaceFrom 0 s old new.
Proof. induction a as [|c a IH]; [done|]. simpl. apply IH. Qed.

Lemma prefix_self_app old post : String.prefix old (old +:+ post) = true.
Proof.
  induction old as [|c old IH]; simpl; [by destruct post|].
  destruct (Ascii.ascii_dec c c); done.
Qed.

Lemma append_cons c (a b : string) : String c a +:+ b = String c (a +:+ b).
Proof. reflexivity. Qed.

Lemma append_nil (b : string) : "" +:+ b = b.
Proof. reflexivity. Qed.

Lemma prefix_cons c c' (a s : string) :
  String.prefix (String c a) (String c' s)
  = if Ascii.ascii_dec c c' then String.prefix a s else false.
Proof. reflexivity. Qed.

Lemma append_assoc (a b c : string) : (a +:+ b) +:+ c = a +:+ (b +:+ c).
Proof.
  induction a as [|x a IH]; [done|].
  change (String x ((a +:+ b) +:+ c) = String x (a +:+ b +:+ c)).
  by rewrite IH.
Qed.

(** The first occurrence of a pattern that begins with [c], behind a text
    without [c], is replaced and the scan goes on behind it. *)
Lemma ReplaceAll_first pre c p post new :
  strings_Contains pre (String c "") = false ->
  ReplaceAll (pre +:+ String c p +:+ post) (String c p) new
  = pre +:+ new +:+ ReplaceAll post (String c p) new.
Proof.
  unfold ReplaceAll. induction pre as [|c' pre IH].
  - intros _. change ("" +:+ String c p +:+ post)
      with (String c (p +:+ post)).
    cbn [replaceFrom].
    change (String c (p +:+ post)) with (String c p +:+ post).
    rewrite prefix_self_app. cbn [String.length Nat.pred].
    by rewrite replaceFrom_skip.
  - rewrite strings_Contains_single_cons. intros [Hc Hpre]%orb_false_iff.
    apply bool_decide_eq_false in Hc.
    change (String c' pre +:+ String c p +:+ post)
      with (String c' (pre +:+ String c p +:+ post)).
    cbn [replaceFrom].
    assert (Hp : String.prefix (String c p)
                   (String c' (pre +:+ String c p +:+ post)) = false).
    { simpl. by destruct (Ascii.ascii_dec c c'). }
    rewrite Hp, IH by done. done.
Qed.

Lemma pattern_unfold key :
  pattern key = String "{"%char (String "{"%char ("env." +:+ key +:+ "}}")).
Proof. reflexivity. Qed.

Lemma prefix_name_closed k k' post :
  noClose k -> noClose k' ->
  String.prefix (k' +:+ "}}") (k +:+ "}}" +:+ post) = true -> k' = k.
Proof.
  unfold noClose. revert k. induction k' as [|c' k' IH]; intros k Hk Hk' Hp.
  - destruct k as [|c k]; [done|].
    rewrite strings_Contains_single_cons in Hk.
    apply orb_false_iff in Hk as [Hc _]. apply bool_decide_eq_false in Hc.
    rewrite append_cons, append_nil, prefix_cons in Hp.
    by destruct (Ascii.ascii_dec "}"%char c).
  - rewrite strings_Contains_single_cons in Hk'.
    apply orb_false_iff in Hk' as [Hc' Hk'].
    apply bool_decide_eq_false in Hc'.
    destruct k as [|c k];
      rewrite ?append_cons, ?append_nil, prefix_cons in Hp.
    + destruct (Ascii.ascii_dec c' "}"%char); [congruence|done].
    + rewrite strings_Contains_single_cons in Hk.
      apply orb_false_iff in Hk as [_ Hk].
      destruct (Ascii.ascii_dec c' c) as [->|]; [|done].
      f_equal. by apply IH.
Qed.

(** The placeholder of another name does not occur in a text that holds
    a single placeholder between two texts without an opening brace. *)
Lemma other_pattern_absent pre post key key' :
  noOpen pre -> noOpen post -> noOpen key -> noClose key -> noClose key' ->
  key' <> key ->
  strings_Contains (pre +:+ pattern key +:+ post) (pattern key') = false.
Proof.
  intros Hpre Hpost Hko Hkc Hkc' Hne.
  rewrite (pattern_unfold key'), strings_Contains_skip by done.
  rewrite <- (pattern_unfold key').
  rewrite (pattern_unfold key).
  change (String "{" (String "{" ("env." +:+ key +:+ "}}")) +:+ post)
    with (String "{" (String "{" ("env." +:+ (key +:+ "}}") +:+ post))).
  cbn [strings_Contains]. apply orb_false_iff. split.
  { destruct (String.prefix (pattern key') _) eqn:E; [|done].
    exfalso. apply Hne. apply (prefix_name_closed key key' post); try done.
    rewrite pattern_unfold, !prefix_cons in E.
    destruct (Ascii.ascii_dec "{"%char "{"%char); [|done].
    change ("env." +:+ key' +:+ "}}") with ("env." +:+ (key' +:+ "}}")) in E.
    rewrite !append_cons, !append_nil, !prefix_cons in E.
    repeat (destruct (Ascii.ascii_dec _ _) in E; [|done]).
    rewrite append_assoc in E. exact E. }
  apply orb_false_iff. split; [done|].
  rewrite (pattern_unfold key'). apply absent_when_first_absent.
  change ("env." +:+ (key +:+ "}}") +:+ post)
    with ("env." +:+ ((key +:+ "}}") +:+ post)).
  rewrite !strings_Contains_single_app.
  unfold noOpen in *. rewrite Hko, Hpost. done.
Qed.

Lemma noOpen_app a b : noOpen a -> noOpen b -> noOpen (a +:+ b).
Proof.
  unfold noOpen. intros Ha Hb. by rewrite strings_Contains_single_app, Ha, Hb.
Qed.

Lemma pattern_absent_noOpen s key :
  noOpen s -> strings_Contains s (pattern key) = false.
Proof. intros Hs. rewrite pattern_unfold. by apply absent_when_first_absent. Qed.

Lemma noOpen_absent s : noOpen s -> strings_Contains s "{{env." = false.
Proof. intros Hs. by apply absent_when_first_absent. Qed.

(** X7 (environment.go, ExpandVariables). A template that holds one
    placeholder, between two texts without an opening brace, has it
    replaced by the value of the custom variable of that name, whatever
    the order in which the variables are ranged over and whatever the
    process environment holds, as long as the names of the custom
    variables hold no brace and the value holds no opening brace. *)
Theorem placeholder_takes_the_custom_value (os : OS)
  (vars : gmap string string) (entries : list (string * string))
  (pre post key value : string) :
  entries ≡ₚ map_to_list vars ->
  vars !! key = Some value ->
  map_Forall (fun name _ => noOpen name /\ noClose name) vars ->
  noOpen pre -> noOpen post -> noOpen value ->
  ExpandVariables os entries (pre +:+ pattern key +:+ post)
  = pre +:+ value +:+ post.
Proof.
  intros Hperm Hkey Hnames Hpre Hpost Hval.
  assert (Hnd : NoDup entries.*1).
  { rewrite Hperm. apply NoDup_fst_map_to_list. }
  assert (Hin : (key, value) ∈ entries).
  { rewrite Hperm. by apply elem_of_map_to_list. }
  assert (Hall : Forall (fun kv => noOpen kv.1 /\ noClose kv.1) entries).
  { apply Forall_forall. intros [k v] Hk. rewrite Hperm in Hk.
    apply elem_of_map_to_list in Hk. by apply (Hnames k v). }
  assert (Hres : noOpen (pre +:+ value +:+ post))
    by (repeat apply noOpen_app; done).
  assert (Hcustom : expandCustom entries (pre +:+ pattern key +:+ post)
                    = pre +:+ value +:+ post).
  { clear Hperm Hnames Hkey.
    induction entries as [|[k v] entries IH]; [by apply elem_of_nil in Hin|].
    apply Forall_cons in Hall as [[Hko Hkc] Hall].
    apply NoDup_cons in Hnd as [Hfresh Hnd]. simpl in *.
    apply elem_of_cons in Hin as [[= <- <-]|Hin].
    - unfold expandCustom. simpl. rewrite pattern_unfold at 2.
      rewrite pattern_unfold at 1.
      rewrite ReplaceAll_first by done. rewrite <- pattern_unfold.
      rewrite (ReplaceAll_absent post) by by apply pattern_absent_noOpen.
      by apply expandCustom_absent, noOpen_absent.
    - unfold expandCustom. simpl.
      assert (Hkey : noOpen key /\ noClose key).
      { rewrite Forall_forall in Hall. apply (Hall (key, value) Hin). }
      rewrite ReplaceAll_absent.
      + by apply IH.
      + apply other_pattern_absent; try tauto.
        intros ->. apply Hfresh. apply list_elem_of_fmap.
        by exists (key, value). }
  unfold ExpandVariables. rewrite Hcustom.
  by apply expandSystem_absent, noOpen_absent.
Qed.

End PlaceholderFacts.

(** ** Scenario files *)

Section ConfigRulesFacts.

Import Go ConfigRules.

Context `{Lib}.

Lemma listed_elem_of m key : listed m key = true -> key ∈ m.
Proof.
  unfold listed. intros (x & Hin & Heq)%existsb_exists.
  apply String.eqb_eq in Heq as ->. by apply list_elem_of_In.
Qed.

Lemma statusCodesLoop_range codes :
  statusCodesLoop codes = None -> Forall (fun code => 100 <= code <= 599) codes.
Proof.
  induction codes as [|code rest IH]; simpl; [constructor|].
  destruct (Z.ltb_spec code 100); [done|].
  destruct (Z.ltb_spec 599 code); [done|]. simpl.
  intros Hrest. constructor; [lia|auto].
Qed.

(** What the checks of [Validate] leave behind when they all pass. *)
Record accepted (s : Scenario) : Prop := {
  accepted_name : Name s <> "";
  accepted_method : Config.Method (Fields s) ∈ validMethods;
  accepted_url : Config.URL (Fields s) <> "";
  accepted_base : Config.BaseURL (Fields s) <> "";
  accepted_timeout :
    Config.Timeout (Fields s) = ""
    \/ is_Some (time_ParseDuration (Config.Timeout (Fields s)));
  accepted_retry :
    forall r, Retry s = Some r -> RetryConfig_Validate r = None;
  accepted_validation :
    forall v, Config.Validation (Fields s) = Some v ->
      ValidationConfig_Validate v = None
}.

Lemma Validate_accepted s : Validate s = None -> accepted s.
Proof.
  unfold Validate.
  destruct (String.eqb_spec (Name s) ""); [done|].
  destruct (String.eqb_spec (Config.Method (Fields s)) ""); [done|].
  destruct (String.eqb_spec (Config.URL (Fields s)) ""); [done|].
  destruct (String.eqb_spec (Config.BaseURL (Fields s)) ""); [done|].
  destruct (listed validMethods (Config.Method (Fields s))) eqn:Hm; [|done].
  assert (Hrest : forall rest : option string,
            match Retry s with
            | Some r =>
                match RetryConfig_Validate r with
                | Some err => Some ("retry config validation failed: " +:+ err)
                | None => None
                end
            | None => None
            end = rest ->
            match rest with
            | Some err => Some err
            | None =>
                match Config.Validation (Fields s) with
                | Some v =>
                    match ValidationConfig_Validate v with
                    | Some err =>
                        Some ("validation config validation failed: " +:+ err)
                    | None => None
                    end
                | None => None
                end
            end = None ->
            (forall r, Retry s = Some r -> RetryConfig_Validate r = None)
            /\ (forall v, Config.Validation (Fields s) = Some v ->
                  ValidationConfig_Validate v = None)).
  { intros rest Hr Hv. split.
    - intros r Er. rewrite Er in Hr.
      destruct (RetryConfig_Validate r); [by subst rest|done].
    - intros v Ev. rewrite Ev in Hv. destruct rest; [done|].
      by destruct (ValidationConfig_Validate v). }
  simpl.
  destruct (String.eqb_spec (Config.Timeout (Fields s)) "") as [Ht|Ht]; simpl.
  - intros [Hr Hv]%(Hrest _ eq_refl).
    split; [done|by apply listed_elem_of|done|done|by left|done|done].
  - destruct (time_ParseDuration (Config.Timeout (Fields s))) as [d|] eqn:Hd;
      [|done].
    intros [Hr Hv]%(Hrest _ eq_refl).
    split; [done|by apply listed_elem_of|done|done| |done|done].
    right. by rewrite Hd.
Qed.

(** X8 (scenario.go, Validate with CreateRequest and GetTimeout). The
    requests of an engine whose scenario passed [Validate] carry one of
    the seven methods, a URL made of a non-empty base and a non-empty
    path, and as timeout the duration written in the scenario, which
    parses, or thirty seconds when none is written. *)
Theorem accepted_scenario_builds_sound_requests (s : Scenario)
  (e : Engine.LoadEngine) :
  Validate s = None -> Engine.scenario e = Fields s ->
  let req := Engine.CreateRequest e in
  Protocols.Method req ∈ validMethods
  /\ Protocols.URL req = Config.BaseURL (Fields s) +:+ Config.URL (Fields s)
  /\ Config.BaseURL (Fields s) <> "" /\ Config.URL (Fields s) <> ""
  /\ (Config.Timeout (Fields s) = "" /\ Protocols.Timeout req = 30 * Second
      \/ Config.Timeout (Fields s) <> ""
         /\ time_ParseDuration (Config.Timeout (Fields s))
            = Some (Protocols.Timeout req)).
Proof.
  intros [Hn Hm Hu Hb Ht _ _]%Validate_accepted He req.
  unfold req, Engine.CreateRequest. rewrite He. simpl.
  split; [done|]. split; [done|]. split; [done|]. split; [done|].
  unfold Config.GetTimeout.
  destruct (String.eqb_spec (Config.Timeout (Fields s)) "") as [E|E];
    [by left|right].
  destruct Ht as [?|[d Hd]]; [done|]. by rewrite Hd.
Qed.

(** X9 (scenario.go, ValidationConfig.Validate with the response
    validator). The rules with which an engine validates responses,
    taken from a scenario that passed [Validate], name status codes
    between 100 and 599 only, never make the response-time rule report a
    configuration error, and leave room for a response size: a response
    of the minimal size passes the size rule. *)
Theorem accepted_scenario_has_sound_rules (s : Scenario) :
  Validate s = None ->
  let rules := Config.GetValidationConfig (Fields s) in
  Forall (fun code => 100 <= code <= 599) (Config.StatusCodes rules)
  /\ (forall responseTime,
        Validation.ErrorType (Validation.validateResponseTime rules responseTime)
        <> "config_error")
  /\ Validation.Passed
       (Validation.validateResponseSize rules (Config.MinResponseSize rules))
     = true.
Proof.
  intros [_ _ _ _ _ _ Hv]%Validate_accepted rules. subst rules.
  unfold Config.GetValidationConfig.
  destruct (Config.Validation (Fields s)) as [v|]; simpl.
  - specialize (Hv v eq_refl). unfold ValidationConfig_Validate in Hv.
    destruct (statusCodesLoop (Config.StatusCodes v)) eqn:Hc; [done|].
    split; [by apply statusCodesLoop_range|].
    unfold Validation.validateResponseTime, Validation.validateResponseSize.
    destruct (String.eqb_spec (Config.ResponseTimeMax v) ""); simpl in *.
    + split; [done|].
      destruct (Z.ltb_spec (Config.MinResponseSize v) 0); [done|].
      rewrite Z.ltb_irrefl, andb_false_r.
      destruct (Z.ltb_spec 0 (Config.MaxResponseSize v)); simpl in *; [|done].
      by destruct (Config.MaxResponseSize v <? Config.MinResponseSize v).
    + destruct (time_ParseDuration (Config.ResponseTimeMax v)); [|done].
      split.
      { intros t. by destruct (z <? t). }
      destruct (Z.ltb_spec (Config.MinResponseSize v) 0); [done|].
      rewrite Z.ltb_irrefl, andb_false_r.
      destruct (Z.ltb_spec 0 (Config.MaxResponseSize v)); simpl in *; [|done].
      by destruct (Config.MaxResponseSize v <? Config.MinResponseSize v).
  - split; [repeat constructor; lia|]. done.
Qed.

(** X10 (scenario.go, RetryConfig.Validate and GetRetryConfig). The retry
    settings in force for a scenario that passed [Validate], its own or
    the defaults, ask for 0 to 10 attempts with a backoff that is left
    open or is one of linear, exponential and fixed. *)
Theorem accepted_scenario_has_bounded_retries (s : Scenario) :
  Validate s = None ->
  let r := GetRetryConfig s in
  0 <= Attempts r <= 10
  /\ (Backoff r = "" \/ Backoff r ∈ validBackoffs)
  /\ (Retry s = None -> r = {| Attempts := 3; Backoff := "exponential";
                                MaxDelay := "5s" |}).
Proof.
  intros [_ _ _ _ _ Hr _]%Validate_accepted r. subst r.
  unfold GetRetryConfig. destruct (Retry s) as [r|]; simpl.
  - specialize (Hr r eq_refl). unfold RetryConfig_Validate in Hr.
    destruct (Z.ltb_spec (Attempts r) 0); [done|].
    destruct (Z.ltb_spec 10 (Attempts r)); [done|].
    split; [lia|]. split; [|done].
    destruct (String.eqb_spec (Backoff r) ""); [by left|right].
    cbn [negb andb] in Hr.
    destruct (listed validBackoffs (Backoff r)) eqn:Hl; [|done].
    by apply listed_elem_of.
  - split; [lia|]. split; [|done]. right. unfold validBackoffs.
    apply elem_of_cons. right. apply elem_of_cons. by left.
Qed.

(** X11 (scenario.go, LoadScenarioFromFile). Exactly one of the scenario and
    the error is nil, and a scenario that is returned is the decoded one
    and passes [Validate]. *)
Theorem loaded_scenario_is_valid (readError unmarshalError : option string)
  (decoded : Scenario) :
  let result := LoadScenarioFromFile readError unmarshalError decoded in
  (fst result = None <-> snd result <> None)
  /\ (forall s, fst result = Some s ->
        s = decoded /\ Validate s = None
        /\ readError = None /\ unmarshalError = None).
Proof.
  unfold LoadScenarioFromFile.
  destruct readError, unmarshalError, (Validate decoded) eqn:Hv; simpl;
    (split; [split; [done|intros Hn; try done; by destruct Hn]|]);
    try done.
  by intros s [= <-].
Qed.

End ConfigRulesFacts.

Section StatisticsFacts.

Import Go Metrics Utils TimeUtils.

(** The body of the loop of [CalculateMinMax]. *)
Definition minMaxStep : Z * Z -> Z -> Z * Z :=
  fun '(min, max) d =>
    let min := if d <? min then d else min in
    let max := if max <? d then d else max in
    (min, max).

Lemma minMax_fold l mn mx :
  mn <= mx ->
  let r := foldl minMaxStep (mn, mx) l in
  fst r <= mn /\ mx <= snd r
  /\ Forall (fun d => fst r <= d <= snd r) l
  /\ (fst r = mn \/ fst r ∈ l) /\ (snd r = mx \/ snd r ∈ l).
Proof.
  revert mn mx. induction l as [|d l IH]; intros mn mx Hle; cbn zeta.
  { simpl. split; [lia|]. split; [lia|]. split; [constructor|].
    split; by left. }
  cbn [foldl].
  change (minMaxStep (mn, mx) d)
    with (if d <? mn then d else mn, if mx <? d then d else mx).
  set (mn' := if d <? mn then d else mn).
  set (mx' := if mx <? d then d else mx).
  assert (Hmn : mn' <= mn /\ mn' <= d /\ (mn' = mn \/ mn' = d))
    by (subst mn'; destruct (Z.ltb_spec d mn); lia).
  assert (Hmx : mx <= mx' /\ d <= mx' /\ (mx' = mx \/ mx' = d))
    by (subst mx'; destruct (Z.ltb_spec mx d); lia).
  destruct (IH mn' mx') as (H1 & H2 & H3 & H4 & H5); [lia|].
  set (r := foldl minMaxStep (mn', mx') l) in *.
  split; [lia|]. split; [lia|]. split; [constructor; [lia|done]|].
  split.
  - destruct H4 as [->|?]; [|right; by apply elem_of_cons; right].
    destruct Hmn as (_ & _ & [->| ->]); [by left|right; by apply elem_of_cons; left].
  - destruct H5 as [->|?]; [|right; by apply elem_of_cons; right].
    destruct Hmx as (_ & _ & [->| ->]); [by left|right; by apply elem_of_cons; left].
Qed.

Lemma CalculateMinMax_fold first rest :
  CalculateMinMax (first :: rest)
  = foldl minMaxStep (first, first) (first :: rest).
Proof. reflexivity. Qed.

(** The two results of [CalculateMinMax] are entries of the sample and
    bound every entry. *)
Lemma CalculateMinMax_extremes (durations : list Z) :
  let r := CalculateMinMax durations in
  (durations = [] -> r = (0, 0))
  /\ (durations <> [] ->
        fst r ∈ durations /\ snd r ∈ durations
        /\ Forall (fun d => fst r <= d <= snd r) durations).
Proof.
  destruct durations as [|first rest]; cbn zeta; [by split|].
  split; [done|]. intros _. rewrite CalculateMinMax_fold.
  destruct (minMax_fold (first :: rest) first first) as (H1 & H2 & H3 & H4 & H5);
    [lia|].
  split; [|split; [|done]].
  - destruct H4 as [->|?]; [by apply elem_of_cons; left|done].
  - destruct H5 as [->|?]; [by apply elem_of_cons; left|done].
Qed.

(** X12 (pkg/utils, CalculateMinMax). On a sample that is not empty the two
    results are entries of the sample and bound every entry; on the
    empty sample both are 0. *)
Theorem CalculateMinMax_bounds (durations : list Z) :
  let r := CalculateMinMax durations in
  (durations = [] -> r = (0, 0))
  /\ (durations <> [] ->
        fst r ∈ durations /\ snd r ∈ durations
        /\ Forall (fun d => fst r <= d <= snd r) durations).
Proof.
  exact (CalculateMinMax_extremes durations).
Qed.

(** The running total of [CalculateAverage] while it stays within the
    range of an int64. *)
Lemma total_within l lo hi acc (k : Z) :
  Forall (fun d => lo <= d <= hi) l ->
  0 <= k ->
  k * lo <= acc <= k * hi ->
  MinInt64 <= (k + Z.of_nat (length l)) * lo ->
  (k + Z.of_nat (length l)) * hi <= MaxInt64 ->
  lo <= hi ->
  let total := foldl (fun total d => add64 total d) acc l in
  (k + Z.of_nat (length l)) * lo <= total <= (k + Z.of_nat (length l)) * hi.
Proof.
  intros Hall. revert acc k.
  induction Hall as [|d l Hd Hall IH]; intros acc k Hk Hacc Hlo Hhi Hle;
    cbn zeta.
  { simpl. rewrite Z.add_0_r. lia. }
  cbn [foldl]. cbn [length] in *.
  assert (Hb : MinInt64 = -9223372036854775808) by reflexivity.
  assert (Hx : MaxInt64 = 9223372036854775807) by reflexivity.
  assert (Hstep : (k + 1) * lo <= acc + d <= (k + 1) * hi) by lia.
  assert (Hrange : MinInt64 <= acc + d <= MaxInt64).
  { split.
    - destruct (Z.le_gt_cases 0 lo); [nia|].
      assert ((k + Z.of_nat (S (length l))) * lo <= (k + 1) * lo) by nia. lia.
    - destruct (Z.le_gt_cases hi 0); [nia|].
      assert ((k + 1) * hi <= (k + Z.of_nat (S (length l))) * hi) by nia. lia. }
  rewrite add64_small by done.
  replace (k + Z.of_nat (S (length l))) with ((k + 1) + Z.of_nat (length l))
    in * by lia.
  apply IH; lia.
Qed.

(** X13 (pkg/utils, CalculateAverage with CalculateMinMax). As long as the
    sum of the sample cannot leave the range of an int64, the average
    lies between the minimum and the maximum that [CalculateMinMax]
    returns; the average of the empty sample is 0. *)
Theorem CalculateAverage_between_min_and_max (durations : list Z) :
  let n := Z.of_nat (length durations) in
  let r := CalculateMinMax durations in
  MinInt64 <= n * fst r -> n * snd r <= MaxInt64 ->
  fst r <= CalculateAverage durations <= snd r.
Proof.
  intros n r Hlo Hhi.
  destruct (CalculateMinMax_extremes durations) as [Hnil Hcons].
  destruct durations as [|first rest]; [subst r; simpl; lia|].
  destruct Hcons as (Hmn & Hmx & Hall); [done|]. fold r in Hmn, Hmx, Hall.
  assert (Hle : fst r <= snd r).
  { rewrite Forall_forall in Hall. specialize (Hall _ Hmn). lia. }
  unfold CalculateAverage.
  pose proof (total_within (first :: rest) (fst r) (snd r) 0 0 Hall) as Ht.
  cbn zeta in Ht. rewrite Z.add_0_l in Ht. fold n in Ht.
  specialize (Ht ltac:(lia) ltac:(lia) Hlo Hhi Hle).
  set (total := foldl (fun total d => add64 total d) 0 (first :: rest)) in *.
  fold n. assert (Hn : 0 < n) by (subst n; simpl; lia).
  assert (Hb : MinInt64 = -9223372036854775808) by reflexivity.
  assert (Hx : MaxInt64 = 9223372036854775807) by reflexivity.
  assert (Hq : fst r <= total ÷ n <= snd r).
  { destruct (Z.le_gt_cases 0 total) as [Hpos|Hneg].
    - rewrite Z.quot_div_nonneg by lia. split.
      + apply Z.div_le_lower_bound; lia.
      + apply Z.div_le_upper_bound; lia.
    - assert (Ho : total ÷ n = - ((- total) / n)).
      { rewrite <- (Z.opp_involutive total) at 1.
        rewrite Z.quot_opp_l by lia.
        rewrite Z.quot_div_nonneg by lia. done. }
      rewrite Ho. split.
      + assert ((- total) / n <= - fst r); [|lia].
        apply Z.div_le_upper_bound; lia.
      + assert (- snd r <= (- total) / n); [|lia].
        apply Z.div_le_lower_bound; lia. }
  unfold quot64. rewrite wrap64_small; [done|].
  assert (MinInt64 <= fst r /\ snd r <= MaxInt64); [|lia].
  split.
  - destruct (Z.le_gt_cases 0 (fst r)); [lia|]. nia.
  - destruct (Z.le_gt_cases (snd r) 0); [lia|]. nia.
Qed.

Lemma sorted_head_min (s : list Z) x d :
  Sorted Z.le s -> s !! 0%nat = Some x -> d ∈ s -> x <= d.
Proof.
  intros Hs Hx [i Hi]%list_elem_of_lookup_1.
  apply (sorted_lookup_le s 0 i x d Hs); [lia|done|done].
Qed.

Lemma sorted_last_max (s : list Z) x d :
  Sorted Z.le s -> s !! (length s - 1)%nat = Some x -> d ∈ s -> d <= x.
Proof.
  intros Hs Hx [i Hi]%list_elem_of_lookup_1.
  apply (sorted_lookup_le s i (length s - 1) d x Hs); [|done|done].
  apply lookup_lt_Some in Hi. lia.
Qed.

(** X14 (pkg/utils, CalculatePercentile with CalculateMinMax). On a sample
    of up to a thousand durations the percentile 0 is the minimum and
    the percentile 100 the maximum that [CalculateMinMax] returns. *)
Theorem extreme_percentiles_are_min_and_max (a : Arch) (durations : list Z) :
  (1 <= length durations <= 1000)%nat ->
  CalculatePercentile a durations 0 = Some (fst (CalculateMinMax durations))
  /\ CalculatePercentile a durations 100
     = Some (snd (CalculateMinMax durations)).
Proof.
  intros Hn.
  destruct (CalculateMinMax_extremes durations) as [_ Hcons].
  destruct Hcons as (Hmn & Hmx & Hall); [intros ->; simpl in Hn; lia|].
  set (r := CalculateMinMax durations) in *.
  set (s := simpleSort durations).
  assert (Hs : Sorted Z.le s) by apply simpleSort_sorted.
  assert (Hl : length s = length durations) by apply simpleSort_length.
  assert (Hp : s ≡ₚ durations) by apply simpleSort_perm.
  assert (Hu : forall p, CalculatePercentile a durations p
                         = calculatePercentile a s p).
  { intros p. unfold CalculatePercentile, calculatePercentile. subst s.
    destruct durations as [|d ds]; [simpl in Hn; lia|].
    destruct (simpleSort (d :: ds)) eqn:E; [|done].
    apply (f_equal length) in E. by rewrite simpleSort_length in E. }
  assert (Hsn : (1 <= length s <= 1000)%nat) by lia.
  rewrite Forall_forall in Hall.
  split; rewrite Hu.
  - destruct (calculatePercentile_exact a s 0%float 0 1 Hsn) as [Hk ->];
      [simpl; tauto|].
    unfold exactIndex. rewrite Z.mul_0_r, Z.div_0_l by lia.
    destruct (lookup_lt_is_Some_2 s 0) as [x Hx]; [lia|].
    change (Z.to_nat 0) with 0%nat. rewrite Hx. f_equal.
    apply Z.le_antisymm.
    + apply (sorted_head_min s x (fst r) Hs Hx). by rewrite Hp.
    + apply Hall. rewrite <- Hp. by eapply list_elem_of_lookup_2.
  - destruct (calculatePercentile_exact a s 100%float 100 1 Hsn) as [Hk ->];
      [simpl; tauto|].
    unfold exactIndex.
    replace ((Z.of_nat (length s) - 1) * 100 / (100 * 1))
      with (Z.of_nat (length s) - 1)
      by (rewrite Z.mul_1_r, Z.div_mul by lia; done).
    replace (Z.to_nat (Z.of_nat (length s) - 1)) with (length s - 1)%nat
      by lia.
    destruct (lookup_lt_is_Some_2 s (length s - 1)) as [x Hx]; [lia|].
    rewrite Hx. f_equal.
    apply Z.le_antisymm.
    + apply Hall. rewrite <- Hp. by eapply list_elem_of_lookup_2.
    + apply (sorted_last_max s x (snd r) Hs Hx). by rewrite Hp.
Qed.

End StatisticsFacts.

(** ** Keyed counters *)

Section TallyFacts.

Import Go Metrics.

Context `{Countable K}.

(** The map that [m[k]++] builds from the empty map over a sequence of
    keys. *)
Definition tally (keys : list K) : gmap K Z :=
  foldl (fun m k => incr k m) ∅ keys.

Definition occurrences (k : K) (keys : list K) : Z :=
  Z.of_nat (length (filter (fun x => x = k) keys)).

Lemma tally_snoc keys k : tally (keys ++ [k]) = incr k (tally keys).
Proof. unfold tally. by rewrite foldl_app. Qed.

Lemma occurrences_snoc k keys x :
  occurrences k (keys ++ [x])
  = occurrences k keys + (if decide (x = k) then 1 else 0).
Proof.
  unfold occurrences. rewrite filter_app, length_app, filter_cons, filter_nil.
  destruct (decide (x = k)); simpl; lia.
Qed.

Lemma occurrences_cons k x keys :
  occurrences k (x :: keys)
  = (if decide (x = k) then 1 else 0) + occurrences k keys.
Proof.
  unfold occurrences. rewrite filter_cons.
  destruct (decide (x = k)); simpl; lia.
Qed.

Lemma occurrences_nonneg k keys : 0 <= occurrences k keys.
Proof. unfold occurrences. lia. Qed.

Lemma occurrences_le k keys : occurrences k keys <= Z.of_nat (length keys).
Proof.
  unfold occurrences. pose proof (length_filter (fun x => x = k) keys). lia.
Qed.

Lemma wrap64_0 : wrap64 0 = 0.
Proof. reflexivity. Qed.

(** A key that was never counted has no bucket; a bucket holds the number
    of times its key was counted. *)
Lemma tally_lookup keys k :
  tally keys !! k
  = if occurrences k keys =? 0 then None
    else Some (wrap64 (occurrences k keys)).
Proof.
  induction keys as [|x keys IH] using rev_ind; [done|].
  rewrite tally_snoc, occurrences_snoc. unfold incr.
  pose proof (occurrences_nonneg k keys) as Hn.
  destruct (decide (x = k)) as [->|Hne].
  - rewrite lookup_insert_eq, IH.
    destruct (Z.eqb_spec (occurrences k keys + 1) 0); [lia|].
    f_equal. unfold add64.
    destruct (Z.eqb_spec (occurrences k keys) 0) as [->|_]; simpl; [done|].
    apply wrap64_idemp_add.
  - rewrite lookup_insert_ne by done. by rewrite Z.add_0_r.
Qed.

Lemma tally_is_Some keys k : is_Some (tally keys !! k) <-> k ∈ keys.
Proof.
  rewrite tally_lookup. unfold occurrences.
  destruct (filter (fun x => x = k) keys) as [|y l] eqn:Ef; simpl.
  - split; [by intros [? ?]|]. intros Hin.
    assert (Hk : k ∈ filter (fun x => x = k) keys)
      by (by apply list_elem_of_filter).
    rewrite Ef in Hk. by apply elem_of_nil in Hk.
  - split; [|by eexists]. intros _.
    assert (Hy : y ∈ filter (fun x => x = k) keys)
      by (rewrite Ef; apply elem_of_cons; by left).
    by apply list_elem_of_filter in Hy as [-> ?].
Qed.

End TallyFacts.

Section TallyTotals.

Import Go Metrics.

Lemma tally_nonneg (keys : list string) :
  Z.of_nat (length keys) <= MaxInt64 -> nonnegBuckets (tally keys).
Proof.
  intros Hlen k v Hk. rewrite tally_lookup in Hk.
  pose proof (occurrences_nonneg k keys). pose proof (occurrences_le k keys).
  destruct (occurrences k keys =? 0); [done|]. simplify_eq.
  assert (Hm : MinInt64 = -9223372036854775808) by reflexivity.
  rewrite wrap64_small; lia.
Qed.

(** The buckets of a tally add up to the number of keys counted. *)
Lemma tally_total (keys : list string) :
  Z.of_nat (length keys) <= MaxInt64 ->
  bucketTotal (tally keys) = Z.of_nat (length keys).
Proof.
  induction keys as [|x keys IH] using rev_ind; intros Hlen.
  { apply bucketTotal_empty. }
  rewrite length_app in *. simpl in Hlen.
  rewrite tally_snoc. unfold incr. rewrite bucketTotal_insert, IH by lia.
  pose proof (bucket_le_total (tally keys) x (tally_nonneg keys ltac:(lia))).
  rewrite IH in H by lia.
  assert (Hm : MinInt64 = -9223372036854775808) by reflexivity.
  rewrite add64_small by lia. simpl. lia.
Qed.

End TallyTotals.

(** ** The collector's distributions and latency table *)

Section DistributionFacts.

Import Go Metrics Utils TimeUtils.

Lemma RecordResponse_tables r c :
  statusCodes (RecordResponse r c)
  = incr (Protocols.StatusCode r) (statusCodes c)
  /\ totalLatency (RecordResponse r c)
     = add64 (totalLatency c) (Protocols.ResponseTime r)
  /\ totalBytes (RecordResponse r c)
     = add64 (totalBytes c) (Protocols.ContentLength r).
Proof.
  unfold RecordResponse.
  destruct (isFailure r); [destruct (Protocols.Error r)|]; simpl; auto.
Qed.

Lemma recordAll_statusCodes rs :
  statusCodes (recordAll rs NewCollector)
  = tally (map Protocols.StatusCode rs).
Proof.
  induction rs as [|r rs IH] using rev_ind; [done|].
  rewrite recordAll_snoc, map_app. cbn [map]. rewrite tally_snoc.
  destruct (RecordResponse_tables r (recordAll rs NewCollector)) as (-> & _).
  by rewrite IH.
Qed.

(** X15 (metrics, updateStatusCode through RecordResponse). After any
    sequence of responses the status table has no entry for a status
    that no response carried, and the entry of a status holds the
    number of responses that carried it, in the arithmetic of an
    int64. *)
Theorem status_table_counts_responses (rs : list Protocols.Response)
  (status : Z) :
  let c := recordAll rs NewCollector in
  let n := occurrences status (map Protocols.StatusCode rs) in
  statusCodes c !! status = (if n =? 0 then None else Some (wrap64 n))
  /\ 0 <= n <= Z.of_nat (length rs)
  /\ (n = 0 <-> Forall (fun r => Protocols.StatusCode r <> status) rs).
Proof.
  intros c n. subst c. rewrite recordAll_statusCodes, tally_lookup.
  split; [done|]. split.
  { split; [apply occurrences_nonneg|].
    pose proof (occurrences_le status (map Protocols.StatusCode rs)).
    by rewrite length_map in *. }
  subst n. unfold occurrences.
  induction rs as [|r rs IH]; [split; [constructor|done]|].
  simpl. rewrite filter_cons.
  destruct (decide (Protocols.StatusCode r = status)) as [Heq|Hne]; simpl.
  - split; [lia|]. by inversion 1.
  - rewrite IH. split; [by constructor|by inversion 1].
Qed.

Lemma recordAll_totalLatency rs :
  totalLatency (recordAll rs NewCollector)
  = foldl (fun total d => add64 total d) 0 (map Protocols.ResponseTime rs).
Proof.
  induction rs as [|r rs IH] using rev_ind; [done|].
  rewrite recordAll_snoc, map_app, foldl_app. simpl.
  destruct (RecordResponse_tables r (recordAll rs NewCollector))
    as (_ & -> & _).
  by rewrite IH.
Qed.

Lemma recordAll_minmax rs :
  Forall (fun r => 0 < Protocols.ResponseTime r) rs ->
  let c := recordAll rs NewCollector in
  CalculateMinMax (map Protocols.ResponseTime rs)
  = (minLatency c, maxLatency c).
Proof.
  induction rs as [|r rs IH] using rev_ind; intros Hpos; cbn zeta; [done|].
  apply Forall_app in Hpos as [Hpos Hr].
  apply (proj1 (Forall_singleton _ _)) in Hr.
  specialize (IH Hpos). cbn zeta in IH.
  destruct (recordAll_bounds rs Hpos) as [Hlat Hb].
  rewrite recordAll_snoc.
  destruct (RecordResponse_latency r (recordAll rs NewCollector))
    as (_ & -> & ->).
  set (c := recordAll rs NewCollector) in *.
  set (x := Protocols.ResponseTime r) in *.
  rewrite map_app. simpl. fold x.
  unfold boundsHold in Hb. rewrite Hlat in Hb.
  destruct (map Protocols.ResponseTime rs) as [|first rest] eqn:Hm.
  - destruct Hb as [-> ->]. simpl. rewrite Z.ltb_irrefl.
    simpl in Hr. destruct (Z.ltb_spec 0 x); [done|lia].
  - destruct Hb as [Hmin _].
    change ((first :: rest) ++ [x]) with (first :: (rest ++ [x])).
    rewrite CalculateMinMax_fold.
    change (first :: (rest ++ [x])) with ((first :: rest) ++ [x]).
    rewrite foldl_app. rewrite <- CalculateMinMax_fold, IH. simpl.
    destruct (Z.eqb_spec (minLatency c) 0); [lia|]. done.
Qed.

(** X16 (metrics, calculateLatencyStats against pkg/utils). For up to a
    thousand responses, all with a positive latency, the latency
    statistics of the collector are those that the utilities compute
    from the list of latencies: the same minimum and maximum, the same
    mean and the same five percentiles. *)
Theorem latency_stats_agree_with_utils (a : Arch)
  (rs : list Protocols.Response) :
  (1 <= length rs <= 1000)%nat ->
  Forall (fun r => 0 < Protocols.ResponseTime r) rs ->
  let sample := map Protocols.ResponseTime rs in
  exists stats,
    calculateLatencyStats a (recordAll rs NewCollector) = Some stats
    /\ (Min stats, Max stats) = CalculateMinMax sample
    /\ Mean stats = CalculateAverage sample
    /\ Some (Median stats) = CalculatePercentile a sample 50
    /\ Some (P90 stats) = CalculatePercentile a sample 90
    /\ Some (P95 stats) = CalculatePercentile a sample 95
    /\ Some (P99 stats) = CalculatePercentile a sample 99
    /\ Some (P99_9 stats) = CalculatePercentile a sample 99.9.
Proof.
  intros Hn Hpos sample.
  destruct (recordAll_bounds rs Hpos) as [Hlat _].
  pose proof (recordAll_minmax rs Hpos) as Hmm. cbn zeta in Hmm.
  pose proof (recordAll_totalLatency rs) as Htot.
  set (c := recordAll rs NewCollector) in *. fold sample in Hlat, Hmm, Htot.
  assert (Hlen : length sample = length rs) by apply length_map.
  clearbody sample c.
  set (s := simpleSort sample).
  assert (Hsn : (1 <= length s <= 1000)%nat)
    by (unfold s; rewrite simpleSort_length; lia).
  assert (Hu : forall p, CalculatePercentile a sample p
                         = calculatePercentile a s p).
  { intros p. unfold CalculatePercentile, calculatePercentile. subst s.
    destruct sample as [|x xs]; [simpl in Hlen; lia|].
    destruct (simpleSort (x :: xs)) eqn:E; [|done].
    apply (f_equal length) in E. by rewrite simpleSort_length in E. }
  assert (Hex : forall p num den, In (p, (num, den)) usedPercentiles ->
                  is_Some (calculatePercentile a s p)).
  { intros p num den Hp.
    destruct (calculatePercentile_exact a s p num den Hsn Hp) as [Hk ->].
    by apply lookup_lt_is_Some_2. }
  destruct (Hex 50%float 50 1) as [v50 E50]; [simpl; tauto|].
  destruct (Hex 90%float 90 1) as [v90 E90]; [simpl; tauto|].
  destruct (Hex 95%float 95 1) as [v95 E95]; [simpl; tauto|].
  destruct (Hex 99%float 99 1) as [v99 E99]; [simpl; tauto|].
  destruct (Hex 99.9%float 999 10) as [v999 E999]; [simpl; tauto|].
  unfold calculateLatencyStats. rewrite Hlat. fold s.
  destruct sample as [|x xs] eqn:Hs; [simpl in Hlen; lia|].
  rewrite <- Hs in *.
  rewrite E50, E90, E95, E99, E999. simpl.
  eexists. split; [reflexivity|]. simpl.
  rewrite !Hu, E50, E90, E95, E99, E999, Hmm.
  repeat split; try done.
  unfold CalculateAverage. rewrite Htot, Hs. by rewrite <- Hs.
Qed.

End DistributionFacts.

(** ** Validation outcomes in the collector *)

Section ValidationCounters.

Import Go Metrics.

(** What [RecordValidation] does to the validation results. *)
Definition countValidation (passed : bool) (errorType : string)
  (v : ValidationResults) : ValidationResults :=
  if passed then
    {| TotalValidations := add64 (TotalValidations v) 1;
       PassedValidations := add64 (PassedValidations v) 1;
       FailedValidations := FailedValidations v;
       ValidationErrors := ValidationErrors v |}
  else
    {| TotalValidations := add64 (TotalValidations v) 1;
       PassedValidations := PassedValidations v;
       FailedValidations := add64 (FailedValidations v) 1;
       ValidationErrors :=
         if String.eqb errorType "" then ValidationErrors v
         else incr errorType (ValidationErrors v) |}.

(** The collector with other validation results. *)
Definition withValidation (v : ValidationResults) (c : Collector)
  : Collector :=
  {| totalRequests := totalRequests c;
     successfulRequests := successfulRequests c;
     failedRequests := failedRequests c; totalBytes := totalBytes c;
     latencies := latencies c; minLatency := minLatency c;
     maxLatency := maxLatency c; totalLatency := totalLatency c;
     statusCodes := statusCodes c; errors := errors c;
     startTime := startTime c; endTime := endTime c;
     validationResults := v |}.

Lemma RecordValidation_withValidation passed errorType c :
  RecordValidation passed errorType c
  = withValidation (countValidation passed errorType (validationResults c)) c.
Proof. unfold RecordValidation, countValidation. by destruct passed. Qed.

Lemma RecordResponse_withValidation r v c :
  RecordResponse r (withValidation v c) = withValidation v (RecordResponse r c).
Proof.
  unfold RecordResponse.
  destruct (isFailure r); [destruct (Protocols.Error r)|]; reflexivity.
Qed.

(** The outcomes of a sequence of validations: whether each passed and
    the kind of error it reported. *)
Definition validateAll (outcomes : list (bool * string)) (c : Collector)
  : Collector :=
  foldl (fun c o => RecordValidation (fst o) (snd o) c) c outcomes.

Definition countAll (outcomes : list (bool * string)) : ValidationResults :=
  foldl (fun v o => countValidation (fst o) (snd o) v)
    (validationResults NewCollector) outcomes.

(** The kinds that reach a bucket: those of the failed validations that
    name one. *)
Definition bucketKinds (outcomes : list (bool * string)) : list string :=
  omap (fun o : bool * string =>
          if fst o then None
                 else if String.eqb (snd o) "" then None else Some (snd o))
    outcomes.

Definition passes (outcomes : list (bool * string)) : Z :=
  Z.of_nat (length (filter (fun o : bool * string => fst o = true) outcomes)).

Definition failures (outcomes : list (bool * string)) : Z :=
  Z.of_nat (length (filter (fun o : bool * string => fst o = false) outcomes)).

Lemma passes_failures outcomes :
  passes outcomes + failures outcomes = Z.of_nat (length outcomes).
Proof.
  unfold passes, failures. induction outcomes as [|[p t] l IH]; [done|].
  rewrite !filter_cons. cbn [fst].
  destruct p; repeat case_decide; try done; simpl; lia.
Qed.

Lemma countAll_snoc outcomes o :
  countAll (outcomes ++ [o])
  = countValidation (fst o) (snd o) (countAll outcomes).
Proof. unfold countAll. by rewrite foldl_app. Qed.

Lemma countAll_spec outcomes :
  let v := countAll outcomes in
  TotalValidations v = wrap64 (Z.of_nat (length outcomes))
  /\ PassedValidations v = wrap64 (passes outcomes)
  /\ FailedValidations v = wrap64 (failures outcomes)
  /\ ValidationErrors v = tally (bucketKinds outcomes).
Proof.
  induction outcomes as [|[p t] l IH] using rev_ind; [done|].
  cbn zeta in *. destruct IH as (Ht & Hp & Hf & He).
  rewrite countAll_snoc. unfold passes, failures, bucketKinds in *.
  rewrite !filter_app, !length_app, omap_app, !filter_cons, !filter_nil.
  unfold countValidation. simpl. destruct p; simpl.
  - rewrite Ht, Hp, Hf, He. unfold add64. rewrite !wrap64_idemp_add.
    rewrite app_nil_r. repeat split; f_equal; lia.
  - rewrite Ht, Hp, Hf, He. unfold add64. rewrite !wrap64_idemp_add.
    split; [f_equal; lia|]. split; [f_equal; lia|]. split; [f_equal; lia|].
    destruct (String.eqb t ""); [by rewrite app_nil_r|].
    by rewrite tally_snoc.
Qed.

Lemma validateAll_countAll outcomes :
  validateAll outcomes NewCollector
  = withValidation (countAll outcomes) NewCollector.
Proof.
  induction outcomes as [|o l IH] using rev_ind; [done|].
  unfold validateAll in *. rewrite foldl_app, IH. simpl.
  rewrite countAll_snoc. by rewrite RecordValidation_withValidation.
Qed.

Lemma bucketKinds_cons o outcomes :
  bucketKinds (o :: outcomes)
  = (if fst o then []
     else if String.eqb (snd o) "" then [] else [snd o])
    ++ bucketKinds outcomes.
Proof.
  unfold bucketKinds. cbn [omap list_omap].
  destruct (fst o); [done|]. by destruct (String.eqb (snd o) "").
Qed.

Lemma failures_cons o outcomes :
  failures (o :: outcomes) = (if fst o then 0 else 1) + failures outcomes.
Proof.
  unfold failures. rewrite filter_cons.
  destruct (fst o); case_decide; try done; simpl; lia.
Qed.

Lemma bucketKinds_length outcomes :
  Z.of_nat (length (bucketKinds outcomes)) <= failures outcomes.
Proof.
  unfold bucketKinds, failures.
  induction outcomes as [|[p t] l IH]; [done|].
  rewrite filter_cons. cbn [omap list_omap fst snd].
  destruct p; case_decide; try done.
  destruct (String.eqb t ""); simpl in *; lia.
Qed.

Lemma bucketKinds_elem kind outcomes :
  kind ∈ bucketKinds outcomes <-> (false, kind) ∈ outcomes /\ kind <> "".
Proof.
  unfold bucketKinds. rewrite list_elem_of_omap. split.
  - intros ([p t] & Hin & Ho). simpl in Ho. destruct p; [done|].
    destruct (String.eqb_spec t ""); [done|]. by simplify_eq.
  - intros [Hin Hne]. exists (false, kind). split; [done|]. simpl.
    by destruct (String.eqb_spec kind "").
Qed.

(** X17 (metrics, RecordValidation). After any sequence of calls whose
    number an int64 holds, the total of validations is the number of
    calls and the sum of the passed and the failed ones; the buckets of
    validation errors add up to the number of failed validations that
    named a kind of error, and a kind has its bucket exactly when such
    a validation named it. *)
Theorem validation_counters_add_up (outcomes : list (bool * string)) :
  Z.of_nat (length outcomes) <= MaxInt64 ->
  let v := validationResults (validateAll outcomes NewCollector) in
  TotalValidations v = Z.of_nat (length outcomes)
  /\ TotalValidations v = PassedValidations v + FailedValidations v
  /\ PassedValidations v = passes outcomes
  /\ FailedValidations v = failures outcomes
  /\ bucketTotal (ValidationErrors v)
     = Z.of_nat (length (bucketKinds outcomes))
  /\ bucketTotal (ValidationErrors v) <= FailedValidations v
  /\ (forall kind, is_Some (ValidationErrors v !! kind)
                   <-> (false, kind) ∈ outcomes /\ kind <> "").
Proof.
  intros Hlen v. subst v. rewrite validateAll_countAll. simpl.
  destruct (countAll_spec outcomes) as (Ht & Hp & Hf & He).
  pose proof (passes_failures outcomes) as Hs.
  assert (0 <= passes outcomes) by (unfold passes; lia).
  assert (0 <= failures outcomes) by (unfold failures; lia).
  pose proof (bucketKinds_length outcomes) as Hb.
  assert (Hm : MinInt64 = -9223372036854775808) by reflexivity.
  rewrite wrap64_small in Ht, Hp, Hf by lia.
  rewrite Ht, Hp, Hf, He, tally_total by lia.
  split; [lia|]. split; [lia|]. split; [lia|]. split; [lia|].
  split; [lia|]. split; [lia|].
  intros kind. by rewrite tally_is_Some, bucketKinds_elem.
Qed.

End ValidationCounters.

(** ** What the engine records for a response *)

Section EngineRecording.

Import Go Metrics Validation.

Context `{Lib}.

Variable e : Engine.LoadEngine.

(** The collector after the engine recorded the responses [rs], oldest
    first. *)
Definition engineRecordAll (rs : list Protocols.Response) (c : Collector)
  : Collector :=
  foldl (fun c r => Engine.RecordResponse e r c) c rs.

Definition outcome (r : Protocols.Response) : bool * string :=
  let result := Validate (Engine.validator e) r in
  (Passed result, ErrorType result).

Lemma countIf_cons f r rs :
  countIf f (r :: rs) = (if f r then 1 else 0) + countIf f rs.
Proof. unfold countIf. simpl. destruct (f r); simpl; lia. Qed.

Lemma engineRecordAll_split rs :
  engineRecordAll rs NewCollector
  = withValidation (countAll (map outcome rs)) (recordAll rs NewCollector).
Proof.
  induction rs as [|r rs IH] using rev_ind; [done|].
  unfold engineRecordAll in *. rewrite foldl_app, IH. cbn [foldl].
  rewrite recordAll_snoc, map_app. cbn [map]. rewrite countAll_snoc.
  unfold Engine.RecordResponse.
  rewrite RecordValidation_withValidation, !RecordResponse_withValidation.
  reflexivity.
Qed.

Lemma firstFailure_kinds results kindss :
  Forall2 (fun result kinds => failsWith kinds result) results kindss ->
  Passed (firstFailure results) = false ->
  ErrorType (firstFailure results) ∈ concat kindss.
Proof.
  induction 1 as [|result kinds results kindss Hk Hrest IH]; [done|].
  simpl. destruct (Passed result) eqn:Hp.
  - intros Hf. apply elem_of_app. right. by apply IH.
  - intros _. apply elem_of_app. left. by apply Hk.
Qed.

(** A failed validation names its kind, and the kind is that of a
    transport error exactly for a response that carries one; a response
    that carries one never passes. *)
Lemma Validate_failure_kind (config : Config.ValidationConfig) r :
  (Passed (Validate config r) = true -> Protocols.Error r = None)
  /\ (Passed (Validate config r) = false ->
        ErrorType (Validate config r) <> ""
        /\ (ErrorType (Validate config r) = "request_error"
            <-> Protocols.Error r <> None)).
Proof.
  destruct (Protocols.Error r) as [msg|] eqn:He.
  { unfold Validate. rewrite He. simpl. split; [done|]. intros _.
    split; [done|]. split; done. }
  split; [done|].
  pose proof (rules_report_their_kinds config r) as Hk.
  rewrite Validate_firstFailure. unfold orderedRules, ruleKinds in *.
  apply Forall2_cons_1 in Hk as [_ Hk].
  set (rules := [ruleStatusCode config; ruleResponseTime config;
                 ruleResponseSize config; ruleBodyContains config;
                 ruleBodyNotContains config; ruleBodyRegex config;
                 ruleBodyJSONPath config; ruleHeaders config]) in *.
  set (kindss := [["status_code"]; ["response_time"; "config_error"];
                  ["response_size"]; ["body_content"]; ["body_content"];
                  ["body_regex"; "config_error"]; ["body_json_path"];
                  ["header_missing"; "header_value"]]) in *.
  assert (Hk' : Forall2 (fun result kinds => failsWith kinds result)
                  ((fun rule => rule r) <$> rules) kindss)
    by (by apply Forall2_fmap_l).
  assert (Hff : firstFailure (map (fun rule => rule r) (ruleTransport :: rules))
                = firstFailure ((fun rule => rule r) <$> rules)).
  { change (map (fun rule => rule r) (ruleTransport :: rules))
      with (ruleTransport r :: ((fun rule => rule r) <$> rules)).
    cbn [firstFailure]. unfold ruleTransport at 1. by rewrite He. }
  rewrite Hff. intros Hf.
  pose proof (firstFailure_kinds _ _ Hk' Hf) as Hin.
  set (kind := ErrorType _) in *. clearbody kind.
  apply list_elem_of_In in Hin. simpl in Hin.
  repeat destruct Hin as [<-|Hin]; try done.
Qed.

Lemma outcome_kinds rs :
  Z.of_nat (length (bucketKinds (map outcome rs)))
  = failures (map outcome rs)
  /\ occurrences "request_error" (bucketKinds (map outcome rs))
     = countIf hasError rs.
Proof.
  induction rs as [|r rs [IH1 IH2]]; [done|].
  cbn [map]. rewrite bucketKinds_cons, failures_cons, countIf_cons.
  destruct (Validate_failure_kind (Engine.validator e) r) as [Hp Hf].
  set (o := outcome r).
  assert (Ho : o = (Passed (Validate (Engine.validator e) r),
                    ErrorType (Validate (Engine.validator e) r)))
    by reflexivity.
  clearbody o. subst o. cbn [fst snd]. unfold hasError at 1.
  destruct (Passed (Validate (Engine.validator e) r)) eqn:Hv.
  - rewrite (Hp eq_refl). rewrite bool_decide_eq_false_2 by (by intros []).
    simpl. split; lia.
  - destruct (Hf eq_refl) as [Hne Hre].
    destruct (String.eqb_spec (ErrorType (Validate (Engine.validator e) r)) "");
      [done|].
    cbn [app]. rewrite occurrences_cons. cbn [length].
    split; [lia|].
    destruct (decide (ErrorType (Validate (Engine.validator e) r)
                      = "request_error")) as [Heq|Hneq].
    + rewrite bool_decide_eq_true_2 by (by apply Hre). lia.
    + rewrite bool_decide_eq_false_2; [lia|].
      intros Herr. by apply Hneq, Hre.
Qed.

(** X18 (engine.go, LoadEngine.RecordResponse). After the engine recorded
    any sequence of responses whose number an int64 holds, there are as
    many validations as requests; every failed validation sits in a
    bucket of validation errors, so that the buckets add up to the
    failed validations; and the bucket of the kind ["request_error"]
    holds the number of responses that carried a transport error, which
    is also the sum of the collector's error buckets. *)
Theorem engine_validates_every_response (rs : list Protocols.Response) :
  Z.of_nat (length rs) <= MaxInt64 ->
  let c := engineRecordAll rs NewCollector in
  let v := validationResults c in
  TotalValidations v = totalRequests c
  /\ totalRequests c = Z.of_nat (length rs)
  /\ bucketTotal (ValidationErrors v) = FailedValidations v
  /\ default 0 (ValidationErrors v !! "request_error") = countIf hasError rs
  /\ bucketTotal (errors c) = countIf hasError rs.
Proof.
  intros Hlen c v. subst v c. rewrite engineRecordAll_split. simpl.
  destruct (recordAll_exact_counters rs Hlen) as (Ht & _ & _).
  destruct (recordAll_errors rs Hlen) as [Herr _]. cbn zeta in Ht, Herr.
  destruct (countAll_spec (map outcome rs)) as (Hv & _ & Hf & He).
  cbn zeta in Hv, Hf, He. rewrite length_map in Hv.
  destruct (outcome_kinds rs) as [Hk Hr].
  assert (Hfl : 0 <= failures (map outcome rs) <= Z.of_nat (length rs)).
  { pose proof (passes_failures (map outcome rs)) as Hs.
    rewrite length_map in Hs. unfold passes, failures in *. lia. }
  assert (Hm : MinInt64 = -9223372036854775808) by reflexivity.
  rewrite wrap64_small in Hv, Hf by lia.
  rewrite Hv, Ht, Hf, He, Herr, tally_total by lia.
  split; [done|]. split; [done|]. split; [done|]. split; [|done].
  rewrite tally_lookup, Hr.
  pose proof (countIf_nonneg hasError rs).
  pose proof (countIf_hasError_le rs). pose proof (countIf_split rs).
  pose proof (countIf_nonneg isSuccess rs).
  destruct (Z.eqb_spec (countIf hasError rs) 0) as [->|]; [done|].
  simpl. rewrite wrap64_small; lia.
Qed.

End EngineRecording.

(** ** The HTTP client's own metrics *)

Section ClientMetricsFacts.

Import Go HTTP.

(** How an exchange ends, as far as the client's metrics can tell. *)
Inductive Ending : Type :=
| Unbuilt
| Broken
| Answered (statusCode size : Z).

Definition endingOf (x : Exchange) : Ending :=
  match newRequestError x with
  | Some _ => Unbuilt
  | None =>
      match doResult x with
      | inr _ => Broken
      | inl httpResp =>
          match readAllResult x with
          | inr _ => Broken
          | inl body =>
              Answered (respStatusCode httpResp)
                (Z.of_nat (String.length body))
          end
      end
  end.

Definition isUnbuilt (x : Exchange) : bool :=
  match endingOf x with Unbuilt => true | _ => false end.
Definition isBroken (x : Exchange) : bool :=
  match endingOf x with Broken => true | _ => false end.
Definition isAnswered (x : Exchange) : bool :=
  match endingOf x with Answered _ _ => true | _ => false end.
Definition isAnsweredWell (x : Exchange) : bool :=
  match endingOf x with
  | Answered statusCode _ => (200 <=? statusCode) && (statusCode <? 400)
  | _ => false
  end.
Definition isAnsweredBadly (x : Exchange) : bool :=
  match endingOf x with
  | Answered statusCode _ => negb ((200 <=? statusCode) && (statusCode <? 400))
  | _ => false
  end.

Definition tallyIf (f : Exchange -> bool)
  (calls : list (Exchange * Protocols.Request)) : Z :=
  Z.of_nat (length (List.filter (fun call => f (fst call)) calls)).

(** The client after a sequence of calls of [Execute], oldest first. *)
Definition executeAll (calls : list (Exchange * Protocols.Request))
  (c : HTTPClient) : HTTPClient :=
  foldl (fun c call => snd (Execute c (fst call) (snd call))) c calls.

Lemma Execute_metrics c x req :
  metrics (snd (Execute c x req))
  = match endingOf x with
    | Unbuilt => metrics c
    | Broken => addFailed (metrics c)
    | Answered statusCode size =>
        updateMetrics (sinceStart x) size statusCode (metrics c)
    end.
Proof.
  unfold Execute, createHTTPRequest, endingOf.
  destruct (newRequestError x); [done|].
  destruct (doResult x); [|done]. by destruct (readAllResult x).
Qed.

Lemma tallyIf_snoc f calls call :
  tallyIf f (calls ++ [call])
  = tallyIf f calls + (if f (fst call) then 1 else 0).
Proof.
  unfold tallyIf. rewrite List.filter_app, length_app. simpl.
  destruct (f (fst call)); simpl; lia.
Qed.

Lemma tallyIf_bounds f calls : 0 <= tallyIf f calls <= Z.of_nat (length calls).
Proof.
  unfold tallyIf. pose proof (List.filter_length_le (fun call => f (fst call)) calls).
  lia.
Qed.

Lemma executeAll_snoc calls call c :
  executeAll (calls ++ [call]) c
  = snd (Execute (executeAll calls c) (fst call) (snd call)).
Proof. unfold executeAll. by rewrite foldl_app. Qed.

Lemma executeAll_counters cfg calls :
  let m := metrics (executeAll calls (NewHTTPClient cfg)) in
  TotalRequests m = wrap64 (tallyIf isAnswered calls)
  /\ SuccessfulRequests m = wrap64 (tallyIf isAnsweredWell calls)
  /\ FailedRequests m
     = wrap64 (tallyIf isBroken calls + tallyIf isAnsweredBadly calls).
Proof.
  induction calls as [|[x req] calls IH] using rev_ind; [done|].
  cbn zeta in *. destruct IH as (Ht & Hs & Hf).
  rewrite executeAll_snoc, Execute_metrics, !tallyIf_snoc. cbn [fst snd].
  assert (Ha : isAnswered x = match endingOf x with
                              | Answered _ _ => true | _ => false end)
    by reflexivity.
  assert (Hw : isAnsweredWell x
               = match endingOf x with
                 | Answered statusCode _ =>
                     (200 <=? statusCode) && (statusCode <? 400)
                 | _ => false end) by reflexivity.
  assert (Hb : isAnsweredBadly x
               = match endingOf x with
                 | Answered statusCode _ =>
                     negb ((200 <=? statusCode) && (statusCode <? 400))
                 | _ => false end) by reflexivity.
  assert (Hk : isBroken x = match endingOf x with
                            | Broken => true | _ => false end)
    by reflexivity.
  rewrite Ha, Hw, Hb, Hk. clear Ha Hw Hb Hk.
  destruct (endingOf x) as [| |statusCode size]; simpl.
  - rewrite Ht, Hs, Hf. repeat split; f_equal; lia.
  - rewrite Ht, Hs, Hf. unfold add64. rewrite wrap64_idemp_add.
    repeat split; f_equal; lia.
  - rewrite Ht, Hs, Hf. unfold add64.
    destruct ((200 <=? statusCode) && (statusCode <? 400)); simpl;
      rewrite !wrap64_idemp_add; repeat split; f_equal; lia.
Qed.

(** X19 (client.go, Execute and updateMetrics). After any sequence of calls
    whose number an int64 holds, the client's total counts the
    exchanges that were answered and whose body was read; its failure
    count also includes the exchanges that broke in the transport or
    while the body was read, so that successes and failures together
    exceed the total by the number of broken exchanges; an exchange
    whose request could not be built is counted nowhere. *)
Theorem client_total_leaves_out_broken_exchanges (cfg : Config)
  (calls : list (Exchange * Protocols.Request)) :
  Z.of_nat (length calls) <= MaxInt64 ->
  let m := metrics (executeAll calls (NewHTTPClient cfg)) in
  TotalRequests m = tallyIf isAnswered calls
  /\ SuccessfulRequests m = tallyIf isAnsweredWell calls
  /\ FailedRequests m = tallyIf isBroken calls + tallyIf isAnsweredBadly calls
  /\ SuccessfulRequests m + FailedRequests m
     = TotalRequests m + tallyIf isBroken calls
  /\ TotalRequests m + tallyIf isBroken calls + tallyIf isUnbuilt calls
     = Z.of_nat (length calls).
Proof.
  intros Hlen m. subst m.
  destruct (executeAll_counters cfg calls) as (Ht & Hs & Hf).
  cbn zeta in *.
  assert (Hsplit : tallyIf isAnswered calls
                   = tallyIf isAnsweredWell calls
                     + tallyIf isAnsweredBadly calls
                   /\ tallyIf isAnswered calls + tallyIf isBroken calls
                      + tallyIf isUnbuilt calls = Z.of_nat (length calls)).
  { clear. induction calls as [|[x req] calls [IH1 IH2]] using rev_ind;
      [done|].
    rewrite !tallyIf_snoc, length_app. cbn [fst length].
    assert (Hx : isAnswered x = isAnsweredWell x || isAnsweredBadly x
                 /\ isAnsweredWell x && isAnsweredBadly x = false
                 /\ In (isAnswered x, isBroken x, isUnbuilt x)
                      [(true, false, false); (false, true, false);
                       (false, false, true)]).
    { unfold isAnswered, isAnsweredWell, isAnsweredBadly, isBroken, isUnbuilt.
      destruct (endingOf x) as [| |statusCode size]; simpl.
      - tauto.
      - tauto.
      - destruct ((200 <=? statusCode) && (statusCode <? 400)); simpl; tauto. }
    destruct Hx as (Hx1 & Hx2 & Hx3). simpl in Hx3.
    destruct (isAnswered x), (isBroken x), (isUnbuilt x),
      (isAnsweredWell x), (isAnsweredBadly x);
      simpl in *; try done; try lia;
      repeat destruct Hx3 as [Hx3|Hx3]; try done. }
  destruct Hsplit as [Hs1 Hs2].
  pose proof (tallyIf_bounds isAnswered calls).
  pose proof (tallyIf_bounds isAnsweredWell calls).
  pose proof (tallyIf_bounds isAnsweredBadly calls).
  pose proof (tallyIf_bounds isBroken calls).
  pose proof (tallyIf_bounds isUnbuilt calls).
  assert (Hm : MinInt64 = -9223372036854775808) by reflexivity.
  rewrite wrap64_small in Ht, Hs, Hf by lia.
  rewrite Ht, Hs, Hf. lia.
Qed.

Lemma add64_1_neq z : add64 z 1 <> z.
Proof.
  unfold add64, wrap64.
  change (2 ^ 63) with 9223372036854775808.
  change (2 ^ 64) with 18446744073709551616. intros Heq.
  pose proof (Z.mod_pos_bound (z + 1 + 9223372036854775808)
                18446744073709551616 ltac:(lia)) as Hb.
  destruct (Z.eq_dec (z + 1 + 9223372036854775808) 18446744073709551616)
    as [E|E].
  - rewrite E, Z.mod_same in Heq by lia. lia.
  - rewrite Z.mod_small in Heq by lia. lia.
Qed.

(** X20 (client.go against the collector). For an exchange that is answered
    with a status below 200 the two books disagree: the client counts a
    failed request, while the collector, handed the response that
    [Execute] returns, counts a successful one.  From status 200 on
    they agree. *)
Theorem client_and_collector_disagree_below_200 (c : HTTPClient)
  (x : Exchange) (req : Protocols.Request) (statusCode size : Z)
  (collector : Metrics.Collector) :
  endingOf x = Answered statusCode size ->
  exists resp c',
    Execute c x req = ((Some resp, None), c')
    /\ Protocols.StatusCode resp = statusCode
    /\ (statusCode < 200 ->
          FailedRequests (metrics c') = add64 (FailedRequests (metrics c)) 1
          /\ SuccessfulRequests (metrics c') = SuccessfulRequests (metrics c)
          /\ Metrics.failedRequests (Metrics.RecordResponse resp collector)
             = Metrics.failedRequests collector
          /\ Metrics.successfulRequests (Metrics.RecordResponse resp collector)
             = add64 (Metrics.successfulRequests collector) 1)
    /\ (200 <= statusCode ->
          (FailedRequests (metrics c') = add64 (FailedRequests (metrics c)) 1
           <-> Metrics.failedRequests (Metrics.RecordResponse resp collector)
               = add64 (Metrics.failedRequests collector) 1)).
Proof.
  intros Hend. unfold Execute, createHTTPRequest. unfold endingOf in Hend.
  destruct (newRequestError x); [done|].
  destruct (doResult x) as [httpResp|]; [|done].
  destruct (readAllResult x) as [body|]; [|done].
  injection Hend as <- <-.
  eexists _, _. split; [reflexivity|]. split; [reflexivity|].
  set (s := respStatusCode httpResp).
  unfold Metrics.RecordResponse, Metrics.isFailure. simpl. fold s.
  split.
  - intros Hlow.
    destruct (Z.leb_spec 200 s); [lia|].
    destruct (Z.leb_spec 400 s); [lia|]. simpl. done.
  - intros Hhigh.
    destruct (Z.leb_spec 200 s); [|lia].
    destruct (Z.ltb_spec s 400), (Z.leb_spec 400 s); try lia; simpl.
    + split; intros Heq; exfalso; symmetry in Heq; revert Heq;
        apply add64_1_neq.
    + done.
Qed.

(** The running average of [updateMetrics] after the answered exchanges
    seen so far. *)
Definition averageWithin (lo hi : Z) (m : Metrics) : Prop :=
  0 <= TotalRequests m
  /\ (TotalRequests m = 0 -> AverageLatency m = 0)
  /\ (0 < TotalRequests m -> lo <= AverageLatency m <= hi).

Lemma updateMetrics_average lo hi responseTime size statusCode m :
  0 <= lo -> lo <= responseTime <= hi ->
  TotalRequests m + 1 <= MaxInt64 ->
  (TotalRequests m + 1) * hi <= MaxInt64 ->
  averageWithin lo hi m ->
  averageWithin lo hi (updateMetrics responseTime size statusCode m)
  /\ TotalRequests (updateMetrics responseTime size statusCode m)
     = TotalRequests m + 1.
Proof.
  intros Hlo Hrt Hn1 Hfit (Hn & Hzero & Hpos).
  assert (Hb : MinInt64 = -9223372036854775808) by reflexivity.
  assert (Hx : MaxInt64 = 9223372036854775807) by reflexivity.
  set (n := TotalRequests m) in *. set (avg := AverageLatency m) in *.
  assert (Hhi : 0 <= hi) by lia.
  unfold averageWithin, updateMetrics. cbn [TotalRequests AverageLatency].
  fold n avg. rewrite (add64_small n 1) by lia.
  split; [|done].
  split; [lia|]. split; [lia|]. intros _.
  destruct (Z.ltb_spec 0 (n + 1)); [|lia].
  unfold sub64, mul64, add64, quot64.
  replace (n + 1 - 1) with n by lia. rewrite (wrap64_small n) by lia.
  assert (Havg : lo * n <= avg * n <= hi * n).
  { destruct (Z.eq_dec n 0) as [->|]; [lia|].
    specialize (Hpos ltac:(lia)). nia. }
  rewrite (wrap64_small (avg * n)) by nia.
  rewrite (wrap64_small (avg * n + responseTime)) by nia.
  assert (Hq : lo <= (avg * n + responseTime) ÷ (n + 1) <= hi).
  { rewrite Z.quot_div_nonneg by nia. split.
    - apply Z.div_le_lower_bound; nia.
    - apply Z.div_le_upper_bound; nia. }
  rewrite wrap64_small by nia. done.
Qed.


(** X21 (client.go, updateMetrics). As long as the response times of the
    answered exchanges lie between [lo] and [hi], with [lo] not negative,
    and the number of calls times [hi] stays within an int64, the
    running average that the client keeps lies between [lo] and [hi] as
    soon as one exchange was answered; until then it is 0. *)
Theorem client_average_latency_is_bounded (cfg : Config)
  (calls : list (Exchange * Protocols.Request)) (lo hi : Z) :
  0 <= lo ->
  Forall (fun call => isAnswered (fst call) = true ->
                      lo <= sinceStart (fst call) <= hi) calls ->
  Z.of_nat (length calls) <= MaxInt64 ->
  Z.of_nat (length calls) * hi <= MaxInt64 ->
  let m := metrics (executeAll calls (NewHTTPClient cfg)) in
  (TotalRequests m = 0 -> AverageLatency m = 0)
  /\ (0 < TotalRequests m -> lo <= AverageLatency m <= hi).
Proof.
  intros Hlo Hall Hlen Hfit m.
  assert (Hinv : averageWithin lo hi m); [|by destruct Hinv as (_ & ? & ?)].
  subst m. induction calls as [|[x req] calls IH] using rev_ind.
  { by repeat split. }
  apply Forall_app in Hall as [Hall Hx].
  apply (proj1 (Forall_singleton _ _)) in Hx. cbn [fst] in Hx.
  rewrite length_app in Hlen, Hfit. cbn [length] in Hlen, Hfit.
  destruct (executeAll_counters cfg calls) as (Ht & _ & _). cbn zeta in Ht.
  pose proof (tallyIf_bounds isAnswered calls) as Hb.
  assert (Hm : MinInt64 = -9223372036854775808) by reflexivity.
  rewrite wrap64_small in Ht by lia.
  rewrite executeAll_snoc, Execute_metrics. cbn [fst snd].
  unfold isAnswered in Hx.
  destruct (endingOf x) as [| |statusCode size].
  - apply IH; [done|lia|].
    destruct (Z.le_gt_cases 0 hi); nia.
  - assert (Hprev : averageWithin lo hi
                      (metrics (executeAll calls (NewHTTPClient cfg)))).
    { apply IH; [done|lia|]. destruct (Z.le_gt_cases 0 hi); nia. }
    destruct Hprev as (? & ? & ?). unfold averageWithin. simpl. auto.
  - specialize (Hx eq_refl).
    apply updateMetrics_average; [done|done|lia| |].
    + rewrite Ht. nia.
    + apply IH; [done|lia|nia].
Qed.

End ClientMetricsFacts.

(** ** The catalogue of load patterns *)

Section PatternFacts.

Import Go Engine.

(** The time that the phases of a pattern span. *)
Definition span (pattern : LoadPattern) : Z :=
  foldr (fun phase acc => Duration phase + acc) 0 (Phases pattern).

Lemma quot_bounds d k :
  0 <= d -> 0 < k -> 0 <= d ÷ k /\ k * (d ÷ k) <= d < k * (d ÷ k) + k.
Proof.
  intros Hd Hk. rewrite Z.quot_div_nonneg by lia.
  pose proof (Z.div_mod d k ltac:(lia)).
  pose proof (Z.mod_pos_bound d k Hk).
  assert (0 <= d / k) by (apply Z.div_pos; lia). lia.
Qed.

(** X22 (worker.go, the four pattern constructors). For a run whose ramps
    fit into its duration, the phases of every pattern have durations
    that are not negative and span the configured duration up to the
    two nanoseconds that the integer divisions of [spike] and [stress]
    can lose; [steady], [ramp-up] and every unknown pattern name, which
    is read as [steady], span it exactly. *)
Theorem patterns_span_the_run (w : Worker) :
  let cfg := GetConfig (engine w) in
  let pattern := calculateLoadPattern w in
  0 <= Config.Duration cfg <= MaxInt64 ->
  0 <= Config.RampUp cfg -> 0 <= Config.RampDown cfg ->
  Config.RampUp cfg + Config.RampDown cfg <= Config.Duration cfg ->
  Forall (fun phase => 0 <= Duration phase) (Phases pattern)
  /\ Config.Duration cfg - 2 <= span pattern <= Config.Duration cfg
  /\ (Config.Pattern cfg <> "spike" -> Config.Pattern cfg <> "stress" ->
        span pattern = Config.Duration cfg)
  /\ (Type_ pattern = Config.Pattern cfg \/ Type_ pattern = "steady").
Proof.
  intros cfg pattern Hd Hu Hdn Hfit. subst pattern.
  assert (Hb : MinInt64 = -9223372036854775808) by reflexivity.
  assert (Hm : MaxInt64 = 9223372036854775807) by reflexivity.
  destruct (quot_bounds (Config.Duration cfg) 4) as [? ?]; [lia..|].
  destruct (quot_bounds (Config.Duration cfg) 2) as [? ?]; [lia..|].
  destruct (quot_bounds (Config.Duration cfg) 3) as [? ?]; [lia..|].
  unfold calculateLoadPattern, calculateSpikePattern, calculateSteadyPattern,
    calculateRampUpPattern, calculateStressPattern, span.
  fold cfg. unfold quot64, sub64.
  rewrite !(wrap64_small (Config.Duration cfg ÷ _)) by lia.
  rewrite (wrap64_small (Config.Duration cfg - Config.RampUp cfg)) by lia.
  rewrite (wrap64_small (Config.Duration cfg - Config.RampUp cfg
                         - Config.RampDown cfg)) by lia.
  destruct (String.eqb_spec (Config.Pattern cfg) "spike") as [Es|Es].
  { simpl. split; [repeat constructor; simpl; lia|]. split; [lia|].
    split; [done|by left]. }
  destruct (String.eqb_spec (Config.Pattern cfg) "steady") as [Et|Et].
  { simpl. split; [repeat constructor; simpl; lia|]. split; [lia|].
    split; [intros; lia|by right]. }
  destruct (String.eqb_spec (Config.Pattern cfg) "ramp-up") as [Er|Er].
  { simpl. split; [repeat constructor; simpl; lia|]. split; [lia|].
    split; [intros; lia|by left]. }
  destruct (String.eqb_spec (Config.Pattern cfg) "stress") as [Ex|Ex].
  { simpl. split; [repeat constructor; simpl; lia|]. split; [lia|].
    split; [done|by left]. }
  simpl. split; [repeat constructor; simpl; lia|]. split; [lia|].
  split; [intros; lia|by right].
Qed.

(** X23 (worker.go, calculateDelay in the loop of Worker.Run). In a run
    whose ramps fit into its duration the pacing delay is 0 on every
    call, whatever the pattern and however far the run has advanced:
    the elapsed time that [calculateDelay] forms is the configured
    duration plus the time between its two clock readings, which lies
    in no phase.  A turn of the worker's loop below the request cap
    therefore issues its request without a pacing sleep, and sleeps
    only for the configured delay between requests. *)
Theorem pattern_never_paces_a_run `{Lib} (a : Arch) (w : Worker)
  (now1 now2 : Z) (resp : Protocols.Response) (err : option string)
  (c : Metrics.Collector) :
  let cfg := GetConfig (engine w) in
  0 <= Config.Duration cfg <= MaxInt64 ->
  0 <= Config.RampUp cfg -> 0 <= Config.RampDown cfg ->
  Config.RampUp cfg + Config.RampDown cfg <= Config.Duration cfg ->
  now1 <= now2 ->
  Config.Duration cfg <= elapsedOf w now1 now2
  /\ calculateDelay a w (calculateLoadPattern w) now1 now2 = 0
  /\ (atCap w = false ->
      iteration a w (calculateLoadPattern w) false now1 now2
        (Some resp, err) c
      = Continued (counting w) (RecordResponse (engine w) resp c)
          (Request (CreateRequest (engine w))
           :: sleepIfPositive (Config.Delay cfg))).
Proof.
  intros cfg Hd Hu Hdn Hfit Hclock.
  destruct (calculateDelay_in_a_run a w now1 now2 Hd Hu Hdn Hfit Hclock)
    as [Hel Hdelay].
  split; [done|]. split; [done|].
  unfold atCap, iteration. fold cfg. intros ->.
  rewrite Hdelay. reflexivity.
Qed.

End PatternFacts.

(** ** Request counters in a run *)

Section RunCounters.

Import Go Engine.

Context `{Lib}.

(** The sum of the workers' request counters. *)
Definition requestsOf (ws : list (Worker * WorkerPC)) : Z :=
  foldr (fun wp acc => requests (fst wp) + acc) 0 ws.

Definition idsOf (ws : list (Worker * WorkerPC)) : list Z :=
  map (fun wp => id (fst wp)) ws.

(** The additions to the collector's total among updates still to
    come. *)
Fixpoint pendingTotals (ops : list CollectorOp) : Z :=
  match ops with
  | [] => 0
  | AddTotalRequests :: ops => 1 + pendingTotals ops
  | _ :: ops => pendingTotals ops
  end.

(** A request is under way when its worker has counted it and the
    collector has not. *)
Definition underWay (p : WorkerPC) : Z :=
  match p with
  | InFlight => 1
  | Recording ops => pendingTotals ops
  | _ => 0
  end.

Definition underWayOf (ws : list (Worker * WorkerPC)) : Z :=
  foldr (fun wp acc => underWay (snd wp) + acc) 0 ws.

Lemma requestsOf_insert ws (i : nat) w p w' p' :
  ws !! i = Some (w, p) ->
  requestsOf (<[i := (w', p')]> ws)
  = requestsOf ws - requests w + requests w'.
Proof.
  revert i. induction ws as [|[w0 p0] ws IH]; intros [|i] Hi; simplify_eq/=.
  - lia.
  - rewrite (IH i Hi). lia.
Qed.

Lemma underWayOf_insert ws (i : nat) w p w' p' :
  ws !! i = Some (w, p) ->
  underWayOf (<[i := (w', p')]> ws) = underWayOf ws - underWay p + underWay p'.
Proof.
  revert i. induction ws as [|[w0 p0] ws IH]; intros [|i] Hi; simplify_eq/=.
  - lia.
  - rewrite (IH i Hi). lia.
Qed.

Lemma idsOf_insert ws (i : nat) w p w' p' :
  ws !! i = Some (w, p) -> id w' = id w ->
  idsOf (<[i := (w', p')]> ws) = idsOf ws.
Proof.
  revert i. induction ws as [|[w0 p0] ws IH]; intros [|i] Hi Hid;
    simplify_eq/=.
  - by rewrite Hid.
  - by rewrite (IH i Hi Hid).
Qed.

Lemma requestsOf_bound ws cap :
  Forall (fun wp => 0 <= requests (fst wp) <= cap) ws ->
  0 <= requestsOf ws <= Z.of_nat (length ws) * cap.
Proof. induction 1 as [|wp ws Hwp Hws IH]; simpl; [lia|]. nia. Qed.

Lemma underWayOf_bound ws :
  Forall (fun wp => 0 <= underWay (snd wp) <= 1) ws ->
  0 <= underWayOf ws <= Z.of_nat (length ws).
Proof. induction 1 as [|wp ws Hwp Hws IH]; simpl; lia. Qed.

Lemma underWayOf_idle ws :
  Forall (fun wp => underWay (snd wp) = 0) ws -> underWayOf ws = 0.
Proof. induction 1 as [|wp ws Hwp Hws IH]; simpl; lia. Qed.

Lemma pendingTotals_app ops1 ops2 :
  pendingTotals (ops1 ++ ops2) = pendingTotals ops1 + pendingTotals ops2.
Proof.
  induction ops1 as [|op ops1 IH]; simpl; [done|].
  destruct op; lia.
Qed.

(** [LoadEngine.RecordResponse] adds to the collector's total once. *)
Lemma pendingTotals_recordOps e resp : pendingTotals (recordOps e resp) = 1.
Proof.
  unfold recordOps, validationOps, responseOps.
  rewrite pendingTotals_app.
  destruct (Validation.Passed _); [|destruct (negb _)];
    destruct (Metrics.isFailure resp); try destruct (Protocols.Error resp);
    reflexivity.
Qed.

Lemma pendingTotals_step op ops :
  0 <= pendingTotals ops <= pendingTotals (op :: ops).
Proof.
  assert (0 <= pendingTotals ops).
  { induction ops as [|o ops IH]; simpl; [lia|]. destruct o; lia. }
  destruct op; simpl; lia.
Qed.

Lemma perform_total op c :
  Metrics.totalRequests (perform op c)
  = match op with
    | AddTotalRequests => add64 (Metrics.totalRequests c) 1
    | _ => Metrics.totalRequests c
    end.
Proof. by destruct op. Qed.

(** The pieces of [LoadEngine.RecordResponse], taken one after the
    other, make up the whole. *)
Lemma performAll_recordOps e resp c :
  performAll (recordOps e resp) c = RecordResponse e resp c.
Proof.
  unfold performAll, recordOps, RecordResponse, validationOps, responseOps,
    Metrics.RecordValidation, Metrics.RecordResponse.
  rewrite foldl_app.
  assert (Hf : Metrics.isFailure resp = Metrics.isFailure resp) by done.
  destruct (Validation.Passed _); [|destruct (String.eqb _ "")];
    cbn [negb foldl];
    destruct (Metrics.isFailure resp); try destruct (Protocols.Error resp);
    reflexivity.
Qed.

(** What stays true of the workers and the collector during a run. *)
Record tallied (e : LoadEngine) (st : RunState) : Prop := {
  tallied_engine : Forall (fun wp => engine (fst wp) = e) (workers st);
  tallied_ids :
    idsOf (workers st) = map Z.of_nat (seq 0 (length (workers st)));
  tallied_unstarted :
    pc st = AtCollectorStart \/ pc st = AtSpawn ->
    Forall (fun wp => snd wp = NotStarted) (workers st);
  tallied_total :
    Metrics.totalRequests (collector st)
    = wrap64 (requestsOf (workers st) - underWayOf (workers st));
  tallied_underWay :
    Forall (fun wp => 0 <= underWay (snd wp) <= 1) (workers st);
  tallied_cap :
    0 < Config.MaxRequests (config e) <= MaxInt64 ->
    Forall (fun wp => 0 <= requests (fst wp)
                      <= Config.MaxRequests (config e)) (workers st)
}.

Lemma newWorkers_length numCPU e ws :
  newWorkers numCPU e = Some ws ->
  let configured := if Config.Workers (config e) =? 0 then numCPU
                    else Config.Workers (config e) in
  0 <= configured
  /\ ws = map (fun i => NewWorker (Z.of_nat i) e)
            (seq 0 (Z.to_nat configured)).
Proof.
  unfold newWorkers. cbn zeta.
  destruct (Z.ltb_spec (if Config.Workers (config e) =? 0 then numCPU
                        else Config.Workers (config e)) 0); [done|].
  by intros [= <-].
Qed.

Lemma tallied_initial numCPU e ws :
  newWorkers numCPU e = Some ws -> tallied e (initial ws).
Proof.
  intros [_ ->]%newWorkers_length. unfold initial.
  set (n := Z.to_nat _). clearbody n.
  assert (Hz : forall l : list nat,
            requestsOf (map (fun w => (w, NotStarted))
                          (map (fun i => NewWorker (Z.of_nat i) e) l)) = 0
            /\ underWayOf (map (fun w => (w, NotStarted))
                             (map (fun i => NewWorker (Z.of_nat i) e) l))
               = 0).
  { induction l as [|i l [IH1 IH2]]; [done|]. simpl. by rewrite IH1, IH2. }
  split; cbn [workers collector].
  - apply Forall_forall. intros wp Hin.
    apply list_elem_of_In, in_map_iff in Hin as (w & <- & Hin).
    by apply in_map_iff in Hin as (i & <- & _).
  - unfold idsOf. by rewrite !List.length_map, List.length_seq, !List.map_map.
  - intros _. apply Forall_forall. intros wp Hin.
    by apply list_elem_of_In, in_map_iff in Hin as (w & <- & Hin).
  - change (Metrics.totalRequests Metrics.NewCollector) with 0.
    destruct (Hz (seq 0 n)) as [-> ->]. reflexivity.
  - apply Forall_forall. intros wp Hin.
    apply list_elem_of_In, in_map_iff in Hin as (w & <- & Hin). simpl. lia.
  - intros Hcap. apply Forall_forall. intros wp Hin.
    apply list_elem_of_In, in_map_iff in Hin as (w & <- & Hin).
    apply in_map_iff in Hin as (i & <- & _). simpl. lia.
Qed.

(** The worker counts a request: the sum of the counters and the
    number of requests under way grow together. *)
Lemma counter_step R U r :
  wrap64 (R - U) = wrap64 (R - r + add64 r 1 - (U - 0 + 1)).
Proof.
  unfold add64.
  replace (R - r + wrap64 (r + 1) - (U - 0 + 1))
    with (wrap64 (r + 1) + (R - r - U - 1)) by lia.
  rewrite wrap64_idemp_add. f_equal. lia.
Qed.

Lemma collector_step total :
  add64 (wrap64 total) 1 = wrap64 (total + 1).
Proof. unfold add64. by rewrite wrap64_idemp_add. Qed.

(** A step of the worker at index [i], which has been launched. *)
Lemma tallied_worker e st (i : nat) w p w' p' c' tr' :
  tallied e st -> workers st !! i = Some (w, p) -> p <> NotStarted ->
  engine w' = engine w -> id w' = id w ->
  Metrics.totalRequests c'
  = wrap64 (requestsOf (workers st) - requests w + requests w'
            - (underWayOf (workers st) - underWay p + underWay p')) ->
  0 <= underWay p' <= 1 ->
  (0 < Config.MaxRequests (config e) <= MaxInt64 ->
   0 <= requests w <= Config.MaxRequests (config e) ->
   0 <= requests w' <= Config.MaxRequests (config e)) ->
  tallied e {| pc := pc st; ctxDone := ctxDone st;
               timerFired := timerFired st;
               workers := <[i := (w', p')]> (workers st);
               collector := c'; trace := tr' |}.
Proof.
  intros [Heng Hids Hun Htot Hund Hcap] Hi Hp He Hid Hc Hp' Hcap'.
  assert (Hw : engine w = e).
  { rewrite Forall_forall in Heng.
    apply (Heng (w, p)). by eapply list_elem_of_lookup_2. }
  split; cbn [pc workers collector].
  - apply Forall_insert; [done|]. simpl. congruence.
  - rewrite length_insert. by erewrite idsOf_insert.
  - intros Hpc. specialize (Hun Hpc). rewrite Forall_forall in Hun.
    destruct Hp. apply (Hun (w, p)). by eapply list_elem_of_lookup_2.
  - by erewrite requestsOf_insert, underWayOf_insert by done.
  - by apply Forall_insert.
  - intros Hc0. specialize (Hcap Hc0). apply Forall_insert; [done|].
    apply Hcap'; [done|]. rewrite Forall_forall in Hcap.
    apply (Hcap (w, p)). by eapply list_elem_of_lookup_2.
Qed.

Lemma launch_tallies ws :
  Forall (fun wp => snd wp = NotStarted) ws ->
  requestsOf (map launch ws) = requestsOf ws
  /\ underWayOf (map launch ws) = 0 /\ underWayOf ws = 0.
Proof.
  induction 1 as [|[w p] ws Hw Hws (IH1 & IH2 & IH3)]; [done|].
  simpl in *. subst p. simpl. lia.
Qed.

Lemma tallied_step e st st' :
  tallied e st -> step st st' -> tallied e st'.
Proof.
  intros Ht Hstep.
  pose proof Ht as [Heng Hids Hun Htot Hund Hcap].
  inversion Hstep as
    [ st0
    | st0 now Hpc
    | st0 Hpc
    | st0 Hpc
    | st0 Hpc Hdone
    | st0 now Hpc
    | st0 Hpc Hall
    | st0 Hpc
    | st0 Hpc
    | st0 i w Hi
    | st0 i w Hi
    | st0 i w resp Hi
    | st0 i w op ops Hi
    | st0 i w Hi ]; subst st0; subst st';
    try (split; cbn [pc workers collector]; first [done|by intros [|]]).
  - (* Collector.Start *)
    split; cbn [pc workers collector]; try done. intros _. apply Hun. auto.
  - (* the workers are launched *)
    destruct (launch_tallies (workers st) (Hun (or_intror Hpc)))
      as (Hr & Hu & Hu0).
    split; cbn [pc workers collector].
    + apply Forall_forall. intros wp Hin.
      apply list_elem_of_In, in_map_iff in Hin as ([w p] & <- & Hin).
      rewrite Forall_forall in Heng. apply list_elem_of_In in Hin.
      apply (Heng _ Hin).
    + unfold idsOf in *. rewrite List.length_map, List.map_map. exact Hids.
    + by intros [|].
    + by rewrite Htot, Hr, Hu, Hu0.
    + apply Forall_forall. intros wp Hin.
      apply list_elem_of_In, in_map_iff in Hin as ([w p] & <- & Hin).
      simpl. lia.
    + intros Hc. specialize (Hcap Hc). apply Forall_forall. intros wp Hin.
      apply list_elem_of_In, in_map_iff in Hin as ([w p] & <- & Hin).
      rewrite Forall_forall in Hcap. apply list_elem_of_In in Hin.
      apply (Hcap _ Hin).
  - (* a worker runs its select *)
    eapply tallied_worker; eauto.
    + cbn [collector]. rewrite Htot. f_equal.
      destruct (ctxDone st); simpl; lia.
    + destruct (ctxDone st); simpl; lia.
  - (* a worker counts its request, or returns at the cap *)
    unfold atCap, GetConfig.
    assert (Hw : engine w = e).
    { rewrite Forall_forall in Heng.
      apply (Heng (w, InLoopBody)). by eapply list_elem_of_lookup_2. }
    rewrite Hw.
    destruct (Z.ltb_spec 0 (Config.MaxRequests (config e))) as [Hpos|Hnone];
      cbn [andb];
      [destruct (Z.leb_spec (Config.MaxRequests (config e)) (requests w))
         as [Hfull|Hroom]|].
    + eapply tallied_worker; eauto; cbn [collector underWay];
        [rewrite Htot; f_equal; lia|lia].
    + eapply tallied_worker; eauto; cbn [collector underWay counting requests];
        [rewrite Htot; apply counter_step|lia|].
      intros Hc Hr.
      assert (Hb : MinInt64 = -9223372036854775808) by reflexivity.
      rewrite add64_small by lia. lia.
    + eapply tallied_worker; eauto; cbn [collector underWay counting requests];
        [rewrite Htot; apply counter_step|lia|lia].
  - (* the protocol client returns *)
    eapply tallied_worker; eauto; cbn [collector underWay];
      rewrite ?pendingTotals_recordOps; [rewrite Htot; f_equal; lia|lia].
  - (* an update of the collector *)
    assert (Hops : 0 <= pendingTotals (op :: ops) <= 1).
    { rewrite Forall_forall in Hund.
      apply (Hund (w, Recording (op :: ops))).
      by eapply list_elem_of_lookup_2. }
    pose proof (pendingTotals_step op ops) as Hstep'.
    eapply tallied_worker; eauto; cbn [collector underWay]; [|lia].
    rewrite perform_total, Htot.
    destruct op; cbn [pendingTotals]; try (f_equal; lia).
    rewrite collector_step. f_equal. lia.
  - (* LoadEngine.RecordResponse returns *)
    eapply tallied_worker; eauto; cbn [collector underWay pendingTotals];
      [rewrite Htot; f_equal; lia|lia].
Qed.

Lemma reachable_tallied e numCPU st :
  reachable e numCPU st -> tallied e st.
Proof.
  induction 1 as [ws Hws|st st' _ IH Hstep].
  - by eapply tallied_initial.
  - by eapply tallied_step.
Qed.

Lemma step_workers_length st st' :
  step st st' -> length (workers st') = length (workers st).
Proof.
  inversion 1; subst; cbn [workers];
    by rewrite ?length_insert, ?List.length_map.
Qed.

(** X24 (engine.go and worker.go, the request counters in a run). A run
    exists only for a number of workers that is not negative.  In every
    state of a run the engine has the workers it was created with, one
    per configured worker or per CPU, numbered from 0.  A request is
    under way from the moment its worker has counted it until the
    collector has counted the response, and each worker has at most one
    under way: the collector's total is the sum of the workers' own
    request counters less the requests under way, in the arithmetic of
    an int64, and is that sum once every worker has returned.  A
    request cap, when one is set, bounds the counter of each worker, so
    that the run as a whole issues up to the cap times the number of
    workers. *)
Theorem run_counts_requests_per_worker (e : LoadEngine) (numCPU : Z)
  (st : RunState) :
  reachable e numCPU st ->
  let n := length (workers st) in
  let cap := Config.MaxRequests (config e) in
  let configured := if Config.Workers (config e) =? 0 then numCPU
                    else Config.Workers (config e) in
  0 <= configured
  /\ n = Z.to_nat configured
  /\ idsOf (workers st) = map Z.of_nat (seq 0 n)
  /\ Metrics.totalRequests (collector st)
     = wrap64 (requestsOf (workers st) - underWayOf (workers st))
  /\ 0 <= underWayOf (workers st) <= Z.of_nat n
  /\ (allTerminated (workers st) ->
      Metrics.totalRequests (collector st) = wrap64 (requestsOf (workers st)))
  /\ (0 < cap <= MaxInt64 ->
        Forall (fun wp => 0 <= requests (fst wp) <= cap) (workers st)
        /\ 0 <= requestsOf (workers st) <= Z.of_nat n * cap).
Proof.
  intros Hreach n cap configured.
  destruct (reachable_tallied e numCPU st Hreach)
    as [_ Hids _ Htot Hund Hcap].
  assert (Hn : 0 <= configured /\ n = Z.to_nat configured).
  { subst n. clear -Hreach.
    induction Hreach as [ws Hws|st st' _ IH Hstep].
    - apply newWorkers_length in Hws as [Hc ->]. split; [done|].
      unfold initial. cbn [workers].
      by rewrite !List.length_map, List.length_seq.
    - by rewrite (step_workers_length st st' Hstep). }
  split; [apply Hn|]. split; [apply Hn|]. split; [done|]. split; [done|].
  split; [by apply underWayOf_bound|]. split.
  - intros Hall. rewrite Htot. f_equal.
    rewrite underWayOf_idle; [lia|].
    eapply Forall_impl; [exact Hall|]. by intros [w p] ->.
  - intros Hc. specialize (Hcap Hc). split; [done|].
    by apply requestsOf_bound.
Qed.

End RunCounters.

Section OverrideFacts.

Import Go Overrides.

Context `{Lib}.

Definition noOverrides : ValidationOverrides :=
  {| ExpectStatus := []; ExpectResponseTime := 0;
     ExpectBody := ""; ExpectBodyNot := "" |}.

Lemma existsb_eqb_elem_of (x : Z) (l : list Z) :
  existsb (fun y => x =? y) l = true <-> x ∈ l.
Proof.
  rewrite existsb_exists, list_elem_of_In. split.
  - by intros (y & Hy & ->%Z.eqb_eq).
  - intros Hin. exists x. split; [done|apply Z.eqb_refl].
Qed.

(** X25 (response_validator.go, ValidateWithOverrides). Without overrides
    the verdict is that of [Validate].  An override replaces the rule
    of the scenario and does not add to it: with expected statuses the
    status rule passes exactly for those, whatever the scenario allows;
    with an expected response time [d], which is handed on as text and
    parsed again, the time rule passes exactly up to [d] as long as the
    text of [d] parses back to [d]; with an expected body text the
    texts required by the scenario are no longer looked for. *)
Theorem overrides_replace_the_rules (config : Config.ValidationConfig)
  (overrides : ValidationOverrides) (resp : Protocols.Response) :
  ValidateWithOverrides config resp noOverrides
  = Validation.Validate config resp
  /\ (ExpectStatus overrides <> [] ->
        forall statusCode,
          Validation.Passed
            (Validation.validateStatusCode (tempConfig config overrides)
               statusCode) = true
          <-> statusCode ∈ ExpectStatus overrides)
  /\ (0 < ExpectResponseTime overrides ->
      time_ParseDuration (fmt_v_duration (ExpectResponseTime overrides))
      = Some (ExpectResponseTime overrides) ->
      fmt_v_duration (ExpectResponseTime overrides) <> "" ->
        forall responseTime,
          Validation.Passed
            (Validation.validateResponseTime (tempConfig config overrides)
               responseTime) = true
          <-> responseTime <= ExpectResponseTime overrides)
  /\ (ExpectBody overrides <> "" ->
        Config.BodyContains (tempConfig config overrides)
        = [ExpectBody overrides]).
Proof.
  split; [|split; [|split]].
  - unfold ValidateWithOverrides, tempConfig, noOverrides. simpl.
    by destruct config.
  - intros Hne statusCode. unfold Validation.validateStatusCode, tempConfig.
    cbn [Config.StatusCodes].
    destruct (ExpectStatus overrides) as [|c l] eqn:E; [done|].
    cbn [length Nat.ltb Nat.leb]. rewrite <- existsb_eqb_elem_of.
    by destruct (existsb _ (c :: l)).
  - intros Hpos Hparse Htext responseTime.
    unfold Validation.validateResponseTime, tempConfig.
    cbn [Config.ResponseTimeMax].
    destruct (Z.ltb_spec 0 (ExpectResponseTime overrides)); [|lia].
    destruct (String.eqb_spec
                (fmt_v_duration (ExpectResponseTime overrides)) "");
      [done|].
    rewrite Hparse.
    destruct (Z.ltb_spec (ExpectResponseTime overrides) responseTime);
      simpl; split; try done; lia.
  - intros Hne. unfold tempConfig. cbn [Config.BodyContains].
    by destruct (String.eqb_spec (ExpectBody overrides) "").
Qed.

End OverrideFacts.

Section ReportFacts.

Import Go Reporting.

Context `{Lib}.

Lemma failures_positive outcomes :
  0 < failures outcomes <-> exists o, o ∈ outcomes /\ fst o = false.
Proof.
  induction outcomes as [|o l IH]; simpl.
  - split; [unfold failures; simpl; lia|]. by intros (o & ?%elem_of_nil & _).
  - rewrite failures_cons. pose proof (passes_failures l) as Hs.
    assert (0 <= failures l) by (unfold failures; lia).
    destruct (fst o) eqn:Ho.
    + rewrite Z.add_0_l, IH. split.
      * intros (o' & Hin & Hf). exists o'. split; [by apply elem_of_cons; right|done].
      * intros (o' & [->|Hin]%elem_of_cons & Hf); [congruence|by exists o'].
    + split; [|lia]. intros _. exists o. split; [by apply elem_of_cons; left|done].
Qed.

(** X26 (reporting, formatValidationResults on what the engine recorded).
    Whatever the engine recorded, the report calls the validation of
    the status code and of the response time passed; it calls the
    validation of the body failed exactly when some response failed
    validation, by whatever rule, a wrong status code included. *)
Theorem report_blames_every_failure_on_the_body (e : Engine.LoadEngine)
  (rs : list Protocols.Response) :
  Z.of_nat (length rs) <= MaxInt64 ->
  let c := engineRecordAll e rs Metrics.NewCollector in
  let report := formatValidationResults (Some (Metrics.validationResults c)) in
  StatusCodeValidation report = "passed"
  /\ ResponseTimeValidation report = "passed"
  /\ (BodyValidation report = "failed"
      <-> exists r, r ∈ rs
            /\ Validation.Passed
                 (Validation.Validate (Engine.validator e) r) = false)
  /\ (BodyValidation report = "failed" \/ BodyValidation report = "passed").
Proof.
  intros Hlen c report. subst report c.
  rewrite engineRecordAll_split. cbn [Metrics.validationResults withValidation].
  destruct (countAll_spec (map (outcome e) rs)) as (_ & _ & Hf & _).
  cbn zeta in Hf.
  pose proof (passes_failures (map (outcome e) rs)) as Hs.
  rewrite List.length_map in Hs.
  assert (0 <= failures (map (outcome e) rs)) by (unfold failures; lia).
  assert (0 <= passes (map (outcome e) rs)) by (unfold passes; lia).
  assert (Hm : MinInt64 = -9223372036854775808) by reflexivity.
  rewrite wrap64_small in Hf by lia.
  unfold formatValidationResults. simpl. rewrite Hf.
  split; [done|]. split; [done|].
  split; [|by destruct (0 <? _); [left|right]].
  destruct (Z.ltb_spec 0 (failures (map (outcome e) rs))) as [Hpos|Hnone].
  - split; [|done]. intros _.
    apply failures_positive in Hpos as (o & Hin & Ho).
    apply list_elem_of_In, in_map_iff in Hin as (r & <- & Hin).
    exists r. split; [by apply list_elem_of_In|done].
  - split; [done|]. intros (r & Hin & Hr). exfalso.
    assert (0 < failures (map (outcome e) rs)); [|lia].
    apply failures_positive. exists (outcome e r).
    split; [|done]. apply list_elem_of_In, in_map_iff. exists r.
    split; [done|by apply list_elem_of_In].
Qed.

Lemma fmt_d_length :
  (forall z, fmt_d z <> "") ->
  forall z, 1 <= Z.of_nat (String.length (fmt_d z)).
Proof.
  intros Hfmt z. specialize (Hfmt z). destruct (fmt_d z); [done|simpl; lia].
Qed.

(** Behind the first entry every further one adds eleven bytes at
    least: seven of separator, a colon, a blank and two numbers. *)
Lemma statusLoop_length entries count statusLine :
  (forall z, fmt_d z <> "") ->
  0 < count < 6 ->
  Z.of_nat (String.length statusLine)
  + 11 * Z.min (Z.of_nat (length entries)) (6 - count)
  <= Z.of_nat (String.length (statusLoop entries count statusLine)).
Proof.
  intros Hfmt. revert count statusLine.
  induction entries as [|[code num] rest IH]; intros count statusLine Hc.
  { cbn [statusLoop length]. lia. }
  cbn [statusLoop length].
  pose proof (fmt_d_length Hfmt code). pose proof (fmt_d_length Hfmt num).
  destruct (Z.ltb_spec 0 count); [|lia].
  set (line := (statusLine +:+ "  │  ")
               +:+ (fmt_d code +:+ ": " +:+ fmt_d num)).
  assert (Hl : Z.of_nat (String.length statusLine) + 11
               <= Z.of_nat (String.length line)).
  { subst line. rewrite !length_append. simpl. lia. }
  destruct (Z.leb_spec 6 (count + 1)) as [Hfull|Hroom]; [lia|].
  specialize (IH (count + 1) line ltac:(lia)). lia.
Qed.

(** X27 (live_reporter.go, updateDisplay). The line of status codes is
    padded to 60 bytes with [strings.Repeat], which panics on a negative
    count: the display panics exactly when the line, before padding, is
    longer than 60 bytes, and this is the case whenever the summary
    holds six status codes or more, whatever the numbers are. *)
Theorem live_status_line_overflows (entries : list (Z * Z)) :
  (forall z, fmt_d z <> "") ->
  (statusRow entries = None
   <-> 60 < Z.of_nat (String.length (statusLoop entries 0 "│  ")))
  /\ ((6 <= length entries)%nat -> statusRow entries = None).
Proof.
  intros Hfmt.
  assert (Hiff : statusRow entries = None
                 <-> 60 < Z.of_nat (String.length (statusLoop entries 0 "│  "))).
  { unfold statusRow, strings_Repeat.
    destruct (Z.ltb_spec (60 - Z.of_nat (String.length
                                           (statusLoop entries 0 "│  "))) 0);
      simpl; split; try done; lia. }
  split; [done|]. intros Hsix. apply Hiff.
  destruct entries as [|[code num] rest]; [simpl in Hsix; lia|].
  cbn [statusLoop length] in *.
  pose proof (fmt_d_length Hfmt code). pose proof (fmt_d_length Hfmt num).
  set (line := "│  " +:+ (fmt_d code +:+ ": " +:+ fmt_d num)).
  assert (Hl : 9 <= Z.of_nat (String.length line)).
  { subst line. rewrite !length_append. simpl. lia. }
  pose proof (statusLoop_length rest 1 line Hfmt ltac:(lia)) as Hlen.
  change (0 + 1) with 1. change (6 <=? 1) with false. cbn iota.
  change (0 <? 0) with false. cbn iota. fold line. lia.
Qed.

End ReportFacts.

(** ** The rates of the summary and the exit status *)

Section RateFacts.

Import Go Metrics Engine Rates.

Context `{Lib}.

Lemma perform_endTime op c : endTime (perform op c) = endTime c.
Proof. by destruct op. Qed.

(** Until the engine has stopped the collector no end time is set. *)
Lemma unstopped_has_no_endTime e numCPU st :
  reachable e numCPU st ->
  stopped (pc st) = false -> endTime (collector st) = None.
Proof.
  induction 1 as [ws Hws|st st' Hreach IH Hstep]; [done|].
  inversion Hstep as
    [ st0
    | st0 now Hpc
    | st0 Hpc
    | st0 Hpc
    | st0 Hpc Hdone
    | st0 now Hpc
    | st0 Hpc Hall
    | st0 Hpc
    | st0 Hpc
    | st0 i w Hi
    | st0 i w Hi
    | st0 i w resp Hi
    | st0 i w op ops Hi
    | st0 i w Hi ]; subst st0; subst st';
    cbn [pc collector]; intros Hs; rewrite ?perform_endTime;
    first [ done | apply IH; first [ done | by rewrite Hpc ] ].
Qed.

(** X28 (metrics, GetSummary during a run). A summary taken while the run
    goes on, that is before the engine has stopped the collector,
    reports a throughput of 0 requests and 0 bytes per second, however
    many responses were recorded: the rates are computed from an end
    time that is not set until then. *)
Theorem live_summary_has_no_throughput (e : LoadEngine)
  (numCPU : Z) (st : RunState) :
  reachable e numCPU st ->
  stopped (pc st) = false ->
  RequestsPerSecond (rates (collector st)) = 0%float
  /\ BytesPerSecond (rates (collector st)) = 0%float.
Proof.
  intros Hreach Hs. unfold rates.
  rewrite (unstopped_has_no_endTime e numCPU st Hreach Hs).
  by destruct (startTime (collector st)).
Qed.

End RateFacts.

Section ExitStatus.

Import Go Metrics Rates.

(** The rate of [succ] successes among [total] requests, as [GetSummary]
    computes it. *)
Definition rateOf (succ total : Z) : float :=
  (float64_of_int64 succ / float64_of_int64 total * 100)%float.

Definition thresholdIsExact (total : nat) : bool :=
  forallb (fun succ : nat =>
             Z.eqb (exitStatus (rateOf (Z.of_nat succ) (Z.of_nat total)))
                   (if 100 * Z.of_nat succ <? 95 * Z.of_nat total
                    then 2 else 0))
    (seq 0 (S total)).

Lemma exitStatus_exact (succ total : Z) :
  0 <= succ <= total -> 1 <= total <= 200 ->
  exitStatus (rateOf succ total)
  = if 100 * succ <? 95 * total then 2 else 0.
Proof.
  intros Hs Ht.
  assert (Hall : forallb thresholdIsExact (seq 1 200) = true)
    by (vm_compute; reflexivity).
  rewrite forallb_forall in Hall.
  specialize (Hall (Z.to_nat total)).
  unfold thresholdIsExact in Hall. rewrite forallb_forall in Hall.
  specialize (Hall ltac:(apply in_seq; lia) (Z.to_nat succ)
                ltac:(apply in_seq; lia)).
  rewrite !Z2Nat.id in Hall by lia. by apply Z.eqb_eq.
Qed.

(** X29 (run.go with GetSummary, the exit status). A run that recorded no
    response ends with exit status 2.  For a run of up to two hundred
    responses the status is 2 exactly when fewer than 95 in 100 of
    them were successful: the rate computed on float64 values decides
    as exact arithmetic does. *)
Theorem exit_status_follows_success_rate (rs : list Protocols.Response) :
  (length rs <= 200)%nat ->
  let c := recordAll rs NewCollector in
  exitStatus (SuccessRate (rates c))
  = if (length rs =? 0)%nat then 2
    else if 100 * countIf isSuccess rs <? 95 * Z.of_nat (length rs)
    then 2 else 0.
Proof.
  intros Hn c.
  assert (Hm : MaxInt64 = 9223372036854775807) by reflexivity.
  destruct (recordAll_exact_counters rs ltac:(lia)) as (Ht & _ & Hs).
  fold c in Ht, Hs. unfold rates. cbn [SuccessRate]. rewrite Ht, Hs.
  destruct rs as [|r rs]; [reflexivity|].
  set (l := r :: rs) in *. cbn [length Nat.eqb].
  destruct (Z.ltb_spec 0 (Z.of_nat (length l))); [|simpl in *; lia].
  pose proof (countIf_split l). pose proof (countIf_nonneg isFailure l).
  pose proof (countIf_nonneg isSuccess l).
  change (S (length rs)) with (length l).
  apply exitStatus_exact; lia.
Qed.

End ExitStatus.

(** ** Query parameters *)

Section QueryFacts.

Import Go HTTP.

Lemma strings_Join_app (a b : list string) sep :
  a <> [] -> b <> [] ->
  strings_Join (a ++ b) sep
  = strings_Join a sep +:+ sep +:+ strings_Join b sep.
Proof.
  intros Ha Hb. induction a as [|e a IH]; [done|].
  destruct a as [|e' a].
  - destruct b as [|e' b]; done.
  - change ((e :: e' :: a) ++ b) with (e :: ((e' :: a) ++ b)).
    change (strings_Join (e :: (e' :: a) ++ b) sep)
      with (e +:+ sep +:+ strings_Join ((e' :: a) ++ b) sep).
    rewrite IH by done.
    change (strings_Join (e :: e' :: a) sep)
      with (e +:+ sep +:+ strings_Join (e' :: a) sep).
    by rewrite !append_assoc.
Qed.

Lemma query_mark_present baseURL rest :
  strings_Contains
    (baseURL +:+ (if strings_Contains baseURL "?" then "&" else "?") +:+ rest)
    "?" = true.
Proof.
  rewrite !strings_Contains_single_app.
  destruct (strings_Contains baseURL "?"); [done|].
  by destruct rest.
Qed.

(** X30 (client.go, buildURLWithParams). Adding parameters to a URL in two
    steps gives the URL that adding them all at once, in the same
    order, gives: the first
    parameter goes behind a question mark unless the URL holds one, every
    further one behind an ampersand; without parameters the URL is left
    as it is. *)
Theorem query_parameters_accumulate (baseURL : string)
  (params more : list (string * string)) :
  buildURLWithParams (buildURLWithParams baseURL params) more
  = buildURLWithParams baseURL (params ++ more)
  /\ buildURLWithParams baseURL [] = baseURL
  /\ (params <> [] ->
        strings_Contains (buildURLWithParams baseURL params) "?" = true).
Proof.
  split; [|split; [done|]].
  - destruct params as [|p params]; [done|].
    destruct more as [|m more]; [by rewrite app_nil_r|].
    unfold buildURLWithParams at 2.
    set (query := map (fun kv => fst kv +:+ "=" +:+ snd kv) (p :: params)).
    unfold buildURLWithParams.
    change ((p :: params) ++ m :: more)
      with (p :: (params ++ m :: more)).
    cbv iota. rewrite query_mark_present.
    change (p :: (params ++ m :: more)) with ((p :: params) ++ m :: more).
    rewrite List.map_app. fold query.
    rewrite strings_Join_app by done.
    by rewrite !append_assoc.
  - intros Hne. destruct params as [|p params]; [done|].
    unfold buildURLWithParams. apply query_mark_present.
Qed.

End QueryFacts.

(** * The properties on the sample inputs *)

Section Instances.

Import Go Examples Samples.

Lemma template_without_placeholder_is_kept_witness :
  Environment.ExpandVariables sampleOS [("HOST", "example.org")] "/health"
  = "/health".
Proof.
  apply template_without_placeholder_is_kept. reflexivity.
Defined.

Lemma placeholder_takes_the_custom_value_witness :
  Environment.ExpandVariables sampleOS [("HOST", "example.org")]
    ("http://" +:+ Environment.pattern "HOST" +:+ "/health")
  = "http://" +:+ "example.org" +:+ "/health".
Proof.
  apply (placeholder_takes_the_custom_value sampleOS
           {["HOST" := "example.org"]}).
  - by rewrite map_to_list_singleton.
  - reflexivity.
  - apply map_Forall_singleton. split; reflexivity.
  - reflexivity.
  - reflexivity.
  - reflexivity.
Defined.

Lemma template_without_braces_is_kept_witness :
  StringUtils.ExpandTemplate "Hello, John" [("name", "John")] = "Hello, John".
Proof.
  apply template_without_braces_is_kept. reflexivity.
Defined.

Lemma body_rule_is_containment_witness :
  Validation.Passed
    (Validation.validateBody (H := noLib) bodyRules "status: ok")
  = StringUtils.ContainsAll "status: ok" ["ok"]
    && negb (StringUtils.ContainsAny "status: ok" ["error"]).
Proof.
  apply (body_rule_is_containment (H := noLib) bodyRules "status: ok");
    reflexivity.
Defined.

Lemma TruncateString_fits_witness :
  StringUtils.TruncateString "hello world" 8 = Some "hello..."
  /\ Z.of_nat (String.length "hello...") <= 8.
Proof.
  split; [reflexivity|].
  apply (proj2 (TruncateString_fits "hello world" 8
                  ltac:(vm_compute; split; discriminate)) "hello...").
  reflexivity.
Defined.

Lemma accepted_scenario_builds_sound_requests_witness :
  Protocols.Method (Engine.CreateRequest (H := noLib) (engineFor
                      (runConfig "steady" (30 * Second) (10 * Second)
                         (5 * Second))))
  ∈ ConfigRules.validMethods.
Proof.
  apply (accepted_scenario_builds_sound_requests (H := noLib) healthScenario
           (engineFor (runConfig "steady" (30 * Second) (10 * Second)
                         (5 * Second))));
    reflexivity.
Defined.

Lemma accepted_scenario_has_sound_rules_witness :
  Forall (fun code => 100 <= code <= 599)
    (Config.StatusCodes (Config.GetValidationConfig getHealth)).
Proof.
  apply (accepted_scenario_has_sound_rules (H := noLib) healthScenario).
  reflexivity.
Defined.

Lemma accepted_scenario_has_bounded_retries_witness :
  0 <= ConfigRules.Attempts (ConfigRules.GetRetryConfig healthScenario) <= 10.
Proof.
  apply (accepted_scenario_has_bounded_retries (H := noLib) healthScenario).
  reflexivity.
Defined.

Lemma CalculateAverage_between_min_and_max_witness :
  ms 100 <= TimeUtils.CalculateAverage [ms 300; ms 100; ms 500] <= ms 500.
Proof.
  apply (CalculateAverage_between_min_and_max [ms 300; ms 100; ms 500]);
    vm_compute; discriminate.
Defined.

Lemma extreme_percentiles_are_min_and_max_witness :
  Utils.CalculatePercentile amd64 [ms 300; ms 100; ms 500] 0
  = Some (ms 100)
  /\ Utils.CalculatePercentile amd64 [ms 300; ms 100; ms 500] 100
     = Some (ms 500).
Proof.
  apply (extreme_percentiles_are_min_and_max amd64 [ms 300; ms 100; ms 500]).
  simpl. lia.
Defined.

Lemma latency_stats_agree_with_utils_witness :
  exists stats,
    Metrics.calculateLatencyStats amd64
      (Metrics.recordAll [response 200 (ms 12) None; response 500 (ms 7) None]
         Metrics.NewCollector) = Some stats
    /\ (Metrics.Min stats, Metrics.Max stats)
       = Utils.CalculateMinMax [ms 12; ms 7].
Proof.
  destruct (latency_stats_agree_with_utils amd64
              [response 200 (ms 12) None; response 500 (ms 7) None])
    as (stats & Hs & Hm & _).
  - simpl. lia.
  - repeat constructor.
  - exists stats. by split.
Defined.

Lemma validation_counters_add_up_witness :
  Metrics.TotalValidations
    (Metrics.validationResults
       (validateAll [(true, ""); (false, "status_code"); (false, "")]
          Metrics.NewCollector)) = 3.
Proof.
  apply (validation_counters_add_up
           [(true, ""); (false, "status_code"); (false, "")]).
  vm_compute. discriminate.
Defined.

Lemma engine_validates_every_response_witness :
  let c := engineRecordAll (H := noLib)
             (engineFor (runConfig "steady" (30 * Second) (10 * Second)
                           (5 * Second)))
             [response 200 (ms 12) None; response 0 (ms 3) (Some "EOF")]
             Metrics.NewCollector in
  Metrics.TotalValidations (Metrics.validationResults c)
  = Metrics.totalRequests c.
Proof.
  apply (engine_validates_every_response (H := noLib)
           (engineFor (runConfig "steady" (30 * Second) (10 * Second)
                         (5 * Second)))
           [response 200 (ms 12) None; response 0 (ms 3) (Some "EOF")]).
  vm_compute. discriminate.
Defined.

Lemma client_total_leaves_out_broken_exchanges_witness :
  let m := HTTP.metrics
             (executeAll [(answered 200 "ok" (ms 12), healthRequest);
                          (refused (ms 3), healthRequest)]
                (HTTP.NewHTTPClient clientConfig)) in
  HTTP.SuccessfulRequests m + HTTP.FailedRequests m
  = HTTP.TotalRequests m + 1.
Proof.
  apply (client_total_leaves_out_broken_exchanges clientConfig
           [(answered 200 "ok" (ms 12), healthRequest);
            (refused (ms 3), healthRequest)]).
  vm_compute. discriminate.
Defined.

Lemma client_and_collector_disagree_below_200_witness :
  exists resp c',
    HTTP.Execute (HTTP.NewHTTPClient clientConfig)
      (answered 101 "" (ms 2)) healthRequest = ((Some resp, None), c')
    /\ Protocols.StatusCode resp = 101.
Proof.
  destruct (client_and_collector_disagree_below_200
              (HTTP.NewHTTPClient clientConfig) (answered 101 "" (ms 2))
              healthRequest 101 0 Metrics.NewCollector eq_refl)
    as (resp & c' & He & Hs & _).
  by exists resp, c'.
Defined.

Lemma client_average_latency_is_bounded_witness :
  let m := HTTP.metrics
             (executeAll [(answered 200 "ok" (ms 12), healthRequest);
                          (refused (ms 3), healthRequest);
                          (answered 404 "" (ms 7), healthRequest)]
                (HTTP.NewHTTPClient clientConfig)) in
  ms 7 <= HTTP.AverageLatency m <= ms 12.
Proof.
  apply (client_average_latency_is_bounded clientConfig
           [(answered 200 "ok" (ms 12), healthRequest);
            (refused (ms 3), healthRequest);
            (answered 404 "" (ms 7), healthRequest)] (ms 7) (ms 12)).
  - vm_compute. discriminate.
  - repeat (apply Forall_cons_2;
            [vm_compute; solve [ intros [=] | intros _; split; discriminate ]|]).
    apply Forall_nil_2.
  - vm_compute. discriminate.
  - vm_compute. discriminate.
  - reflexivity.
Defined.

Lemma patterns_span_the_run_witness :
  let w := Engine.NewWorker 0
             (engineFor (runConfig "spike" (30 * Second + 3) (10 * Second)
                           (5 * Second))) in
  30 * Second + 3 - 2 <= span (Engine.calculateLoadPattern w)
  <= 30 * Second + 3.
Proof.
  apply (patterns_span_the_run
           (Engine.NewWorker 0
              (engineFor (runConfig "spike" (30 * Second + 3) (10 * Second)
                            (5 * Second)))));
    vm_compute; try split; discriminate.
Defined.

Lemma pattern_never_paces_a_run_witness :
  let w := Engine.NewWorker 0
             (engineFor (runConfig "stress" (30 * Second) (10 * Second)
                           (5 * Second))) in
  Engine.calculateDelay arm64 w (Engine.calculateLoadPattern w)
    (12 * Second) (12 * Second + 80) = 0.
Proof.
  apply (pattern_never_paces_a_run (H := noLib) arm64
           (Engine.NewWorker 0
              (engineFor (runConfig "stress" (30 * Second) (10 * Second)
                            (5 * Second))))
           (12 * Second) (12 * Second + 80)
           (response 200 (ms 12) None) None Metrics.NewCollector);
    vm_compute; try split; discriminate.
Defined.

(** Two workers: the first has issued one request, recorded the
    response and is back at the head of its loop; the second has
    counted its first request, which is under way. *)
Definition pairEngine : Engine.LoadEngine :=
  engineFor (runConfig "steady" (30 * Second) (10 * Second) (5 * Second)).

Definition oneRequest : Engine.RunState :=
  {| Engine.pc := Engine.AtSelect;
     Engine.ctxDone := false;
     Engine.timerFired := false;
     Engine.workers :=
       [({| Engine.id := 0; Engine.engine := pairEngine;
            Engine.requests := 1 |}, Engine.AtLoopHead);
        ({| Engine.id := 1; Engine.engine := pairEngine;
            Engine.requests := 1 |}, Engine.InFlight)];
     Engine.collector :=
       Engine.RecordResponse (H := noLib) pairEngine
         (response 200 (ms 12) None)
         (Metrics.Start 0 Metrics.NewCollector);
     Engine.trace := [Engine.EvCollectorStart; Engine.EvRecordValidation 0;
                      Engine.EvRecordResponse 0] |}.

(** Extend a reachable run by one step, which [tac] justifies. *)
Ltac proceed R tac :=
  eapply (Engine.reachable_step (H := noLib)) in R; [|solve [tac]];
  cbn [Engine.pc Engine.ctxDone Engine.timerFired Engine.workers
       Engine.collector Engine.trace] in R.

Lemma oneRequest_reachable :
  Engine.reachable (H := noLib) pairEngine 2 oneRequest.
Proof.
  pose proof (Engine.reachable_initial (H := noLib) pairEngine 2
                [Engine.NewWorker 0 pairEngine; Engine.NewWorker 1 pairEngine]
                eq_refl) as R.
  proceed R ltac:(by apply Engine.step_collector_start with (now := 0)).
  proceed R ltac:(by apply Engine.step_spawn).
  proceed R ltac:(
    by apply Engine.step_worker_select
         with (i := 0%nat) (w := Engine.NewWorker 0 pairEngine)).
  proceed R ltac:(
    by apply Engine.step_worker_issue
         with (i := 0%nat) (w := Engine.NewWorker 0 pairEngine)).
  proceed R ltac:(
    by apply Engine.step_worker_select
         with (i := 1%nat) (w := Engine.NewWorker 1 pairEngine)).
  proceed R ltac:(
    by apply Engine.step_worker_response
         with (i := 0%nat)
              (w := Engine.counting (Engine.NewWorker 0 pairEngine))
              (resp := response 200 (ms 12) None)).
  repeat proceed R ltac:(
    eapply Engine.step_worker_update
      with (i := 0%nat)
           (w := Engine.counting (Engine.NewWorker 0 pairEngine));
    cbv; reflexivity).
  proceed R ltac:(
    by apply Engine.step_worker_recorded
         with (i := 0%nat)
              (w := Engine.counting (Engine.NewWorker 0 pairEngine))).
  proceed R ltac:(
    by apply Engine.step_worker_issue
         with (i := 1%nat) (w := Engine.NewWorker 1 pairEngine)).
  exact R.
Qed.

Lemma run_counts_requests_per_worker_witness :
  Metrics.totalRequests (Engine.collector oneRequest)
  = wrap64 (requestsOf (Engine.workers oneRequest)
            - underWayOf (Engine.workers oneRequest))
  /\ requestsOf (Engine.workers oneRequest) = 2
  /\ underWayOf (Engine.workers oneRequest) = 1
  /\ idsOf (Engine.workers oneRequest) = [0; 1].
Proof.
  destruct (run_counts_requests_per_worker (H := noLib) pairEngine 2
              oneRequest oneRequest_reachable)
    as (_ & _ & Hids & Htot & _).
  split; [exact Htot|]. split; [reflexivity|]. split; [reflexivity|].
  exact Hids.
Defined.

Lemma live_summary_has_no_throughput_witness :
  Metrics.totalRequests (Engine.collector oneRequest) = 1
  /\ Rates.RequestsPerSecond (Rates.rates (Engine.collector oneRequest))
     = 0%float.
Proof.
  split; [reflexivity|].
  apply (live_summary_has_no_throughput (H := noLib) pairEngine 2
           oneRequest oneRequest_reachable).
  reflexivity.
Defined.

Lemma report_blames_every_failure_on_the_body_witness :
  let c := engineRecordAll (H := noLib) pairEngine
             [response 404 (ms 12) None] Metrics.NewCollector in
  let report :=
    Reporting.formatValidationResults (Some (Metrics.validationResults c)) in
  Validation.ErrorType
    (Validation.Validate (H := noLib) (Engine.validator pairEngine)
       (response 404 (ms 12) None)) = "status_code"
  /\ Reporting.StatusCodeValidation report = "passed"
  /\ Reporting.BodyValidation report = "failed".
Proof.
  destruct (report_blames_every_failure_on_the_body (H := noLib) pairEngine
              [response 404 (ms 12) None]
              ltac:(vm_compute; discriminate))
    as (Hs & _ & Hb & _).
  split; [reflexivity|]. split; [exact Hs|].
  apply Hb. exists (response 404 (ms 12) None).
  split; [by apply list_elem_of_singleton|reflexivity].
Defined.

Lemma decimal_nonempty fuel n acc : decimal fuel n acc <> "".
Proof.
  revert n acc. induction fuel as [|fuel IH]; intros n acc; simpl.
  - discriminate.
  - destruct (n <? 10); [discriminate|apply IH].
Qed.

Lemma itoa_nonempty z : itoa z <> "".
Proof.
  unfold itoa. destruct (z <? 0); [discriminate|apply decimal_nonempty].
Qed.

Lemma live_status_line_overflows_witness :
  Reporting.statusRow (H := printingLib)
    [(0, 3); (200, 950); (201, 4); (404, 20); (500, 2); (503, 21)] = None.
Proof.
  apply (live_status_line_overflows (H := printingLib)
           [(0, 3); (200, 950); (201, 4); (404, 20); (500, 2); (503, 21)]
           itoa_nonempty).
  simpl. lia.
Defined.

Lemma exit_status_follows_success_rate_witness :
  Rates.exitStatus
    (Rates.SuccessRate
       (Rates.rates
          (Metrics.recordAll
             [response 200 (ms 12) None; response 500 (ms 7) None]
             Metrics.NewCollector))) = 2.
Proof.
  apply (exit_status_follows_success_rate
           [response 200 (ms 12) None; response 500 (ms 7) None]).
  simpl. lia.
Defined.

Definition quickOverrides : Overrides.ValidationOverrides :=
  {| Overrides.ExpectStatus := [204];
     Overrides.ExpectResponseTime := 2 * Second;
     Overrides.ExpectBody := "";
     Overrides.ExpectBodyNot := "" |}.

Lemma overrides_replace_the_rules_witness :
  Validation.Passed
    (Validation.validateResponseTime (H := printingLib)
       (Overrides.tempConfig (H := printingLib) bodyRules quickOverrides)
       (ms 12)) = true
  /\ Validation.Passed
       (Validation.validateStatusCode (H := printingLib)
          (Overrides.tempConfig (H := printingLib) bodyRules quickOverrides)
          200) = false.
Proof.
  destruct (overrides_replace_the_rules (H := printingLib) bodyRules
              quickOverrides (response 200 (ms 12) None))
    as (_ & Hs & Ht & _).
  split.
  - apply (proj2 (Ht ltac:(reflexivity) ltac:(reflexivity)
                    ltac:(discriminate) (ms 12))).
    vm_compute. discriminate.
  - apply not_true_is_false. intros Hp.
    apply (proj1 (Hs ltac:(discriminate) 200)) in Hp.
    apply list_elem_of_singleton in Hp. discriminate.
Defined.

End Instances.
